(** * A verified model of the http-server handlers

    The repository is a small Go HTTP server with three handlers,
    [getRoot], [getHello] and [getTranslate].  This development embeds the
    handlers, together with the parts of the Go standard library they call
    ([io], [fmt], [net/http], [net/url], [unicode/utf8], [encoding/json]),
    and proves the properties the specification states about them.

    Conventions.
    - A Go [string] or [[]byte] is a Rocq [string]: a sequence of 8-bit bytes.
    - A Go [int] is a [Z]; the decoder keeps it inside the 64-bit range.
    - An [io.Reader] is the bytes it delivers followed by [io.EOF] or by a
      read failure.
    - Handlers run in a small state monad over the [ResponseWriter], the
      process's standard output and the list of outbound GET requests. *)

From Stdlib Require Import ZArith NArith Ascii String List Bool Lia DecimalString DecimalPos.
From stdpp Require Import base option list strings gmap.

Local Open Scope string_scope.
Local Open Scope Z_scope.

(** ** Bytes and strings *)

Definition byte := ascii.

Definition b2z (c : byte) : Z := Z.of_N (N_of_ascii c).
Definition z2b (n : Z) : byte := ascii_of_N (Z.to_N n).

(** [s[n:]] *)
Fixpoint drop_bytes (n : nat) (s : string) : string :=
  match n, s with
  | O, _ => s
  | S n', String _ s' => drop_bytes n' s'
  | S _, EmptyString => EmptyString
  end.

(** [s[:n]] *)
Fixpoint take_bytes (n : nat) (s : string) : string :=
  match n, s with
  | S n', String c s' => String c (take_bytes n' s')
  | _, _ => EmptyString
  end.

(** [strings.Contains(s, sub)] *)
Fixpoint Contains (s sub : string) : bool :=
  String.prefix sub s ||
  match s with
  | EmptyString => false
  | String _ s' => Contains s' sub
  end.

(** ** package io *)

Module io.

(** The outcome of draining a reader: the bytes it delivers, and the error
    that ends the stream when it is not [io.EOF] ([None] for [io.EOF]). *)
Record Reader := mkReader { data : string; failure : option string }.

(** [io.ReadAll]: the bytes read, and the error if it is not [io.EOF]. *)
Definition ReadAll (r : Reader) : string * option string := (data r, failure r).

End io.

(** ** package net/http: the response writer *)

Module http.

Definition StatusOK : Z := 200.
Definition StatusBadRequest : Z := 400.
Definition StatusInternalServerError : Z := 500.

(** The handler's side of a response: the header map it can still edit, the
    status line with the headers as they were sent, and the body bytes. *)
Record ResponseWriter := mkRW {
  Header : gmap string string;
  wroteHeader : option (Z * gmap string string);
  written : string
}.

Definition newResponseWriter : ResponseWriter := mkRW ∅ None "".

Definition Header_Set (k v : string) (w : ResponseWriter) : ResponseWriter :=
  mkRW (<[k := v]> (Header w)) (wroteHeader w) (written w).

Definition Header_Del (k : string) (w : ResponseWriter) : ResponseWriter :=
  mkRW (delete k (Header w)) (wroteHeader w) (written w).

(** [w.WriteHeader(code)]: the first call sends the status and the headers
    set so far; later calls are ignored. *)
Definition WriteHeader (code : Z) (w : ResponseWriter) : ResponseWriter :=
  match wroteHeader w with
  | Some _ => w
  | None => mkRW (Header w) (Some (code, Header w)) (written w)
  end.

(** [w.Write(p)]: an implicit [WriteHeader(StatusOK)] when none was sent. *)
Definition Write (p : string) (w : ResponseWriter) : ResponseWriter :=
  let w' := WriteHeader StatusOK w in
  mkRW (Header w') (wroteHeader w') (written w' +:+ p).

(** What the client receives: status, a header, the body. *)
Definition status (w : ResponseWriter) : Z :=
  match wroteHeader w with
  | Some (code, _) => code
  | None => StatusOK
  end.

Definition sentHeader (w : ResponseWriter) (k : string) : option string :=
  match wroteHeader w with
  | Some (_, h) => h !! k
  | None => Header w !! k
  end.

Definition body (w : ResponseWriter) : string := written w.

(** The incoming request as the handlers use it. *)
Record Request := mkRequest {
  Method : string;
  Query : list (string * string);      (* r.URL.Query(), in order *)
  Body : io.Reader;
  serverAddr : option string           (* r.Context().Value(keyServerAddr) *)
}.

(** [url.Values.Has] and [url.Values.Get] *)
Definition Values_Has (q : list (string * string)) (k : string) : bool :=
  bool_decide (k ∈ q.*1).

Fixpoint Values_Get (q : list (string * string)) (k : string) : string :=
  match q with
  | [] => ""
  | (k', v) :: q' => if String.eqb k' k then v else Values_Get q' k
  end.

(** The upstream's answer to a GET. *)
Record Response := mkResponse {
  Status : string;        (* e.g. "503 Service Unavailable" *)
  StatusCode : Z;
  RespBody : io.Reader
}.

(** The two results of [http.Get]: a response, or an error. *)
Inductive GetResult :=
| GetOk (resp : Response)
| GetErr (err : string).

End http.

(** ** package unicode/utf8 *)

Module utf8.

Definition RuneError : Z := 0xFFFD.
Definition RuneSelf : Z := 0x80.
Definition MaxRune : Z := 0x10FFFF.

Definition surrogateMin : Z := 0xD800.
Definition surrogateMax : Z := 0xDFFF.

Definition tx : Z := 0x80.
Definition t2 : Z := 0xC0.
Definition t3 : Z := 0xE0.
Definition t4 : Z := 0xF0.

Definition maskx : Z := 0x3F.
Definition mask2 : Z := 0x1F.
Definition mask3 : Z := 0x0F.
Definition mask4 : Z := 0x07.

Definition rune1Max : Z := 0x7F.
Definition rune2Max : Z := 0x7FF.
Definition rune3Max : Z := 0xFFFF.

Definition locb : Z := 0x80.
Definition hicb : Z := 0xBF.

(** Entries of the [first] table: size in the low bits, accept range in the
    high ones. *)
Definition xx : Z := 0xF1.
Definition as_ : Z := 0xF0.
Definition s1 : Z := 0x02.
Definition s2 : Z := 0x13.
Definition s3 : Z := 0x03.
Definition s4 : Z := 0x23.
Definition s5 : Z := 0x34.
Definition s6 : Z := 0x04.
Definition s7 : Z := 0x44.

Definition first (p0 : Z) : Z :=
  if p0 <? 0x80 then as_
  else if p0 <? 0xC2 then xx
  else if p0 <? 0xE0 then s1
  else if p0 =? 0xE0 then s2
  else if p0 <? 0xED then s3
  else if p0 =? 0xED then s4
  else if p0 <? 0xF0 then s3
  else if p0 =? 0xF0 then s5
  else if p0 <? 0xF4 then s6
  else if p0 =? 0xF4 then s7
  else xx.

(** [acceptRanges[i]] as (lo, hi) *)
Definition acceptRanges (i : Z) : Z * Z :=
  if i =? 0 then (locb, hicb)
  else if i =? 1 then (0xA0, hicb)
  else if i =? 2 then (locb, 0x9F)
  else if i =? 3 then (0x90, hicb)
  else if i =? 4 then (locb, 0x8F)
  else (0, 0).

(** [p[i]], for [i] within the slice *)
Definition at_ (p : string) (i : nat) : Z :=
  match String.get i p with
  | Some c => b2z c
  | None => 0
  end.

(** [byte(x)] *)
Definition to_byte (x : Z) : Z := Z.land x 0xFF.

Definition DecodeRune (p : string) : Z * nat :=
  let n := String.length p in
  if (n <? 1)%nat then (RuneError, 0%nat) else
  let p0 := at_ p 0 in
  let x := first p0 in
  if as_ <=? x then
    ((if x =? xx then RuneError else p0), 1%nat)
  else
  let sz := Z.to_nat (Z.land x 7) in
  let accept := acceptRanges (Z.shiftr x 4) in
  if (n <? sz)%nat then (RuneError, 1%nat) else
  let b1 := at_ p 1 in
  if (b1 <? accept.1) || (accept.2 <? b1) then (RuneError, 1%nat) else
  if (sz <=? 2)%nat then
    (Z.lor (Z.shiftl (Z.land p0 mask2) 6) (Z.land b1 maskx), 2%nat)
  else
  let b2 := at_ p 2 in
  if (b2 <? locb) || (hicb <? b2) then (RuneError, 1%nat) else
  if (sz <=? 3)%nat then
    (Z.lor (Z.lor (Z.shiftl (Z.land p0 mask3) 12) (Z.shiftl (Z.land b1 maskx) 6))
           (Z.land b2 maskx), 3%nat)
  else
  let b3 := at_ p 3 in
  if (b3 <? locb) || (hicb <? b3) then (RuneError, 1%nat) else
  (Z.lor (Z.lor (Z.lor (Z.shiftl (Z.land p0 mask4) 18) (Z.shiftl (Z.land b1 maskx) 12))
                (Z.shiftl (Z.land b2 maskx) 6))
         (Z.land b3 maskx), 4%nat).

Definition bytes (l : list Z) : string :=
  string_of_list_ascii (map z2b l).

Definition encode3 (r : Z) : string :=
  bytes [Z.lor t3 (to_byte (Z.shiftr r 12));
         Z.lor tx (Z.land (to_byte (Z.shiftr r 6)) maskx);
         Z.lor tx (Z.land (to_byte r) maskx)].

(** [EncodeRune], returning the bytes written *)
Definition EncodeRune (r : Z) : string :=
  let i := r mod 2 ^ 32 in
  if i <=? rune1Max then bytes [to_byte r]
  else if i <=? rune2Max then
    bytes [Z.lor t2 (to_byte (Z.shiftr r 6));
           Z.lor tx (Z.land (to_byte r) maskx)]
  else if (MaxRune <? i) || ((surrogateMin <=? i) && (i <=? surrogateMax)) then
    encode3 RuneError
  else if i <=? rune3Max then encode3 r
  else
    bytes [Z.lor t4 (to_byte (Z.shiftr r 18));
           Z.lor tx (Z.land (to_byte (Z.shiftr r 12)) maskx);
           Z.lor tx (Z.land (to_byte (Z.shiftr r 6)) maskx);
           Z.lor tx (Z.land (to_byte r) maskx)].

(** Well-formed UTF-8, by the table of well-formed byte sequences: a
    continuation byte, and the two-, three- and four-byte sequences. *)
Definition cont (b : Z) : bool := (0x80 <=? b) && (b <=? 0xBF).

Definition seq2 (p0 b1 : Z) : bool :=
  (0xC2 <=? p0) && (p0 <=? 0xDF) && cont b1.

Definition seq3 (p0 b1 b2 : Z) : bool :=
  (((p0 =? 0xE0) && (0xA0 <=? b1) && (b1 <=? 0xBF))
   || ((0xE1 <=? p0) && (p0 <=? 0xEC) && cont b1)
   || ((p0 =? 0xED) && (0x80 <=? b1) && (b1 <=? 0x9F))
   || ((0xEE <=? p0) && (p0 <=? 0xEF) && cont b1))
  && cont b2.

Definition seq4 (p0 b1 b2 b3 : Z) : bool :=
  (((p0 =? 0xF0) && (0x90 <=? b1) && (b1 <=? 0xBF))
   || ((0xF1 <=? p0) && (p0 <=? 0xF3) && cont b1)
   || ((p0 =? 0xF4) && (0x80 <=? b1) && (b1 <=? 0x8F)))
  && cont b2 && cont b3.

(** [utf8.ValidString] *)
Fixpoint ValidString (s : string) : bool :=
  match s with
  | EmptyString => true
  | String c0 s1 =>
    if b2z c0 <? RuneSelf then ValidString s1 else
    match s1 with
    | String c1 s2 =>
      if seq2 (b2z c0) (b2z c1) then ValidString s2 else
      match s2 with
      | String c2 s3 =>
        if seq3 (b2z c0) (b2z c1) (b2z c2) then ValidString s3 else
        match s3 with
        | String c3 s4 =>
          if seq4 (b2z c0) (b2z c1) (b2z c2) (b2z c3) then ValidString s4 else false
        | EmptyString => false
        end
      | EmptyString => false
      end
    | EmptyString => false
    end
  end.

End utf8.

(** ** package unicode/utf16 *)

Module utf16.

Definition surr1 : Z := 0xD800.
Definition surr2 : Z := 0xDC00.
Definition surr3 : Z := 0xE000.
Definition surrSelf : Z := 0x10000.
Definition replacementChar : Z := 0xFFFD.

Definition IsSurrogate (r : Z) : bool := (surr1 <=? r) && (r <? surr3).

Definition DecodeRune (r1 r2 : Z) : Z :=
  if (surr1 <=? r1) && (r1 <? surr2) && (surr2 <=? r2) && (r2 <? surr3) then
    Z.lor (Z.shiftl (r1 - surr1) 10) (r2 - surr2) + surrSelf
  else replacementChar.

End utf16.

(** ** package encoding/json: the scanner *)

Module json.

(** A JSON value as the decoder sees it.  A number keeps its literal text:
    the decoder converts it according to the Go type it is stored into. *)
#[warnings="-register-all"]
Inductive Value :=
| Null
| Bool (b : bool)
| Number (lit : string)
| Str (s : string)
| Array (l : list Value)
| Object (m : list (string * Value)).

Definition eqc (c d : ascii) : bool := Ascii.eqb c d.

Definition isSpace (c : byte) : bool :=
  eqc c " " || eqc c "009" || eqc c "013" || eqc c "010".

Definition isDigit (c : byte) : bool := (48 <=? b2z c) && (b2z c <=? 57).

Definition isHex (c : byte) : bool :=
  isDigit c || ((97 <=? b2z c) && (b2z c <=? 102)) || ((65 <=? b2z c) && (b2z c <=? 70)).

Fixpoint skipSpace (s : string) : string :=
  match s with
  | String c s' => if isSpace c then skipSpace s' else s
  | EmptyString => s
  end.

(** *** String literals: [stateInString] and its escape states *)

Inductive stringState :=
| InString | InStringEsc | InStringEscU | InStringEscU1 | InStringEscU12 | InStringEscU123.

(** Scans the bytes after an opening quote.  The result is the literal's
    content (without the quotes, escapes still in place) and what follows
    the closing quote. *)
Fixpoint scanString (st : stringState) (s : string) : option (string * string) :=
  match s with
  | EmptyString => None
  | String c s' =>
    let continue st' :=
      match scanString st' s' with
      | Some (lit, rest) => Some (String c lit, rest)
      | None => None
      end in
    match st with
    | InString =>
      if eqc c "034" then Some (EmptyString, s')
      else if eqc c "\" then continue InStringEsc
      else if b2z c <? 0x20 then None
      else continue InString
    | InStringEsc =>
      if eqc c "b" || eqc c "f" || eqc c "n" || eqc c "r" || eqc c "t"
         || eqc c "\" || eqc c "/" || eqc c "034" then continue InString
      else if eqc c "u" then continue InStringEscU
      else None
    | InStringEscU => if isHex c then continue InStringEscU1 else None
    | InStringEscU1 => if isHex c then continue InStringEscU12 else None
    | InStringEscU12 => if isHex c then continue InStringEscU123 else None
    | InStringEscU123 => if isHex c then continue InString else None
    end
  end.

(** *** [getu4]: the rune of a [\uXXXX] escape, or -1 *)

Definition hexval (c : byte) : option Z :=
  let x := b2z c in
  if (48 <=? x) && (x <=? 57) then Some (x - 48)
  else if (97 <=? x) && (x <=? 102) then Some (x - 97 + 10)
  else if (65 <=? x) && (x <=? 70) then Some (x - 65 + 10)
  else None.

Definition getu4 (s : string) : Z :=
  match s with
  | String "\" (String "u" (String h1 (String h2 (String h3 (String h4 _))))) =>
    match hexval h1, hexval h2, hexval h3, hexval h4 with
    | Some a, Some b, Some c, Some d => ((a * 16 + b) * 16 + c) * 16 + d
    | _, _, _, _ => -1
    end
  | _ => -1
  end.

(** *** [unquoteBytes], on the content between the quotes *)

Fixpoint unquoteLoop (fuel : nat) (s : string) : option string :=
  match fuel with
  | O => match s with EmptyString => Some EmptyString | _ => None end
  | S fuel' =>
    match s with
    | EmptyString => Some EmptyString
    | String c s' =>
      let emit (out : string) (n : nat) :=
        match unquoteLoop fuel' (drop_bytes n s) with
        | Some t => Some (out +:+ t)
        | None => None
        end in
      if eqc c "\" then
        match s' with
        | EmptyString => None
        | String e _ =>
          if eqc e "034" || eqc e "\" || eqc e "/" || eqc e "'" then emit (String e "") 2%nat
          else if eqc e "b" then emit (String "008" "") 2%nat
          else if eqc e "f" then emit (String "012" "") 2%nat
          else if eqc e "n" then emit (String "010" "") 2%nat
          else if eqc e "r" then emit (String "013" "") 2%nat
          else if eqc e "t" then emit (String "009" "") 2%nat
          else if eqc e "u" then
            let rr := getu4 s in
            if rr <? 0 then None
            else if utf16.IsSurrogate rr then
              let rr1 := getu4 (drop_bytes 6 s) in
              let dec := utf16.DecodeRune rr rr1 in
              if negb (dec =? utf16.replacementChar)
              then emit (utf8.EncodeRune dec) 12%nat
              else emit (utf8.EncodeRune utf16.replacementChar) 6%nat
            else emit (utf8.EncodeRune rr) 6%nat
          else None
        end
      else if eqc c "034" || (b2z c <? 0x20) then None
      else if b2z c <? utf8.RuneSelf then emit (String c "") 1%nat
      else
        let '(rr, size) := utf8.DecodeRune s in
        emit (utf8.EncodeRune rr) size
    end
  end.

Definition unquoteBytes (s : string) : option string :=
  unquoteLoop (String.length s) s.

(** *** Number literals: [state0], [state1], [stateDot], [stateE] ... *)

Fixpoint digits (s : string) : string * string :=
  match s with
  | String c s' =>
    if isDigit c then let '(d, rest) := digits s' in (String c d, rest) else ("", s)
  | EmptyString => ("", s)
  end.

(** [stateE] and on: after [e] or [E] *)
Definition stateE (s : string) : option (string * string) :=
  let '(sign, s1) :=
    match s with
    | String c s' => if eqc c "+" || eqc c "-" then (String c "", s') else ("", s)
    | EmptyString => ("", s)
    end in
  match digits s1 with
  | (EmptyString, _) => None
  | (d, rest) => Some (sign +:+ d, rest)
  end.

(** [state0]/[stateDot0]: an optional exponent *)
Definition exponent (s : string) : option (string * string) :=
  match s with
  | String c s' =>
    if eqc c "e" || eqc c "E" then
      match stateE s' with
      | Some (e, rest) => Some (String c e, rest)
      | None => None
      end
    else Some ("", s)
  | EmptyString => Some ("", s)
  end.

(** [state0]: after the integer part *)
Definition state0 (s : string) : option (string * string) :=
  match s with
  | String "." s' =>
    match digits s' with
    | (EmptyString, _) => None
    | (d, s1) =>
      match exponent s1 with
      | Some (e, rest) => Some ("." +:+ d +:+ e, rest)
      | None => None
      end
    end
  | _ => exponent s
  end.

(** The integer part, after an optional sign: [0], or a non-zero digit and
    more digits. *)
Definition intPart (s : string) : option (string * string) :=
  match s with
  | String c s' =>
    if eqc c "0" then Some ("0", s')
    else if isDigit c then let '(d, rest) := digits s' in Some (String c d, rest)
    else None
  | EmptyString => None
  end.

Definition scanNumber (s : string) : option (string * string) :=
  let '(sign, s1) :=
    match s with
    | String "-" s' => ("-", s')
    | _ => ("", s)
    end in
  match intPart s1 with
  | Some (i, s2) =>
    match state0 s2 with
    | Some (f, rest) => Some (sign +:+ i +:+ f, rest)
    | None => None
    end
  | None => None
  end.

(** *** Literals [true], [false], [null] *)

Definition scanWord (w : string) (v : Value) (s : string) : option (Value * string) :=
  if String.prefix w s then Some (v, drop_bytes (String.length w) s) else None.

(** *** Values *)

Definition maxNestingDepth : Z := 10000.

Section composite.
(** The scanner one nesting level down. *)
Variable value : string → option (Value * string).

(** Array elements; [s] starts at a value. *)
Fixpoint elements (fuel : nat) (s : string) (acc : list Value)
  : option (Value * string) :=
  match fuel with
  | O => None
  | S fuel' =>
    match value (skipSpace s) with
    | Some (v, s1) =>
      match skipSpace s1 with
      | String c s2 =>
        if eqc c "," then elements fuel' s2 (v :: acc)
        else if eqc c "]" then Some (Array (rev (v :: acc)), s2)
        else None
      | EmptyString => None
      end
    | None => None
    end
  end.

(** Object members; [s] starts at a key. *)
Fixpoint members (fuel : nat) (s : string) (acc : list (string * Value))
  : option (Value * string) :=
  match fuel with
  | O => None
  | S fuel' =>
    match skipSpace s with
    | String q s0 =>
      if negb (eqc q "034") then None else
      match scanString InString s0 with
      | Some (lit, s1) =>
        match unquoteBytes lit, skipSpace s1 with
        | Some key, String colon s2 =>
          if negb (eqc colon ":") then None else
          match value (skipSpace s2) with
          | Some (v, s3) =>
            match skipSpace s3 with
            | String c s4 =>
              if eqc c "," then members fuel' s4 ((key, v) :: acc)
              else if eqc c "}" then Some (Object (rev ((key, v) :: acc)), s4)
              else None
            | EmptyString => None
            end
          | None => None
          end
        | _, _ => None
        end
      | None => None
      end
    | EmptyString => None
    end
  end.
End composite.

(** [scanValue fuel depth s]: the first JSON value of [s] (which starts at
    the value's first byte) and the bytes after it.  [depth] is the number
    of arrays and objects the value is nested in ([len(s.parseState)]);
    [fuel] bounds the recursion and is never exhausted when it exceeds the
    length of [s]. *)
Fixpoint scanValue (fuel : nat) (depth : Z) (s : string) {struct fuel}
  : option (Value * string) :=
  match fuel, s with
  | S fuel', String c s' =>
    if eqc c "{" then
      if maxNestingDepth <? depth + 1 then None else
      match skipSpace s' with
      | String c1 rest =>
        if eqc c1 "}" then Some (Object [], rest)
        else members (scanValue fuel' (depth + 1)) (String.length s') (String c1 rest) []
      | EmptyString => None
      end
    else if eqc c "[" then
      if maxNestingDepth <? depth + 1 then None else
      match skipSpace s' with
      | String c1 rest =>
        if eqc c1 "]" then Some (Array [], rest)
        else elements (scanValue fuel' (depth + 1)) (String.length s') (String c1 rest) []
      | EmptyString => None
      end
    else if eqc c "034" then
      match scanString InString s' with
      | Some (lit, rest) =>
        match unquoteBytes lit with
        | Some t => Some (Str t, rest)
        | None => None
        end
      | None => None
      end
    else if eqc c "-" || isDigit c then
      match scanNumber s with
      | Some (lit, rest) => Some (Number lit, rest)
      | None => None
      end
    else if eqc c "t" then scanWord "true" (Bool true) s
    else if eqc c "f" then scanWord "false" (Bool false) s
    else if eqc c "n" then scanWord "null" Null s
    else None
  | _, _ => None
  end.

(** Every string inside the value is well-formed UTF-8. *)
Fixpoint validStrings (v : Value) : bool :=
  match v with
  | Str s => utf8.ValidString s
  | Array l => forallb validStrings l
  | Object m => forallb (λ kv, validStrings kv.2) m
  | _ => true
  end.

(** The first JSON value of a stream, after leading white space. *)
Definition scan (data : string) : option (Value * string) :=
  let s := skipSpace data in
  scanValue (String.length s) 0 s.

(** ** package encoding/json: storing values into Go variables *)

(** The decoder's errors.  [SyntaxError] stands for every failure to read
    a complete JSON value from the stream: a syntax error, [io.EOF] on an
    empty stream, [io.ErrUnexpectedEOF] on a truncated one, a failing
    reader.  [UnmarshalTypeError] carries the description of the JSON
    value that did not fit the Go type. *)
Inductive error :=
| SyntaxError
| UnmarshalTypeError (Value : string).

(** [d.saveError]: only the first error is kept. *)
Definition saveError (e : option error) (saved : option error) : option error :=
  match saved with
  | Some _ => saved
  | None => e
  end.

(** How a JSON value is stored into a variable of type [T] holding [cur]:
    the new content and the error to save, if any. *)
Definition Setter (T : Type) : Type := Value → T → T * option error.

(** [strconv.ParseInt(lit, 10, 64)] on a JSON number literal *)
Fixpoint parseDigits (acc : Z) (s : string) : option Z :=
  match s with
  | EmptyString => Some acc
  | String c s' => if isDigit c then parseDigits (acc * 10 + (b2z c - 48)) s' else None
  end.

Definition ParseInt (lit : string) : option Z :=
  let '(neg, ds) :=
    match lit with
    | String "-" s' => (true, s')
    | _ => (false, lit)
    end in
  match ds with
  | EmptyString => None
  | _ =>
    match parseDigits 0 ds with
    | Some n =>
      let n := if neg then - n else n in
      if (- 2 ^ 63 <=? n) && (n <? 2 ^ 63) then Some n else None
    | None => None
    end
  end.

(** [literalStore], [d.array] and [d.object] for a [string] variable *)
Definition storeString : Setter string := λ v cur,
  match v with
  | Null => (cur, None)
  | Str s => (s, None)
  | Bool _ => (cur, Some (UnmarshalTypeError "bool"))
  | Number _ => (cur, Some (UnmarshalTypeError "number"))
  | Array _ => (cur, Some (UnmarshalTypeError "array"))
  | Object _ => (cur, Some (UnmarshalTypeError "object"))
  end.

(** ... and for an [int] variable (64 bits wide) *)
Definition storeInt : Setter Z := λ v cur,
  match v with
  | Null => (cur, None)
  | Number lit =>
    match ParseInt lit with
    | Some n => (n, None)
    | None => (cur, Some (UnmarshalTypeError ("number " +:+ lit)))
    end
  | Bool _ => (cur, Some (UnmarshalTypeError "bool"))
  | Str _ => (cur, Some (UnmarshalTypeError "string"))
  | Array _ => (cur, Some (UnmarshalTypeError "array"))
  | Object _ => (cur, Some (UnmarshalTypeError "object"))
  end.

(** A struct field as the decoder caches it: its JSON name and how a value
    is stored into it. *)
Record Field (T : Type) := mkField { name : string; set : Value → T → T * option error }.
Arguments mkField {T}.
Arguments name {T}.
Arguments set {T}.

(** [foldRune] restricted to what matters for ASCII names: the only
    non-ASCII runes whose case-fold orbit meets ASCII are the Kelvin sign
    (K) and the long s (S). *)
Definition foldRune (r : Z) : Z :=
  if r =? 0x212A then 75
  else if r =? 0x17F then 83
  else r.

(** [foldName]: the key under which names are compared case-insensitively *)
Fixpoint foldNameLoop (fuel : nat) (s : string) : string :=
  match fuel, s with
  | S fuel', String c s' =>
    if b2z c <? utf8.RuneSelf then
      let c' := if (97 <=? b2z c) && (b2z c <=? 122) then z2b (b2z c - 32) else c in
      String c' (foldNameLoop fuel' s')
    else
      let '(r, n) := utf8.DecodeRune s in
      utf8.EncodeRune (foldRune r) +:+ foldNameLoop fuel' (drop_bytes n s)
  | _, _ => EmptyString
  end.

Definition foldName (s : string) : string := foldNameLoop (String.length s) s.

(** The field a key selects: an exact match first, a case-insensitive one
    otherwise. *)
Definition findField {T} (fields : list (Field T)) (key : string) : option (Field T) :=
  match find (λ f, String.eqb (name f) key) fields with
  | Some f => Some f
  | None => find (λ f, String.eqb (foldName (name f)) (foldName key)) fields
  end.

(** [d.object] for a struct: the members are stored in order; a key that
    selects no field is skipped. *)
Fixpoint object {T} (fields : list (Field T)) (m : list (string * Value))
    (cur : T) (saved : option error) : T * option error :=
  match m with
  | [] => (cur, saved)
  | (key, v) :: m' =>
    match findField fields key with
    | Some f =>
      let '(cur', e) := set f v cur in
      object fields m' cur' (saveError e saved)
    | None => object fields m' cur saved
    end
  end.

(** [d.value] for a struct variable *)
Definition storeStruct {T} (fields : list (Field T)) : Setter T := λ v cur,
  match v with
  | Object m => object fields m cur None
  | Null => (cur, None)
  | Bool _ => (cur, Some (UnmarshalTypeError "bool"))
  | Number _ => (cur, Some (UnmarshalTypeError "number"))
  | Str _ => (cur, Some (UnmarshalTypeError "string"))
  | Array _ => (cur, Some (UnmarshalTypeError "array"))
  end.

(** [dec.readValue]: the first JSON value of the stream.  What follows the
    value is left in the stream unread.  An object or an array ends at its
    closing bracket; any other value ends at the byte after it or at
    [io.EOF], so it is lost when the reader fails right behind it. *)
Definition readValue (r : io.Reader) : option Value :=
  match scan (io.data r) with
  | Some (v, rest) =>
    match v with
    | Object _ | Array _ => Some v
    | _ =>
      match rest, io.failure r with
      | EmptyString, Some _ => None
      | _, _ => Some v
      end
    end
  | None => None
  end.

(** [json.NewDecoder(r).Decode(&v)] for a struct [v] *)
Definition Decode {T} (fields : list (Field T)) (r : io.Reader) (v : T) : T * option error :=
  match readValue r with
  | Some j => storeStruct fields j v
  | None => (v, Some SyntaxError)
  end.

(** ** package encoding/json: encoding *)

Definition hex : string := "0123456789abcdef".

Definition hexDigit (tbl : string) (i : Z) : string :=
  match String.get (Z.to_nat i) tbl with
  | Some c => String c ""
  | None => ""
  end.

(** [htmlSafeSet[b]], for [b < utf8.RuneSelf] *)
Definition htmlSafeSet (c : byte) : bool :=
  (0x20 <=? b2z c) && (b2z c <? 0x80) &&
  negb (eqc c "034" || eqc c "&" || eqc c "<" || eqc c ">" || eqc c "\").

(** What [appendString] (with [escapeHTML] set, as the encoder has it)
    writes for a byte below [utf8.RuneSelf]. *)
Definition appendByte (b : byte) : string :=
  if htmlSafeSet b then String b ""
  else if eqc b "\" || eqc b "034" then String "\" (String b "")
  else if eqc b "008" then "\b"
  else if eqc b "012" then "\f"
  else if eqc b "010" then "\n"
  else if eqc b "013" then "\r"
  else if eqc b "009" then "\t"
  else "\u00" +:+ hexDigit hex (Z.shiftr (b2z b) 4) +:+ hexDigit hex (Z.land (b2z b) 0xF).

(** The loop of [appendString]: what goes between the quotes. *)
Fixpoint appendStringLoop (fuel : nat) (src : string) : string :=
  match fuel, src with
  | S fuel', String b src' =>
    if b2z b <? utf8.RuneSelf then appendByte b +:+ appendStringLoop fuel' src'
    else
      let '(c, size) := utf8.DecodeRune src in
      if (c =? utf8.RuneError) && (size =? 1)%nat then
        "\ufffd" +:+ appendStringLoop fuel' (drop_bytes size src)
      else if (c =? 0x2028) || (c =? 0x2029) then
        "\u202" +:+ hexDigit hex (Z.land c 0xF) +:+ appendStringLoop fuel' (drop_bytes size src)
      else
        take_bytes size src +:+ appendStringLoop fuel' (drop_bytes size src)
  | _, _ => EmptyString
  end.

Definition appendString (src : string) : string :=
  String "034" (appendStringLoop (String.length src) src) +:+ String "034" "".

(** [json.NewEncoder(w).Encode(v)] for a struct of string fields, given as
    (JSON name, content) pairs: the object and a newline. *)
Definition encodeFields (fs : list (string * string)) : string :=
  String.concat "," (map (λ f, appendString f.1 +:+ ":" +:+ appendString f.2) fs).

Definition Encode (fs : list (string * string)) : string :=
  "{" +:+ encodeFields fs +:+ "}" +:+ "
".

End json.

(** ** package net/url *)

Module url.

Definition upperhex : string := "0123456789ABCDEF".

(** [shouldEscape(c, encodeQueryComponent)] *)
Definition shouldEscape (c : byte) : bool :=
  let x := b2z c in
  if ((97 <=? x) && (x <=? 122)) || ((65 <=? x) && (x <=? 90)) || ((48 <=? x) && (x <=? 57))
  then false
  else if json.eqc c "-" || json.eqc c "_" || json.eqc c "." || json.eqc c "~" then false
  else true.

(** What [QueryEscape] writes for one byte: the byte itself, [+] for a
    space, or a [%XX] escape. *)
Definition escapeByte (c : byte) : string :=
  if shouldEscape c then
    if json.eqc c " " then "+"
    else "%" +:+ json.hexDigit upperhex (Z.shiftr (b2z c) 4)
             +:+ json.hexDigit upperhex (Z.land (b2z c) 15)
  else String c "".

(** [QueryEscape] *)
Fixpoint QueryEscape (s : string) : string :=
  match s with
  | EmptyString => EmptyString
  | String c s' => escapeByte c +:+ QueryEscape s'
  end.

(** [ishex] and [unhex] *)
Definition unhex (c : byte) : option Z :=
  let x := b2z c in
  if (48 <=? x) && (x <=? 57) then Some (x - 48)
  else if (97 <=? x) && (x <=? 102) then Some (x - 97 + 10)
  else if (65 <=? x) && (x <=? 70) then Some (x - 65 + 10)
  else None.

(** [QueryUnescape]: the inverse transformation, [None] for an
    [EscapeError]. *)
Fixpoint QueryUnescape (s : string) : option string :=
  match s with
  | EmptyString => Some EmptyString
  | String "%" (String h1 (String h2 s')) =>
    match unhex h1, unhex h2, QueryUnescape s' with
    | Some a, Some b, Some t => Some (String (z2b (Z.lor (Z.shiftl a 4) b)) t)
    | _, _, _ => None
    end
  | String "%" _ => None
  | String c s' =>
    match QueryUnescape s' with
    | Some t => Some (String (if json.eqc c "+" then " "%char else c) t)
    | None => None
    end
  end.

End url.

(** ** package fmt *)

Module fmt.

(** An operand of a formatting call: a [string] (also a [[]byte] or an
    [error], which [%s] prints as their text), an [int], a [bool], or a nil
    interface. *)
Inductive arg :=
| Str (s : string)
| Int (n : Z)
| Bool (b : bool)
| Nil.

(** [%d] *)
Definition decimal (n : Z) : string := NilZero.string_of_int (Z.to_int n).

(** [%t] *)
Definition boolean (b : bool) : string := if b then "true" else "false".

(** What a verb prints for an operand it does not apply to. *)
Definition bad (v : ascii) (a : arg) : string :=
  "%!" +:+ String v "(" +:+
  match a with
  | Str s => "string=" +:+ s
  | Int n => "int=" +:+ decimal n
  | Bool b => "bool=" +:+ boolean b
  | Nil => "<nil>"
  end +:+ ")".

(** The verbs [%s], [%d] and [%t]. *)
Definition verb (v : ascii) (a : arg) : string :=
  match a with
  | Str s => if json.eqc v "s" then s else bad v a
  | Int n => if json.eqc v "d" then decimal n else bad v a
  | Bool b => if json.eqc v "t" then boolean b else bad v a
  | Nil => bad v a
  end.

(** [fmt.Sprintf] for formats made of text, [%%] and the verbs above, with
    no more operands than verbs. *)
Fixpoint Sprintf (format : string) (a : list arg) : string :=
  match format with
  | EmptyString => EmptyString
  | String "%" EmptyString => "%!(NOVERB)"
  | String "%" (String v format') =>
    if json.eqc v "%" then String "%" (Sprintf format' a)
    else
      match a with
      | x :: a' => verb v x +:+ Sprintf format' a'
      | [] => "%!" +:+ String v "(MISSING)" +:+ Sprintf format' []
      end
  | String c format' => String c (Sprintf format' a)
  end.

(** The operand for the [any] that [ctx.Value] returns. *)
Definition any (v : option string) : arg :=
  match v with
  | Some s => Str s
  | None => Nil
  end.

End fmt.

(** ** The handler monad *)

Record Env := mkEnv {
  rw : http.ResponseWriter;
  stdout : string;
  outbound : list string
}.

Definition M (A : Type) : Type := Env → A * Env.

#[global] Instance M_ret : MRet M := λ A x e, (x, e).
#[global] Instance M_bind : MBind M := λ A B f m e, let '(x, e') := m e in f x e'.

Definition modify_rw (f : http.ResponseWriter → http.ResponseWriter) : M unit :=
  λ e, (tt, mkEnv (f (rw e)) (stdout e) (outbound e)).

Definition print (s : string) : M unit :=
  λ e, (tt, mkEnv (rw e) (stdout e +:+ s) (outbound e)).

Definition initEnv : Env := mkEnv http.newResponseWriter "" [].

(** Run a handler on a fresh response writer. *)
Definition serve (h : M unit) : Env := (h initEnv).2.

(** [io.WriteString(w, s)] *)
Definition io_WriteString (s : string) : M unit := modify_rw (http.Write s).

(** [http.Error(w, error, code)] *)
Definition http_Error (error : string) (code : Z) : M unit :=
  modify_rw (http.Header_Del "Content-Length") ;;
  modify_rw (http.Header_Set "Content-Type" "text/plain; charset=utf-8") ;;
  modify_rw (http.Header_Set "X-Content-Type-Options" "nosniff") ;;
  modify_rw (http.WriteHeader code) ;;
  modify_rw (http.Write (error +:+ "
")).

(** [http.Get(url)]: the request goes out, the network decides the result. *)
Definition http_Get (client : string → http.GetResult) (url : string) : M http.GetResult :=
  λ e, (client url, mkEnv (rw e) (stdout e) (outbound e ++ [url])).

(** ** The server: main.go *)

Definition keyServerAddr : string := "serverAddr".

Record HelloRequest := mkHelloRequest {
  Name : string;
  Age : Z;
  Hobby : string
}.

Record TranslateRequest := mkTranslateRequest {
  Text : string;
  Target : string;
  Source : string
}.

Record TranslateResponse := mkTranslateResponse {
  TranslatedText : string
}.

(** The struct tags, as the decoder reads them. *)
Definition HelloRequest_fields : list (json.Field HelloRequest) :=
  [ json.mkField "Name" (λ v r,
      let '(x, e) := json.storeString v (Name r) in (mkHelloRequest x (Age r) (Hobby r), e));
    json.mkField "Age" (λ v r,
      let '(x, e) := json.storeInt v (Age r) in (mkHelloRequest (Name r) x (Hobby r), e));
    json.mkField "Hobby" (λ v r,
      let '(x, e) := json.storeString v (Hobby r) in (mkHelloRequest (Name r) (Age r) x, e)) ].

Definition TranslateRequest_fields : list (json.Field TranslateRequest) :=
  [ json.mkField "text" (λ v r,
      let '(x, e) := json.storeString v (Text r) in (mkTranslateRequest x (Target r) (Source r), e));
    json.mkField "target" (λ v r,
      let '(x, e) := json.storeString v (Target r) in (mkTranslateRequest (Text r) x (Source r), e));
    json.mkField "source" (λ v r,
      let '(x, e) := json.storeString v (Source r) in (mkTranslateRequest (Text r) (Target r) x, e)) ].

(** The anonymous struct [apiResponse] of [getTranslate]. *)
Module api.

Record ResponseData_t := mkResponseData { TranslatedText : string }.

Record apiResponse_t := mkApiResponse { ResponseData : ResponseData_t }.

Definition ResponseData_fields : list (json.Field ResponseData_t) :=
  [ json.mkField "translatedText" (λ v r,
      let '(x, e) := json.storeString v (TranslatedText r) in (mkResponseData x, e)) ].

Definition apiResponse_fields : list (json.Field apiResponse_t) :=
  [ json.mkField "responseData" (λ v r,
      let '(x, e) := json.storeStruct ResponseData_fields v (ResponseData r) in
      (mkApiResponse x, e)) ].

Definition zero : apiResponse_t := mkApiResponse (mkResponseData "").

End api.

(** [json.NewEncoder(w).Encode(response)] for a [TranslateResponse] *)
Definition encodeTranslateResponse (response : TranslateResponse) : string :=
  json.Encode [("translatedText", TranslatedText response)].

(** *** getRoot *)

Definition getRoot (r : http.Request) : M unit :=
  let hasFirst := http.Values_Has (http.Query r) "first" in
  let first := http.Values_Get (http.Query r) "first" in
  let hasSecond := http.Values_Has (http.Query r) "second" in
  let second := http.Values_Get (http.Query r) "second" in
  let '(body, err) := io.ReadAll (http.Body r) in
  match err with
  | Some e => print (fmt.Sprintf "could not read body: %s
" [fmt.Str e])
  | None => mret tt
  end ;;
  print (fmt.Sprintf "%s: got / request. first(%t)=%s, second(%t)=%s, body:
%s
" [fmt.any (http.serverAddr r); fmt.Bool hasFirst; fmt.Str first;
   fmt.Bool hasSecond; fmt.Str second; fmt.Str body]) ;;
  io_WriteString "This is my website!
".

(** *** getHello *)

Definition getHello (r : http.Request) : M unit :=
  let req := mkHelloRequest "" 0 "" in
  let '(req, err) := json.Decode HelloRequest_fields (http.Body r) req in
  match err with
  | Some _ => http_Error "Bad Request: invalid JSON" http.StatusBadRequest
  | None =>
    if Age req <=? 0 then
      http_Error "Bad Request: Age must be a positive number" http.StatusBadRequest
    else
      print (fmt.Sprintf "%s: got /hello request
" [fmt.any (http.serverAddr r)]) ;;
      print (fmt.Sprintf "Name: %s, Age: %d, Hobby: %s
" [fmt.Str (Name req); fmt.Int (Age req); fmt.Str (Hobby req)]) ;;
      io_WriteString (fmt.Sprintf "Hello, %s! You are %d years old and enjoy %s.
" [fmt.Str (Name req); fmt.Int (Age req); fmt.Str (Hobby req)])
  end.

(** *** getTranslate *)

Definition apiURL (req : TranslateRequest) : string :=
  let encodedText := url.QueryEscape (Text req) in
  fmt.Sprintf "https://api.mymemory.translated.net/get?q=%s&langpair=%s|%s"
    [fmt.Str encodedText; fmt.Str (Source req); fmt.Str (Target req)].

Definition getTranslate (client : string → http.GetResult) (r : http.Request) : M unit :=
  let req := mkTranslateRequest "" "" "" in
  let '(req, err) := json.Decode TranslateRequest_fields (http.Body r) req in
  match err with
  | Some _ => http_Error "Bad Request: invalid JSON" http.StatusBadRequest
  | None =>
    if String.eqb (Text req) "" || String.eqb (Source req) "" || String.eqb (Target req) "" then
      http_Error "Bad Request: missing required fields" http.StatusBadRequest
    else
      let apiURL := apiURL req in
      print (fmt.Sprintf "API URL: %s
" [fmt.Str apiURL]) ;;
      res ← http_Get client apiURL ;
      match res with
      | http.GetErr _ =>
        http_Error "Internal Server Error: failed to make request"
          http.StatusInternalServerError
      | http.GetOk resp =>
        if negb (http.StatusCode resp =? http.StatusOK) then
          http_Error (fmt.Sprintf "External API error: %s" [fmt.Str (http.Status resp)])
            http.StatusInternalServerError
        else
          let '(apiResponse, err) :=
            json.Decode api.apiResponse_fields (http.RespBody resp) api.zero in
          match err with
          | Some _ =>
            http_Error "Internal Server Error: failed to parse response"
              http.StatusInternalServerError
          | None =>
            let response :=
              mkTranslateResponse (api.TranslatedText (api.ResponseData apiResponse)) in
            modify_rw (http.Header_Set "Content-Type" "application/json") ;;
            modify_rw (http.Write (encodeTranslateResponse response))
          end
      end
  end.

(** ** Vocabulary of the statements *)

(** What the client receives from a handler run on a fresh response writer. *)
Definition response (h : M unit) : http.ResponseWriter := rw (serve h).

(** The outbound GET requests of a handler run, in order. *)
Definition requests (h : M unit) : list string := outbound (serve h).

(** The three decoding steps of the handlers. *)
Definition decodeHello (r : http.Request) : HelloRequest * option json.error :=
  json.Decode HelloRequest_fields (http.Body r) (mkHelloRequest "" 0 "").

Definition decodeTranslate (r : http.Request) : TranslateRequest * option json.error :=
  json.Decode TranslateRequest_fields (http.Body r) (mkTranslateRequest "" "" "").

Definition decodeApiResponse (resp : http.Response) : api.apiResponse_t * option json.error :=
  json.Decode api.apiResponse_fields (http.RespBody resp) api.zero.

(** A translation request that passes the validation of [getTranslate]. *)
Definition validated (r : http.Request) (req : TranslateRequest) : Prop :=
  decodeTranslate r = (req, None) ∧ Text req ≠ "" ∧ Source req ≠ "" ∧ Target req ≠ "".

(** The handler's state once a validated request has been sent upstream. *)
Definition sent (req : TranslateRequest) : Env :=
  mkEnv http.newResponseWriter ("API URL: " +:+ apiURL req +:+ "
") [apiURL req].

(** The struct tag of [TranslateResponse], as a decoder reads it, and the
    decoding of a response body of [getTranslate] by a client. *)
Definition TranslateResponse_fields : list (json.Field TranslateResponse) :=
  [ json.mkField "translatedText" (λ v r,
      let '(x, e) := json.storeString v (TranslatedText r) in (mkTranslateResponse x, e)) ].

Definition decodeTranslateResponse (body : string) : TranslateResponse * option json.error :=
  json.Decode TranslateResponse_fields (io.mkReader body None) (mkTranslateResponse "").

(** JSON text in the statements below is written with ['] where the text
    has a double quote. *)
Fixpoint js (s : string) : string :=
  match s with
  | EmptyString => EmptyString
  | String c s' => String (if json.eqc c "'" then "034"%char else c) (js s')
  end.

(** A request carrying [body], read to [io.EOF]. *)
Definition post (body : string) : http.Request :=
  http.mkRequest "POST" [] (io.mkReader body None) (Some "[::]:3333").

(** An upstream that answers every GET with the given status and body. *)
Definition upstream (status : string) (code : Z) (body : string) : string → http.GetResult :=
  λ _, http.GetOk (http.mkResponse status code (io.mkReader body None)).

(** [key] selects the field named [n] of a struct with the given fields. *)
Definition selects {T} (fields : list (json.Field T)) (key n : string) : bool :=
  match json.findField fields key with
  | Some f => String.eqb (json.name f) n
  | None => false
  end.

(** The field named [n] is absent from an object: no member selects it. *)
Definition absent {T} (fields : list (json.Field T)) (n : string)
    (m : list (string * json.Value)) : bool :=
  forallb (λ kv, negb (selects fields kv.1 n)) m.



(** The unreserved characters of a URI (RFC 3986, 2.3): letters, digits,
    [-], [.], [_] and [~], each given by its code. *)
Definition unreserved (c : byte) : bool :=
  let x := b2z c in
  ((65 <=? x) && (x <=? 90)) || ((97 <=? x) && (x <=? 122)) || ((48 <=? x) && (x <=? 57))
  || (x =? 45) || (x =? 46) || (x =? 95) || (x =? 126).

(** The bytes that may stand in a percent-encoded query component: the
    unreserved characters, [%] (code 37, which opens an escape whose two
    digits are unreserved) and [+] (code 43, for a space).  The delimiters of
    a query string ([&], [=], [#], [?], [/], the space) are none of them. *)
Definition querySafe (c : byte) : bool :=
  unreserved c || (b2z c =? 37) || (b2z c =? 43).

(** The upper-case hexadecimal digit of [n < 16], by its code. *)
Definition hexUpper (n : Z) : byte :=
  if n <? 10 then z2b (48 + n) else z2b (55 + n).

(** Percent-encoding of a query component, as the specification words it:
    an unreserved byte stands for itself, a space is written [+], and every
    other byte [b] is written [%] followed by the two upper-case hexadecimal
    digits of [b]. *)
Fixpoint percentEncode (s : string) : string :=
  match s with
  | EmptyString => EmptyString
  | String c s' =>
    (if unreserved c then String c ""
     else if b2z c =? 32 then "+"
     else String "%" (String (hexUpper (b2z c / 16)) (String (hexUpper (b2z c mod 16)) "")))
    +:+ percentEncode s'
  end.

(** *** Auxiliary notions of the encode/decode round trip *)

(** The body of [DecodeRune] once the class [x] of the first byte is known
    to be one of the multi-byte classes. *)
Definition decodeMulti (x : Z) (n : nat) (p0 b1 b2 b3 : Z) : Z * nat :=
  let sz := Z.to_nat (Z.land x 7) in
  let accept := utf8.acceptRanges (Z.shiftr x 4) in
  if (n <? sz)%nat then (utf8.RuneError, 1%nat) else
  if (b1 <? accept.1) || (accept.2 <? b1) then (utf8.RuneError, 1%nat) else
  if (sz <=? 2)%nat then
    (Z.lor (Z.shiftl (Z.land p0 utf8.mask2) 6) (Z.land b1 utf8.maskx), 2%nat)
  else
  if (b2 <? utf8.locb) || (utf8.hicb <? b2) then (utf8.RuneError, 1%nat) else
  if (sz <=? 3)%nat then
    (Z.lor (Z.lor (Z.shiftl (Z.land p0 utf8.mask3) 12) (Z.shiftl (Z.land b1 utf8.maskx) 6))
           (Z.land b2 utf8.maskx), 3%nat)
  else
  if (b3 <? utf8.locb) || (utf8.hicb <? b3) then (utf8.RuneError, 1%nat) else
  (Z.lor (Z.lor (Z.lor (Z.shiftl (Z.land p0 utf8.mask4) 18) (Z.shiftl (Z.land b1 utf8.maskx) 12))
                (Z.shiftl (Z.land b2 utf8.maskx) 6))
         (Z.land b3 utf8.maskx), 4%nat).

(** What the encoder writes for a multi-byte rune: the bytes themselves, or
    the escape of U+2028 and U+2029. *)
Definition appendRune (r : Z) (raw : string) : string :=
  if (r =? 0x2028) || (r =? 0x2029) then "\u202" +:+ json.hexDigit json.hex (Z.land r 0xF)
  else raw.

(** A piece of a string literal that the scanner passes over unchanged. *)
Definition scanned (piece : string) : Prop :=
  ∀ y, json.scanString json.InString (piece +:+ y) =
       match json.scanString json.InString y with
       | Some (lit, rest) => Some (piece +:+ lit, rest)
       | None => None
       end.

(** A piece of a string literal that [unquoteBytes] turns into [out]. *)
Definition unquoted (piece out : string) : Prop :=
  ∀ m y, json.unquoteLoop (S m) (piece +:+ y) =
         match json.unquoteLoop m y with
         | Some u => Some (out +:+ u)
         | None => None
         end.

(** *** Vocabulary of the further properties *)

(** The error reply of [http.Error] on a writer that has sent nothing. *)
Definition errorReply (error : string) (code : Z) (w : http.ResponseWriter) : Prop :=
  http.status w = code ∧
  http.body w = error +:+ "
" ∧
  http.sentHeader w "Content-Type" = Some "text/plain; charset=utf-8" ∧
  http.sentHeader w "X-Content-Type-Options" = Some "nosniff".

(** The five error replies and the success reply, with what led to each. *)
Inductive outcome (client : string → http.GetResult) (r : http.Request) : Env → Prop :=
| invalid_json e :
    (decodeTranslate r).2 ≠ None →
    errorReply "Bad Request: invalid JSON" 400 (rw e) →
    stdout e = "" → outbound e = [] → outcome client r e
| missing_fields e :
    (decodeTranslate r).2 = None →
    Text (decodeTranslate r).1 = "" ∨ Source (decodeTranslate r).1 = "" ∨
      Target (decodeTranslate r).1 = "" →
    errorReply "Bad Request: missing required fields" 400 (rw e) →
    stdout e = "" → outbound e = [] → outcome client r e
| request_failed e req err :
    validated r req → client (apiURL req) = http.GetErr err →
    errorReply "Internal Server Error: failed to make request" 500 (rw e) →
    stdout e = stdout (sent req) → outbound e = [apiURL req] → outcome client r e
| upstream_status e req resp :
    validated r req → client (apiURL req) = http.GetOk resp →
    http.StatusCode resp ≠ 200 →
    errorReply ("External API error: " +:+ http.Status resp) 500 (rw e) →
    stdout e = stdout (sent req) → outbound e = [apiURL req] → outcome client r e
| parse_failed e req resp :
    validated r req → client (apiURL req) = http.GetOk resp →
    http.StatusCode resp = 200 → (decodeApiResponse resp).2 ≠ None →
    errorReply "Internal Server Error: failed to parse response" 500 (rw e) →
    stdout e = stdout (sent req) → outbound e = [apiURL req] → outcome client r e
| relayed e req resp a :
    validated r req → client (apiURL req) = http.GetOk resp →
    http.StatusCode resp = 200 → decodeApiResponse resp = (a, None) →
    http.status (rw e) = 200 →
    http.body (rw e) =
      encodeTranslateResponse (mkTranslateResponse (api.TranslatedText (api.ResponseData a))) →
    http.sentHeader (rw e) "Content-Type" = Some "application/json" →
    http.sentHeader (rw e) "X-Content-Type-Options" = None →
    stdout e = stdout (sent req) → outbound e = [apiURL req] → outcome client r e.

(** What [%s] prints for the server address found in the request context. *)
Definition logged (addr : option string) : string :=
  match addr with
  | Some s => s
  | None => "%!s(<nil>)"
  end.

(** The bytes found raw in a line of the success body: none below 0x20 (the
    ASCII control characters before the space, newline and tab among them)
    and none of [<], [>] and [&].  DEL (0x7F) and the bytes of non-ASCII
    characters, the C1 controls among them, do count: Go's encoder writes
    them as they are. *)
Definition rawSafe (c : byte) : bool :=
  (0x20 <=? b2z c) && negb (b2z c =? 0x3C) && negb (b2z c =? 0x3E) && negb (b2z c =? 0x26).

Definition all (p : byte → bool) (s : string) : bool :=
  forallb p (list_ascii_of_string s).

(** What the encoder writes: well-formed UTF-8 made of raw-safe bytes. *)
Definition clean (s : string) : Prop :=
  utf8.ValidString s = true ∧ all rawSafe s = true.

(** The request [r] with the bytes [x] added at the end of its body. *)
Definition withTrailing (x : string) (r : http.Request) : http.Request :=
  http.mkRequest (http.Method r) (http.Query r)
    (io.mkReader (io.data (http.Body r) +:+ x) (io.failure (http.Body r)))
    (http.serverAddr r).

(** The JSON values a [string] field and an [int] field accept. *)
Definition fitsString (v : json.Value) : bool :=
  match v with
  | json.Str _ | json.Null => true
  | _ => false
  end.

Definition fitsInt (v : json.Value) : bool :=
  match v with
  | json.Null => true
  | json.Number lit => match json.ParseInt lit with Some _ => true | None => false end
  | _ => false
  end.

(** A member of a request object that the decoder stores without error:
    its key selects no field, or its value fits the field it selects. *)
Definition helloFits (kv : string * json.Value) : bool :=
  match json.findField HelloRequest_fields kv.1 with
  | Some f => if String.eqb (json.name f) "Age" then fitsInt kv.2 else fitsString kv.2
  | None => true
  end.

Definition translateFits (kv : string * json.Value) : bool :=
  match json.findField TranslateRequest_fields kv.1 with
  | Some _ => fitsString kv.2
  | None => true
  end.

(** The bodies a decoder with the member test [fit] accepts: the first JSON
    value is [null], or an object whose members all fit. *)
Definition acceptedBy (fit : string * json.Value → bool) (rd : io.Reader) : Prop :=
  json.readValue rd = Some json.Null ∨
  ∃ m, json.readValue rd = Some (json.Object m) ∧ forallb fit m = true.

(** The members of the upstream object and of its [responseData] that the
    decoder stores without error. *)
Definition dataFits (kv : string * json.Value) : bool :=
  match json.findField api.ResponseData_fields kv.1 with
  | Some _ => fitsString kv.2
  | None => true
  end.

Definition apiFits (kv : string * json.Value) : bool :=
  match json.findField api.apiResponse_fields kv.1 with
  | Some _ =>
    match kv.2 with
    | json.Null => true
    | json.Object m => forallb dataFits m
    | _ => false
    end
  | None => true
  end.

(** ASCII upper-casing, byte by byte. *)
Fixpoint upper (s : string) : string :=
  match s with
  | EmptyString => EmptyString
  | String c s' =>
    String (if (97 <=? b2z c) && (b2z c <=? 122) then z2b (b2z c - 32) else c) (upper s')
  end.

(** The field of a decoded [TranslateRequest] with the JSON name [n]. *)
Definition translateField (n : string) (req : TranslateRequest) : string :=
  if String.eqb n "text" then Text req
  else if String.eqb n "source" then Source req
  else Target req.

(** The upstream answer [resp] with the bytes [x] added at the end of its body. *)
Definition respWithTrailing (x : string) (resp : http.Response) : http.Response :=
  http.mkResponse (http.Status resp) (http.StatusCode resp)
    (io.mkReader (io.data (http.RespBody resp) +:+ x) (io.failure (http.RespBody resp))).

(** [n] opening brackets. *)
Fixpoint brackets (n : nat) : string :=
  match n with
  | O => ""
  | S n' => String "[" (brackets n')
  end.

(** [n] closing brackets, and the value of [n >= 1] arrays nested in one
    another, the innermost empty. *)
Fixpoint closers (n : nat) : string :=
  match n with
  | O => ""
  | S n' => String "]" (closers n')
  end.

Fixpoint nested (n : nat) : json.Value :=
  match n with
  | O | S O => json.Array []
  | S n' => json.Array [nested n']
  end.

(** The JSON values a decoder with the member test [fit] stores without
    error: [null], and the objects whose members all fit. *)
Definition accepts (fit : string * json.Value → bool) (v : json.Value) : bool :=
  match v with
  | json.Null => true
  | json.Object m => forallb fit m
  | _ => false
  end.

(** * Properties *)

(** ** Strings *)

Lemma append_cons (c : ascii) (s t : string) : String c s +:+ t = String c (s +:+ t).
Proof. reflexivity. Qed.

Lemma append_nil_l (s : string) : "" +:+ s = s.
Proof. reflexivity. Qed.

Lemma append_nil_r (s : string) : s +:+ "" = s.
Proof. induction s as [|c s IH]; [done | by rewrite append_cons, IH]. Qed.

Lemma append_assoc (s t u : string) : (s +:+ t) +:+ u = s +:+ t +:+ u.
Proof. induction s as [|c s IH]; [done | by rewrite !append_cons, IH]. Qed.

Lemma length_append (s t : string) :
  String.length (s +:+ t) = (String.length s + String.length t)%nat.
Proof. induction s as [|c s IH]; [done | rewrite append_cons; simpl; by rewrite IH]. Qed.

Lemma prefix_append (s t : string) : String.prefix s (s +:+ t) = true.
Proof.
  induction s as [|c s IH]; [by destruct t|].
  rewrite append_cons. simpl. destruct (ascii_dec c c); [apply IH | done].
Qed.

Lemma Contains_append (s t u : string) : Contains (s +:+ t +:+ u) t = true.
Proof.
  induction s as [|c s IH].
  - rewrite append_nil_l. destruct t as [|c t]; [by destruct u|].
    rewrite append_cons. simpl. destruct (ascii_dec c c); [|done].
    by rewrite prefix_append.
  - rewrite append_cons. simpl. rewrite IH. apply orb_true_r.
Qed.

(** ** Formatting *)

Lemma Sprintf_external_error (status : string) :
  fmt.Sprintf "External API error: %s" [fmt.Str status] = "External API error: " +:+ status.
Proof. cbv [fmt.Sprintf fmt.verb json.eqc Ascii.eqb Bool.eqb]. by rewrite append_nil_r. Qed.

Lemma Sprintf_apiURL (req : TranslateRequest) :
  apiURL req =
    "https://api.mymemory.translated.net" +:+ "/get?q=" +:+ url.QueryEscape (Text req)
      +:+ "&langpair=" +:+ Source req +:+ "|" +:+ Target req.
Proof.
  unfold apiURL. cbv [fmt.Sprintf fmt.verb json.eqc Ascii.eqb Bool.eqb].
  by rewrite append_nil_r.
Qed.

(** ** The response writer *)

Lemma http_Error_spec (error : string) (code : Z) (e : Env) :
  http.wroteHeader (rw e) = None →
  let e' := (http_Error error code e).2 in
  http.status (rw e') = code ∧
  http.body (rw e') = http.body (rw e) +:+ error +:+ "
" ∧
  http.sentHeader (rw e') "Content-Type" = Some "text/plain; charset=utf-8" ∧
  stdout e' = stdout e ∧ outbound e' = outbound e.
Proof.
  intros Hw. destruct e as [[h wh wr] so ob]. simpl in Hw. subst wh.
  repeat split.
  unfold http_Error, modify_rw, http.sentHeader, mbind, M_bind. simpl.
  rewrite lookup_insert_ne by done. by rewrite lookup_insert_eq.
Qed.

(** ** getRoot *)

(** C8. For every request, whatever its method, query parameters and body,
    and also when reading the body fails, [getRoot] answers status 200 with
    the body ["This is my website!\n"] and nothing else. *)
Theorem getRoot_always_ok (r : http.Request) :
  http.status (response (getRoot r)) = 200 ∧
  http.body (response (getRoot r)) = "This is my website!
".
Proof.
  unfold response, serve, getRoot.
  destruct (io.ReadAll (http.Body r)) as [body [e|]]; done.
Qed.

(** ** getHello *)

Lemma getHello_cases (r : http.Request) :
  let '(req, err) := decodeHello r in
  serve (getHello r) =
    match err with
    | Some _ => serve (http_Error "Bad Request: invalid JSON" 400)
    | None =>
      if Age req <=? 0 then
        serve (http_Error "Bad Request: Age must be a positive number" 400)
      else
        serve (print (fmt.Sprintf "%s: got /hello request
" [fmt.any (http.serverAddr r)]) ;;
               print (fmt.Sprintf "Name: %s, Age: %d, Hobby: %s
" [fmt.Str (Name req); fmt.Int (Age req); fmt.Str (Hobby req)]) ;;
               io_WriteString ("Hello, " +:+ Name req +:+ "! You are "
                 +:+ fmt.decimal (Age req) +:+ " years old and enjoy "
                 +:+ Hobby req +:+ ".
"))
    end.
Proof.
  unfold getHello, decodeHello.
  destruct (json.Decode _ _ _) as [req [e|]]; [done|].
  destruct (Age req <=? 0); done.
Qed.




(** ** getTranslate *)

Lemma validated_checks (r : http.Request) (req : TranslateRequest) :
  validated r req →
  String.eqb (Text req) "" || String.eqb (Source req) "" || String.eqb (Target req) "" = false.
Proof.
  intros (_ & Ht & Hs & Hg).
  apply String.eqb_neq in Ht, Hs, Hg. by rewrite Ht, Hs, Hg.
Qed.


Lemma getTranslate_validated (client : string → http.GetResult) (r : http.Request)
    (req : TranslateRequest) :
  validated r req →
  serve (getTranslate client r) =
    match client (apiURL req) with
    | http.GetErr _ =>
      (http_Error "Internal Server Error: failed to make request" 500 (sent req)).2
    | http.GetOk resp =>
      if negb (http.StatusCode resp =? 200) then
        (http_Error ("External API error: " +:+ http.Status resp) 500 (sent req)).2
      else
        match decodeApiResponse resp with
        | (_, Some _) =>
          (http_Error "Internal Server Error: failed to parse response" 500 (sent req)).2
        | (a, None) =>
          mkEnv (http.Write
                   (encodeTranslateResponse
                      (mkTranslateResponse (api.TranslatedText (api.ResponseData a))))
                   (http.Header_Set "Content-Type" "application/json"
                      http.newResponseWriter))
                (stdout (sent req)) (outbound (sent req))
        end
    end.
Proof.
  intros Hv. pose proof (validated_checks r req Hv) as Hc.
  destruct Hv as (Hd & _). unfold decodeTranslate in Hd.
  unfold serve, getTranslate. rewrite Hd, Hc.
  unfold mbind, M_bind, http_Get, print, initEnv, sent; cbn [fst snd rw stdout outbound].
  destruct (client (apiURL req)) as [resp|err]; [|reflexivity].
  unfold http.StatusOK.
  destruct (negb (http.StatusCode resp =? 200));
    [by rewrite Sprintf_external_error|].
  unfold decodeApiResponse.
  destruct (json.Decode api.apiResponse_fields _ _) as [a [e|]]; reflexivity.
Qed.



(** C7. For a validated request: when the outbound GET fails,
    [getTranslate] answers status 500; when the upstream answers with a
    status other than 200, it answers status 500 and the body is
    ["External API error: "], the upstream's status text and a newline, so
    the status text is part of the error body. *)
Theorem getTranslate_upstream_failure (client : string → http.GetResult)
    (r : http.Request) (req : TranslateRequest) :
  validated r req →
  (∀ err, client (apiURL req) = http.GetErr err →
     http.status (response (getTranslate client r)) = 500) ∧
  (∀ resp, client (apiURL req) = http.GetOk resp → http.StatusCode resp ≠ 200 →
     http.status (response (getTranslate client r)) = 500 ∧
     http.body (response (getTranslate client r)) =
       "External API error: " +:+ http.Status resp +:+ "
" ∧
     Contains (http.body (response (getTranslate client r))) (http.Status resp) = true).
Proof.
  intros Hv. unfold response. rewrite (getTranslate_validated client r req Hv).
  split.
  - intros err ->. done.
  - intros resp -> Hne. apply Z.eqb_neq in Hne. rewrite Hne. simpl.
    repeat split.
    apply (Contains_append "External API error: ").
Qed.

Lemma getTranslate_upstream_failure_witness :
  http.status (response (getTranslate (λ _, http.GetErr "dial tcp: i/o timeout")
    (post (js "{'text':'Hello','source':'en','target':'es'}")))) = 500 ∧
  (http.status (response (getTranslate (upstream "503 Service Unavailable" 503 "")
     (post (js "{'text':'Hello','source':'en','target':'es'}")))) = 500 ∧
   http.body (response (getTranslate (upstream "503 Service Unavailable" 503 "")
     (post (js "{'text':'Hello','source':'en','target':'es'}")))) =
     "External API error: 503 Service Unavailable
" ∧
   Contains (http.body (response (getTranslate (upstream "503 Service Unavailable" 503 "")
     (post (js "{'text':'Hello','source':'en','target':'es'}")))))
     "503 Service Unavailable" = true).
Proof.
  assert (validated (post (js "{'text':'Hello','source':'en','target':'es'}"))
            (mkTranslateRequest "Hello" "es" "en")) as Hv.
  { split; [vm_compute; reflexivity | repeat split; discriminate]. }
  split.
  - apply (proj1 (getTranslate_upstream_failure _ _ _ Hv) "dial tcp: i/o timeout").
    reflexivity.
  - apply (proj2 (getTranslate_upstream_failure
                    (upstream "503 Service Unavailable" 503 "") _ _ Hv)
             (http.mkResponse "503 Service Unavailable" 503 (io.mkReader "" None))).
    + reflexivity.
    + simpl. lia.
Defined.



(** ** The outbound URL *)

Lemma escapeByte_unescape (c : ascii) (t : string) :
  url.QueryUnescape (url.escapeByte c +:+ t) =
    match url.QueryUnescape t with
    | Some u => Some (String c u)
    | None => None
    end.
Proof.
  destruct c as [[] [] [] [] [] [] [] []];
    match goal with
    | |- context [url.escapeByte ?c] =>
      let e := eval vm_compute in (url.escapeByte c) in
      change (url.escapeByte c) with e
    end; reflexivity.
Qed.

Lemma QueryEscape_roundtrip (s : string) :
  url.QueryUnescape (url.QueryEscape s) = Some s.
Proof.
  induction s as [|c s IH]; [done|].
  cbn [url.QueryEscape]. by rewrite escapeByte_unescape, IH.
Qed.

Lemma list_ascii_append (s t : string) :
  list_ascii_of_string (s +:+ t) = (list_ascii_of_string s ++ list_ascii_of_string t)%list.
Proof. induction s as [|c s IH]; [done|]. rewrite append_cons. simpl. by rewrite IH. Qed.

Lemma escapeByte_safe (c : ascii) :
  forallb querySafe (list_ascii_of_string (url.escapeByte c)) = true.
Proof. destruct c as [[] [] [] [] [] [] [] []]; vm_compute; reflexivity. Qed.

Lemma QueryEscape_safe (s : string) :
  forallb querySafe (list_ascii_of_string (url.QueryEscape s)) = true.
Proof.
  induction s as [|c s IH]; [done|].
  cbn [url.QueryEscape]. rewrite list_ascii_append, forallb_app, escapeByte_safe.
  exact IH.
Qed.

(** Byte by byte, [QueryEscape] writes what the reference encoder writes. *)
Lemma escapeByte_percentEncode (c : ascii) :
  url.escapeByte c = percentEncode (String c "").
Proof. destruct c as [[] [] [] [] [] [] [] []]; vm_compute; reflexivity. Qed.

Lemma percentEncode_cons (c : ascii) (s : string) :
  percentEncode (String c s) = percentEncode (String c "") +:+ percentEncode s.
Proof. cbn [percentEncode]. by rewrite append_nil_r. Qed.

Lemma QueryEscape_percentEncode (s : string) : url.QueryEscape s = percentEncode s.
Proof.
  induction s as [|c s IH]; [done|].
  rewrite percentEncode_cons. cbn [url.QueryEscape].
  by rewrite escapeByte_percentEncode, IH.
Qed.

Lemma getTranslate_requests (client : string → http.GetResult) (r : http.Request)
    (req : TranslateRequest) :
  validated r req → requests (getTranslate client r) = [apiURL req].
Proof.
  intros Hv. unfold requests. rewrite (getTranslate_validated client r req Hv).
  destruct (client (apiURL req)) as [resp|err]; [|done].
  destruct (negb _); [done|].
  destruct (decodeApiResponse resp) as [a [e|]]; done.
Qed.

(** C2. For a validated request, [getTranslate] sends exactly one GET, to
    the provider's base URL followed by
    [/get?q=<E(text)>&langpair=<source>|<target>]: [source] and [target]
    are copied as received, and [E(text)] is the percent-encoding of [text]
    (unreserved bytes as they are, [+] for a space, [%XX] for every other
    byte).  [E(text)] is made of unreserved characters, [%] and [+] only, so
    none of the delimiters of a query string occurs in it, and it unescapes
    to [text]. *)
Theorem getTranslate_outbound_url (client : string → http.GetResult)
    (r : http.Request) (req : TranslateRequest) :
  validated r req →
  requests (getTranslate client r) =
    ["https://api.mymemory.translated.net" +:+ "/get?q=" +:+ percentEncode (Text req)
       +:+ "&langpair=" +:+ Source req +:+ "|" +:+ Target req] ∧
  url.QueryEscape (Text req) = percentEncode (Text req) ∧
  forallb querySafe (list_ascii_of_string (percentEncode (Text req))) = true ∧
  url.QueryUnescape (percentEncode (Text req)) = Some (Text req).
Proof.
  intros Hv. rewrite (getTranslate_requests client r req Hv), Sprintf_apiURL.
  rewrite <- QueryEscape_percentEncode.
  auto using QueryEscape_safe, QueryEscape_roundtrip.
Qed.

Lemma getTranslate_outbound_url_witness :
  requests (getTranslate (upstream "200 OK" 200 "{}")
    (post (js "{'text':'a&b=c d#/?','source':'en','target':'es'}"))) =
    ["https://api.mymemory.translated.net/get?q=a%26b%3Dc+d%23%2F%3F&langpair=en|es"] ∧
  url.QueryEscape "a&b=c d#/?" = "a%26b%3Dc+d%23%2F%3F" ∧
  forallb querySafe (list_ascii_of_string "a%26b%3Dc+d%23%2F%3F") = true ∧
  url.QueryUnescape "a%26b%3Dc+d%23%2F%3F" = Some "a&b=c d#/?".
Proof.
  apply (getTranslate_outbound_url (upstream "200 OK" 200 "{}")
           (post (js "{'text':'a&b=c d#/?','source':'en','target':'es'}"))
           (mkTranslateRequest "a&b=c d#/?" "es" "en")).
  split; [vm_compute; reflexivity | repeat split; discriminate].
Defined.

(** ** Decoding objects into structs *)

Lemma findField_In {T} (fields : list (json.Field T)) (key : string) (f : json.Field T) :
  json.findField fields key = Some f → In f fields.
Proof.
  unfold json.findField. destruct (find _ fields) as [g|] eqn:E.
  - intros [= <-]. by apply find_some in E as [? _].
  - intros E'. by apply find_some in E' as [? _].
Qed.

Lemma saveError_None (saved : option json.error) : json.saveError None saved = saved.
Proof. by destruct saved. Qed.

(** Members that select no field leave the struct and the saved error alone. *)
Lemma object_skips {T} (fields : list (json.Field T)) (m : list (string * json.Value))
    (cur : T) (saved : option json.error) :
  (∀ kv, In kv m → json.findField fields kv.1 = None) →
  json.object fields m cur saved = (cur, saved).
Proof.
  induction m as [|[key v] m IH]; intros H; [done|].
  pose proof (H (key, v) (or_introl eq_refl)) as Hk. simpl in Hk.
  simpl. rewrite Hk. apply IH. intros kv ?. apply H. by right.
Qed.

(** A component of the struct that only the field [n] writes keeps its
    content when [n] is absent from the object. *)
Lemma object_preserves {T A} (fields : list (json.Field T)) (proj : T → A) (n : string) :
  (∀ f, In f fields → String.eqb (json.name f) n = false →
        ∀ v cur, proj (json.set f v cur).1 = proj cur) →
  ∀ m cur saved, absent fields n m = true →
    proj (json.object fields m cur saved).1 = proj cur.
Proof.
  intros Hset. induction m as [|[key v] m IH]; intros cur saved Ha; [done|].
  simpl in Ha. apply andb_true_iff in Ha as [Hk Hm]. simpl.
  unfold selects in Hk. simpl in Hk.
  destruct (json.findField fields key) as [f|] eqn:E; [|by apply IH].
  apply negb_true_iff in Hk.
  pose proof (Hset f (findField_In _ _ _ E) Hk v cur) as Hp.
  destruct (json.set f v cur) as [cur' e]. simpl in Hp.
  rewrite IH by done. exact Hp.
Qed.

Lemma HelloRequest_absent_Name m cur saved :
  absent HelloRequest_fields "Name" m = true →
  Name (json.object HelloRequest_fields m cur saved).1 = Name cur.
Proof.
  apply (object_preserves HelloRequest_fields Name).
  intros f [<-|[<-|[<-|[]]]] Hn v c; simpl in *; try done.
  - by destruct (json.storeInt v (Age c)).
  - by destruct (json.storeString v (Hobby c)).
Qed.

Lemma HelloRequest_absent_Age m cur saved :
  absent HelloRequest_fields "Age" m = true →
  Age (json.object HelloRequest_fields m cur saved).1 = Age cur.
Proof.
  apply (object_preserves HelloRequest_fields Age).
  intros f [<-|[<-|[<-|[]]]] Hn v c; simpl in *; try done.
  - by destruct (json.storeString v (Name c)).
  - by destruct (json.storeString v (Hobby c)).
Qed.

Lemma HelloRequest_absent_Hobby m cur saved :
  absent HelloRequest_fields "Hobby" m = true →
  Hobby (json.object HelloRequest_fields m cur saved).1 = Hobby cur.
Proof.
  apply (object_preserves HelloRequest_fields Hobby).
  intros f [<-|[<-|[<-|[]]]] Hn v c; simpl in *; try done.
  - by destruct (json.storeString v (Name c)).
  - by destruct (json.storeInt v (Age c)).
Qed.

(** ** getTranslate: the relayed translation *)

Lemma getTranslate_relays (client : string → http.GetResult) (r : http.Request)
    (req : TranslateRequest) (resp : http.Response) (a : api.apiResponse_t) :
  validated r req →
  client (apiURL req) = http.GetOk resp →
  http.StatusCode resp = 200 →
  decodeApiResponse resp = (a, None) →
  http.status (response (getTranslate client r)) = 200 ∧
  http.sentHeader (response (getTranslate client r)) "Content-Type"
    = Some "application/json" ∧
  http.body (response (getTranslate client r)) =
    encodeTranslateResponse (mkTranslateResponse (api.TranslatedText (api.ResponseData a))).
Proof.
  intros Hv Hc Hs Hd. unfold response.
  rewrite (getTranslate_validated client r req Hv), Hc, Hs, Hd. done.
Qed.

(** ** getHello: absent fields *)

Lemma decodeHello_object (r : http.Request) (m : list (string * json.Value)) :
  json.readValue (http.Body r) = Some (json.Object m) →
  decodeHello r = json.object HelloRequest_fields m (mkHelloRequest "" 0 "") None.
Proof. intros Hr. unfold decodeHello, json.Decode. by rewrite Hr. Qed.

(** ** Bytes and bit operations *)

Lemma b2z_range (c : ascii) : 0 ≤ b2z c < 256.
Proof.
  unfold b2z. pose proof (N_ascii_bounded c) as H. lia.
Qed.

Lemma z2b_b2z (c : ascii) : z2b (b2z c) = c.
Proof. unfold z2b, b2z. by rewrite N2Z.id, ascii_N_embedding. Qed.

Lemma b2z_z2b (n : Z) : 0 ≤ n < 256 → b2z (z2b n) = n.
Proof.
  intros H. unfold z2b, b2z. rewrite N_ascii_embedding by lia. lia.
Qed.

Lemma land_low (a b n : Z) : 0 ≤ n → 0 ≤ b < 2 ^ n → Z.land (a * 2 ^ n) b = 0.
Proof.
  intros Hn Hb. rewrite <- Z.shiftl_mul_pow2 by lia.
  apply Z.bits_inj'. intros i Hi. rewrite Z.land_spec, Z.bits_0.
  destruct (Z.lt_ge_cases i n).
  - by rewrite Z.shiftl_spec_low by lia.
  - rewrite <- (Z.mod_small b (2 ^ n)) by lia.
    rewrite Z.mod_pow2_bits_high by lia. apply andb_false_r.
Qed.

Lemma lor_add (a b n : Z) : 0 ≤ n → 0 ≤ b < 2 ^ n → Z.lor (a * 2 ^ n) b = a * 2 ^ n + b.
Proof.
  intros Hn Hb. pose proof (Z.add_lor_land (a * 2 ^ n) b) as H.
  rewrite land_low in H by done. lia.
Qed.

Lemma land_255 (a : Z) : Z.land a 255 = a mod 256.
Proof. exact (Z.land_ones a 8 ltac:(lia)). Qed.

Lemma land_63 (a : Z) : Z.land a 63 = a mod 64.
Proof. exact (Z.land_ones a 6 ltac:(lia)). Qed.

Lemma land_31 (a : Z) : Z.land a 31 = a mod 32.
Proof. exact (Z.land_ones a 5 ltac:(lia)). Qed.

Lemma land_15 (a : Z) : Z.land a 15 = a mod 16.
Proof. exact (Z.land_ones a 4 ltac:(lia)). Qed.

Lemma land_7 (a : Z) : Z.land a 7 = a mod 8.
Proof. exact (Z.land_ones a 3 ltac:(lia)). Qed.

Lemma shiftr_6 (a : Z) : Z.shiftr a 6 = a / 64.
Proof. exact (Z.shiftr_div_pow2 a 6 ltac:(lia)). Qed.

Lemma shiftr_12 (a : Z) : Z.shiftr a 12 = a / 4096.
Proof. exact (Z.shiftr_div_pow2 a 12 ltac:(lia)). Qed.

Lemma shiftr_18 (a : Z) : Z.shiftr a 18 = a / 262144.
Proof. exact (Z.shiftr_div_pow2 a 18 ltac:(lia)). Qed.

Lemma shiftl_6 (a : Z) : Z.shiftl a 6 = a * 64.
Proof. exact (Z.shiftl_mul_pow2 a 6 ltac:(lia)). Qed.

Lemma shiftl_12 (a : Z) : Z.shiftl a 12 = a * 4096.
Proof. exact (Z.shiftl_mul_pow2 a 12 ltac:(lia)). Qed.

Lemma shiftl_18 (a : Z) : Z.shiftl a 18 = a * 262144.
Proof. exact (Z.shiftl_mul_pow2 a 18 ltac:(lia)). Qed.

(** [hi | lo] for a prefix [hi] whose low [n] bits are clear. *)
Lemma lor_prefix (k n lo : Z) : 0 ≤ n → 0 ≤ lo < 2 ^ n → Z.lor (k * 2 ^ n) lo = k * 2 ^ n + lo.
Proof. apply lor_add. Qed.

Lemma lor_tx (lo : Z) : 0 ≤ lo < 64 → Z.lor 128 lo = 128 + lo.
Proof. exact (lor_add 2 lo 6 ltac:(lia)). Qed.

Lemma lor_t2 (lo : Z) : 0 ≤ lo < 32 → Z.lor 192 lo = 192 + lo.
Proof. intros H. apply (lor_add 6 lo 5); lia. Qed.

Lemma lor_t3 (lo : Z) : 0 ≤ lo < 16 → Z.lor 224 lo = 224 + lo.
Proof. intros H. apply (lor_add 14 lo 4); lia. Qed.

Lemma lor_t4 (lo : Z) : 0 ≤ lo < 8 → Z.lor 240 lo = 240 + lo.
Proof. intros H. apply (lor_add 30 lo 3); lia. Qed.

(** ** UTF-8: encoding a rune *)

Lemma bytes_cons (x : Z) (l : list Z) : utf8.bytes (x :: l) = String (z2b x) (utf8.bytes l).
Proof. reflexivity. Qed.

Ltac bitarith :=
  unfold utf8.to_byte, utf8.tx, utf8.t2, utf8.t3, utf8.t4, utf8.maskx, utf8.mask2,
    utf8.mask3, utf8.mask4;
  rewrite ?land_255, ?land_63, ?land_31, ?land_15, ?land_7,
    ?shiftr_6, ?shiftr_12, ?shiftr_18, ?shiftl_6, ?shiftl_12, ?shiftl_18.

Lemma EncodeRune_1 (r : Z) : 0 ≤ r ≤ 0x7F → utf8.EncodeRune r = utf8.bytes [r].
Proof.
  intros H. unfold utf8.EncodeRune, utf8.rune1Max.
  rewrite Z.mod_small by lia. destruct (Z.leb_spec r 127); [|lia].
  bitarith. by rewrite Z.mod_small by lia.
Qed.

Lemma EncodeRune_2 (r : Z) :
  0x80 ≤ r ≤ 0x7FF → utf8.EncodeRune r = utf8.bytes [192 + r / 64; 128 + r mod 64].
Proof.
  intros H. unfold utf8.EncodeRune, utf8.rune1Max, utf8.rune2Max.
  rewrite Z.mod_small by lia.
  destruct (Z.leb_spec r 127); [lia|]. destruct (Z.leb_spec r 2047); [|lia].
  bitarith.
  rewrite lor_t2, lor_tx by (Z.div_mod_to_equations; lia).
  do 2 f_equal; [|f_equal]; Z.div_mod_to_equations; lia.
Qed.

Lemma EncodeRune_3 (r : Z) :
  0x800 ≤ r ≤ 0xFFFF → ¬ (0xD800 ≤ r ≤ 0xDFFF) →
  utf8.EncodeRune r =
    utf8.bytes [224 + r / 4096; 128 + (r / 64) mod 64; 128 + r mod 64].
Proof.
  intros H Hs. unfold utf8.EncodeRune, utf8.rune1Max, utf8.rune2Max, utf8.rune3Max,
    utf8.MaxRune, utf8.surrogateMin, utf8.surrogateMax.
  rewrite Z.mod_small by lia.
  destruct (Z.leb_spec r 127); [lia|]. destruct (Z.leb_spec r 2047); [lia|].
  destruct (Z.ltb_spec 1114111 r); [lia|].
  destruct (Z.leb_spec 55296 r), (Z.leb_spec r 57343); try lia; simpl;
    (destruct (Z.leb_spec r 65535); [|lia]);
    unfold utf8.encode3; bitarith;
    rewrite lor_t3, !lor_tx by (Z.div_mod_to_equations; lia);
    (do 2 f_equal; [|f_equal; [|f_equal]]); Z.div_mod_to_equations; lia.
Qed.

Lemma EncodeRune_4 (r : Z) :
  0x10000 ≤ r ≤ 0x10FFFF →
  utf8.EncodeRune r =
    utf8.bytes [240 + r / 262144; 128 + (r / 4096) mod 64; 128 + (r / 64) mod 64;
                128 + r mod 64].
Proof.
  intros H. unfold utf8.EncodeRune, utf8.rune1Max, utf8.rune2Max, utf8.rune3Max,
    utf8.MaxRune, utf8.surrogateMin, utf8.surrogateMax.
  rewrite Z.mod_small by lia.
  destruct (Z.leb_spec r 127); [lia|]. destruct (Z.leb_spec r 2047); [lia|].
  destruct (Z.ltb_spec 1114111 r); [lia|].
  destruct (Z.leb_spec 55296 r), (Z.leb_spec r 57343); try lia; simpl;
    (destruct (Z.leb_spec r 65535); [lia|]);
    bitarith;
    rewrite lor_t4, !lor_tx by (Z.div_mod_to_equations; lia);
    (do 2 f_equal; [|f_equal; [|f_equal; [|f_equal]]]); Z.div_mod_to_equations; lia.
Qed.

Lemma EncodeRune_error (r : Z) :
  0x10FFFF < r mod 2 ^ 32 ∨ 0xD800 ≤ r mod 2 ^ 32 ≤ 0xDFFF →
  utf8.EncodeRune r = utf8.bytes [0xEF; 0xBF; 0xBD].
Proof.
  intros H. unfold utf8.EncodeRune, utf8.rune1Max, utf8.rune2Max, utf8.rune3Max,
    utf8.MaxRune, utf8.surrogateMin, utf8.surrogateMax.
  set (i := r mod 2 ^ 32) in *.
  destruct (Z.leb_spec i 127); [lia|]. destruct (Z.leb_spec i 2047); [lia|].
  destruct (Z.ltb_spec 1114111 i); [done|].
  destruct (Z.leb_spec 55296 i), (Z.leb_spec i 57343); try lia. done.
Qed.

(** ** UTF-8: decoding a rune *)

Lemma lor_64 (a b : Z) : 0 ≤ b < 64 → Z.lor (a * 64) b = a * 64 + b.
Proof. exact (lor_add a b 6 ltac:(lia)). Qed.

Lemma lor_4096 (a b : Z) : 0 ≤ b < 4096 → Z.lor (a * 4096) b = a * 4096 + b.
Proof. exact (lor_add a b 12 ltac:(lia)). Qed.

Lemma lor_262144 (a b : Z) : 0 ≤ b < 262144 → Z.lor (a * 262144) b = a * 262144 + b.
Proof. exact (lor_add a b 18 ltac:(lia)). Qed.

Ltac split_tests :=
  repeat match goal with
  | H : _ && _ = true |- _ => apply andb_true_iff in H as [? ?]
  | H : _ || _ = true |- _ => apply orb_true_iff in H as [?|?]
  | H : (_ <=? _) = true |- _ => apply Z.leb_le in H
  | H : (_ <? _) = true |- _ => apply Z.ltb_lt in H
  | H : (_ =? _) = true |- _ => apply Z.eqb_eq in H
  end.

(** Decide the test at the head of the goal. *)
Ltac head_if :=
  lazymatch goal with
  | |- (if (?a <? ?b) || (?c <? ?d) then _ else _) = _ =>
    destruct (Z.ltb_spec a b); [try lia|]; destruct (Z.ltb_spec c d); [try lia|];
    change (false || false) with false; cbv iota
  | |- (if ?a <? ?b then _ else _) = _ => destruct (Z.ltb_spec a b); [try lia | try lia]
  | |- (if ?a <=? ?b then _ else _) = _ => destruct (Z.leb_spec a b); [try lia | try lia]
  | |- (if ?a =? ?b then _ else _) = _ => destruct (Z.eqb_spec a b); [try lia | try lia]
  end.

Lemma first_class (p0 : Z) :
  utf8.first p0 =
    if p0 <? 0x80 then utf8.as_
    else if p0 <? 0xC2 then utf8.xx
    else if p0 <? 0xE0 then utf8.s1
    else if p0 =? 0xE0 then utf8.s2
    else if p0 <? 0xED then utf8.s3
    else if p0 =? 0xED then utf8.s4
    else if p0 <? 0xF0 then utf8.s3
    else if p0 =? 0xF0 then utf8.s5
    else if p0 <? 0xF4 then utf8.s6
    else if p0 =? 0xF4 then utf8.s7
    else utf8.xx.
Proof. reflexivity. Qed.

Lemma first_s1 (p0 : Z) : 0xC2 ≤ p0 ≤ 0xDF → utf8.first p0 = utf8.s1.
Proof. intros H. rewrite first_class. repeat head_if; try done. Qed.

Lemma first_s2 : utf8.first 0xE0 = utf8.s2.
Proof. reflexivity. Qed.

Lemma first_s3 (p0 : Z) : 0xE1 ≤ p0 ≤ 0xEC ∨ 0xEE ≤ p0 ≤ 0xEF → utf8.first p0 = utf8.s3.
Proof. intros H. rewrite first_class. repeat head_if; try done. Qed.

Lemma first_s4 : utf8.first 0xED = utf8.s4.
Proof. reflexivity. Qed.

Lemma first_s5 : utf8.first 0xF0 = utf8.s5.
Proof. reflexivity. Qed.

Lemma first_s6 (p0 : Z) : 0xF1 ≤ p0 ≤ 0xF3 → utf8.first p0 = utf8.s6.
Proof. intros H. rewrite first_class. repeat head_if; try done. Qed.

Lemma first_s7 : utf8.first 0xF4 = utf8.s7.
Proof. reflexivity. Qed.

Lemma DecodeRune_1 (c : ascii) (s : string) :
  b2z c < 0x80 → utf8.DecodeRune (String c s) = (b2z c, 1%nat).
Proof.
  intros H. unfold utf8.DecodeRune.
  change (utf8.at_ (String c s) 0) with (b2z c).
  cbv zeta. cbn [String.length Nat.ltb Nat.leb].
  rewrite first_class. destruct (Z.ltb_spec (b2z c) 128); [done | lia].
Qed.

Lemma DecodeRune_multi (p : string) (x : Z) :
  utf8.first (utf8.at_ p 0) = x → (utf8.as_ <=? x) = false → (1 ≤ String.length p)%nat →
  utf8.DecodeRune p =
    decodeMulti x (String.length p) (utf8.at_ p 0) (utf8.at_ p 1) (utf8.at_ p 2) (utf8.at_ p 3).
Proof.
  intros Hx Hm Hn. unfold utf8.DecodeRune. rewrite Hx, Hm.
  destruct (Nat.ltb_spec (String.length p) 1); [lia|]. reflexivity.
Qed.

Lemma DecodeRune_2 (c0 c1 : ascii) (s : string) :
  utf8.seq2 (b2z c0) (b2z c1) = true →
  utf8.DecodeRune (String c0 (String c1 s)) =
    ((b2z c0 - 192) * 64 + (b2z c1 - 128), 2%nat).
Proof.
  unfold utf8.seq2, utf8.cont. intros H. split_tests.
  rewrite (DecodeRune_multi _ utf8.s1); [|by apply first_s1|done|simpl; lia].
  change (utf8.at_ (String c0 (String c1 s)) 0) with (b2z c0).
  change (utf8.at_ (String c0 (String c1 s)) 1) with (b2z c1).
  generalize (utf8.at_ (String c0 (String c1 s)) 2) (utf8.at_ (String c0 (String c1 s)) 3).
  intros b2 b3. unfold decodeMulti.
  change (Z.to_nat (Z.land utf8.s1 7)) with 2%nat.
  change (utf8.acceptRanges (Z.shiftr utf8.s1 4)) with (128, 191).
  cbv zeta. cbn [fst snd String.length Nat.ltb Nat.leb].
  head_if. bitarith. f_equal. rewrite lor_64 by (Z.div_mod_to_equations; lia).
  Z.div_mod_to_equations; lia.
Qed.

Lemma decodeMulti_3 (x lo hi : Z) (n : nat) (p0 b1 b2 b3 : Z) :
  Z.to_nat (Z.land x 7) = 3%nat → utf8.acceptRanges (Z.shiftr x 4) = (lo, hi) →
  (3 ≤ n)%nat → 128 ≤ lo → hi ≤ 191 → lo ≤ b1 ≤ hi → 128 ≤ b2 ≤ 191 → 224 ≤ p0 ≤ 239 →
  decodeMulti x n p0 b1 b2 b3 =
    ((p0 - 224) * 4096 + (b1 - 128) * 64 + (b2 - 128), 3%nat).
Proof.
  intros Hsz Hacc Hn Hlo Hhi H1 H2 H0. unfold decodeMulti. rewrite Hsz, Hacc.
  cbv zeta. cbn [fst snd Nat.leb]. unfold utf8.locb, utf8.hicb.
  destruct (Nat.ltb_spec n 3); [lia|].
  do 2 head_if. bitarith. f_equal.
  rewrite (lor_4096 _ (b1 mod 64 * 64)) by (Z.div_mod_to_equations; lia).
  replace (p0 mod 16 * 4096 + b1 mod 64 * 64) with ((p0 mod 16 * 64 + b1 mod 64) * 64) by lia.
  rewrite lor_64 by (Z.div_mod_to_equations; lia).
  Z.div_mod_to_equations; lia.
Qed.

Lemma decodeMulti_4 (x lo hi : Z) (n : nat) (p0 b1 b2 b3 : Z) :
  Z.to_nat (Z.land x 7) = 4%nat → utf8.acceptRanges (Z.shiftr x 4) = (lo, hi) →
  (4 ≤ n)%nat → 128 ≤ lo → hi ≤ 191 → lo ≤ b1 ≤ hi → 128 ≤ b2 ≤ 191 → 128 ≤ b3 ≤ 191 →
  240 ≤ p0 ≤ 247 →
  decodeMulti x n p0 b1 b2 b3 =
    ((p0 - 240) * 262144 + (b1 - 128) * 4096 + (b2 - 128) * 64 + (b3 - 128), 4%nat).
Proof.
  intros Hsz Hacc Hn Hlo Hhi H1 H2 H3 H0. unfold decodeMulti. rewrite Hsz, Hacc.
  cbv zeta. cbn [fst snd Nat.leb]. unfold utf8.locb, utf8.hicb.
  destruct (Nat.ltb_spec n 4); [lia|].
  do 3 head_if. bitarith. f_equal.
  rewrite (lor_262144 _ (b1 mod 64 * 4096)) by (Z.div_mod_to_equations; lia).
  replace (p0 mod 8 * 262144 + b1 mod 64 * 4096)
    with ((p0 mod 8 * 64 + b1 mod 64) * 4096) by lia.
  rewrite (lor_4096 _ (b2 mod 64 * 64)) by (Z.div_mod_to_equations; lia).
  replace ((p0 mod 8 * 64 + b1 mod 64) * 4096 + b2 mod 64 * 64)
    with (((p0 mod 8 * 64 + b1 mod 64) * 64 + b2 mod 64) * 64) by lia.
  rewrite lor_64 by (Z.div_mod_to_equations; lia).
  Z.div_mod_to_equations; lia.
Qed.

Lemma DecodeRune_3 (c0 c1 c2 : ascii) (s : string) :
  utf8.seq3 (b2z c0) (b2z c1) (b2z c2) = true →
  utf8.DecodeRune (String c0 (String c1 (String c2 s))) =
    ((b2z c0 - 224) * 4096 + (b2z c1 - 128) * 64 + (b2z c2 - 128), 3%nat).
Proof.
  unfold utf8.seq3, utf8.cont. intros H. split_tests.
  all: set (p := String c0 (String c1 (String c2 s))).
  all: change (b2z c0) with (utf8.at_ p 0) in *; change (b2z c1) with (utf8.at_ p 1) in *;
    change (b2z c2) with (utf8.at_ p 2) in *.
  - rewrite (DecodeRune_multi p utf8.s2); [|by rewrite H|done|simpl; lia].
    apply (decodeMulti_3 _ 160 191); simpl; try done; lia.
  - rewrite (DecodeRune_multi p utf8.s3); [|apply first_s3; lia|done|simpl; lia].
    apply (decodeMulti_3 _ 128 191); simpl; try done; lia.
  - rewrite (DecodeRune_multi p utf8.s4); [|by rewrite H|done|simpl; lia].
    apply (decodeMulti_3 _ 128 159); simpl; try done; lia.
  - rewrite (DecodeRune_multi p utf8.s3); [|apply first_s3; lia|done|simpl; lia].
    apply (decodeMulti_3 _ 128 191); simpl; try done; lia.
Qed.

Lemma DecodeRune_4 (c0 c1 c2 c3 : ascii) (s : string) :
  utf8.seq4 (b2z c0) (b2z c1) (b2z c2) (b2z c3) = true →
  utf8.DecodeRune (String c0 (String c1 (String c2 (String c3 s)))) =
    ((b2z c0 - 240) * 262144 + (b2z c1 - 128) * 4096 + (b2z c2 - 128) * 64
       + (b2z c3 - 128), 4%nat).
Proof.
  unfold utf8.seq4, utf8.cont. intros H. split_tests.
  all: set (p := String c0 (String c1 (String c2 (String c3 s)))).
  all: change (b2z c0) with (utf8.at_ p 0) in *; change (b2z c1) with (utf8.at_ p 1) in *;
    change (b2z c2) with (utf8.at_ p 2) in *; change (b2z c3) with (utf8.at_ p 3) in *.
  - rewrite (DecodeRune_multi p utf8.s5); [|by rewrite H|done|simpl; lia].
    apply (decodeMulti_4 _ 144 191); simpl; try done; lia.
  - rewrite (DecodeRune_multi p utf8.s6); [|apply first_s6; lia|done|simpl; lia].
    apply (decodeMulti_4 _ 128 191); simpl; try done; lia.
  - rewrite (DecodeRune_multi p utf8.s7); [|by rewrite H|done|simpl; lia].
    apply (decodeMulti_4 _ 128 143); simpl; try done; lia.
Qed.

(** ** UTF-8: well-formed strings *)

Lemma ValidString_cons (c0 : ascii) (s1 : string) :
  utf8.ValidString (String c0 s1) =
    if b2z c0 <? 128 then utf8.ValidString s1 else
    match s1 with
    | String c1 s2 =>
      if utf8.seq2 (b2z c0) (b2z c1) then utf8.ValidString s2 else
      match s2 with
      | String c2 s3 =>
        if utf8.seq3 (b2z c0) (b2z c1) (b2z c2) then utf8.ValidString s3 else
        match s3 with
        | String c3 s4 =>
          if utf8.seq4 (b2z c0) (b2z c1) (b2z c2) (b2z c3) then utf8.ValidString s4
          else false
        | EmptyString => false
        end
      | EmptyString => false
      end
    | EmptyString => false
    end.
Proof. reflexivity. Qed.

Lemma ValidString_1 (c : ascii) (s : string) :
  b2z c < 0x80 → utf8.ValidString (String c s) = utf8.ValidString s.
Proof.
  intros H. rewrite ValidString_cons.
  destruct (Z.ltb_spec (b2z c) 128); [done | lia].
Qed.

Lemma ValidString_2 (c0 c1 : ascii) (s : string) :
  utf8.seq2 (b2z c0) (b2z c1) = true →
  utf8.ValidString (String c0 (String c1 s)) = utf8.ValidString s.
Proof.
  intros H. rewrite ValidString_cons, H. unfold utf8.seq2 in H. split_tests.
  destruct (Z.ltb_spec (b2z c0) 128); [lia | done].
Qed.

Lemma seq3_lead (p0 b1 b2 : Z) : utf8.seq3 p0 b1 b2 = true → 0xE0 ≤ p0 ≤ 0xEF.
Proof. unfold utf8.seq3. intros H. split_tests; lia. Qed.

Lemma seq4_lead (p0 b1 b2 b3 : Z) : utf8.seq4 p0 b1 b2 b3 = true → 0xF0 ≤ p0 ≤ 0xF4.
Proof. unfold utf8.seq4. intros H. split_tests; lia. Qed.

Lemma seq2_false (p0 b1 : Z) : 0xE0 ≤ p0 → utf8.seq2 p0 b1 = false.
Proof.
  intros H. unfold utf8.seq2.
  destruct (Z.leb_spec p0 223); [lia|]. by rewrite andb_false_r.
Qed.

Lemma seq3_false (p0 b1 b2 : Z) : 0xF0 ≤ p0 → utf8.seq3 p0 b1 b2 = false.
Proof.
  intros H. destruct (utf8.seq3 p0 b1 b2) eqn:E; [|done].
  apply seq3_lead in E. lia.
Qed.

Lemma ValidString_3 (c0 c1 c2 : ascii) (s : string) :
  utf8.seq3 (b2z c0) (b2z c1) (b2z c2) = true →
  utf8.ValidString (String c0 (String c1 (String c2 s))) = utf8.ValidString s.
Proof.
  intros H. pose proof (seq3_lead _ _ _ H). rewrite ValidString_cons.
  rewrite H, seq2_false by lia.
  destruct (Z.ltb_spec (b2z c0) 128); [lia | done].
Qed.

Lemma ValidString_4 (c0 c1 c2 c3 : ascii) (s : string) :
  utf8.seq4 (b2z c0) (b2z c1) (b2z c2) (b2z c3) = true →
  utf8.ValidString (String c0 (String c1 (String c2 (String c3 s)))) = utf8.ValidString s.
Proof.
  intros H. pose proof (seq4_lead _ _ _ _ H). rewrite ValidString_cons.
  rewrite H, seq2_false, seq3_false by lia.
  destruct (Z.ltb_spec (b2z c0) 128); [lia | done].
Qed.

(** Induction over the runes of a well-formed string. *)
Lemma ValidString_induction (P : string → Prop) :
  P "" →
  (∀ c s, b2z c < 0x80 → utf8.ValidString s = true → P s → P (String c s)) →
  (∀ c0 c1 s, utf8.seq2 (b2z c0) (b2z c1) = true → utf8.ValidString s = true →
     P s → P (String c0 (String c1 s))) →
  (∀ c0 c1 c2 s, utf8.seq3 (b2z c0) (b2z c1) (b2z c2) = true →
     utf8.ValidString s = true → P s → P (String c0 (String c1 (String c2 s)))) →
  (∀ c0 c1 c2 c3 s, utf8.seq4 (b2z c0) (b2z c1) (b2z c2) (b2z c3) = true →
     utf8.ValidString s = true → P s →
     P (String c0 (String c1 (String c2 (String c3 s))))) →
  ∀ s, utf8.ValidString s = true → P s.
Proof.
  intros H0 H1 H2 H3 H4 s.
  remember (String.length s) as n eqn:Hn. revert s Hn.
  induction (lt_wf n) as [n _ IH]. intros s -> Hv.
  destruct s as [|c0 s1]; [done|]. rewrite ValidString_cons in Hv.
  destruct (Z.ltb_spec (b2z c0) 128).
  { apply H1; [done..|]. eapply IH; [|done..]. simpl. lia. }
  destruct s1 as [|c1 s2]; [done|].
  destruct (utf8.seq2 (b2z c0) (b2z c1)) eqn:E2.
  { apply H2; [done..|]. eapply IH; [|done..]. simpl. lia. }
  destruct s2 as [|c2 s3]; [done|].
  destruct (utf8.seq3 (b2z c0) (b2z c1) (b2z c2)) eqn:E3.
  { apply H3; [done..|]. eapply IH; [|done..]. simpl. lia. }
  destruct s3 as [|c3 s4]; [done|].
  destruct (utf8.seq4 (b2z c0) (b2z c1) (b2z c2) (b2z c3)) eqn:E4; [|done].
  apply H4; [done..|]. eapply IH; [|done..]. simpl. lia.
Qed.

(** Encoding the rune of a well-formed sequence gives the sequence back. *)
Lemma EncodeRune_seq2 (c0 c1 : ascii) :
  utf8.seq2 (b2z c0) (b2z c1) = true →
  utf8.EncodeRune ((b2z c0 - 192) * 64 + (b2z c1 - 128)) = String c0 (String c1 "").
Proof.
  unfold utf8.seq2, utf8.cont. intros H. split_tests.
  set (r := (b2z c0 - 192) * 64 + (b2z c1 - 128)).
  rewrite EncodeRune_2 by lia.
  replace (192 + r / 64) with (b2z c0) by (Z.div_mod_to_equations; lia).
  replace (128 + r mod 64) with (b2z c1) by (Z.div_mod_to_equations; lia).
  by rewrite !bytes_cons, !z2b_b2z.
Qed.

Lemma EncodeRune_seq3 (c0 c1 c2 : ascii) :
  utf8.seq3 (b2z c0) (b2z c1) (b2z c2) = true →
  utf8.EncodeRune ((b2z c0 - 224) * 4096 + (b2z c1 - 128) * 64 + (b2z c2 - 128))
    = String c0 (String c1 (String c2 "")).
Proof.
  unfold utf8.seq3, utf8.cont. intros H. split_tests.
  all: set (r := (b2z c0 - 224) * 4096 + (b2z c1 - 128) * 64 + (b2z c2 - 128));
    rewrite EncodeRune_3 by lia;
    replace (224 + r / 4096) with (b2z c0) by (Z.div_mod_to_equations; lia);
    replace (128 + (r / 64) mod 64) with (b2z c1) by (Z.div_mod_to_equations; lia);
    replace (128 + r mod 64) with (b2z c2) by (Z.div_mod_to_equations; lia);
    by rewrite !bytes_cons, !z2b_b2z.
Qed.

Lemma EncodeRune_seq4 (c0 c1 c2 c3 : ascii) :
  utf8.seq4 (b2z c0) (b2z c1) (b2z c2) (b2z c3) = true →
  utf8.EncodeRune ((b2z c0 - 240) * 262144 + (b2z c1 - 128) * 4096
                   + (b2z c2 - 128) * 64 + (b2z c3 - 128))
    = String c0 (String c1 (String c2 (String c3 ""))).
Proof.
  unfold utf8.seq4, utf8.cont. intros H. split_tests.
  all: set (r := (b2z c0 - 240) * 262144 + (b2z c1 - 128) * 4096
                 + (b2z c2 - 128) * 64 + (b2z c3 - 128));
    rewrite EncodeRune_4 by lia;
    replace (240 + r / 262144) with (b2z c0) by (Z.div_mod_to_equations; lia);
    replace (128 + (r / 4096) mod 64) with (b2z c1) by (Z.div_mod_to_equations; lia);
    replace (128 + (r / 64) mod 64) with (b2z c2) by (Z.div_mod_to_equations; lia);
    replace (128 + r mod 64) with (b2z c3) by (Z.div_mod_to_equations; lia);
    by rewrite !bytes_cons, !z2b_b2z.
Qed.

Lemma EncodeRune_mod (x : Z) : utf8.EncodeRune x = utf8.EncodeRune (x mod 2 ^ 32).
Proof.
  unfold utf8.EncodeRune, utf8.encode3. rewrite Z.mod_mod by lia.
  change (2 ^ 32) with 4294967296. bitarith.
  assert (x mod 256 = (x mod 4294967296) mod 256) as Ha
    by (Z.div_mod_to_equations; lia).
  assert ((x / 64) mod 256 = (x mod 4294967296 / 64) mod 256) as Hb
    by (Z.div_mod_to_equations; lia).
  assert ((x / 4096) mod 256 = (x mod 4294967296 / 4096) mod 256) as Hc
    by (Z.div_mod_to_equations; lia).
  assert ((x / 262144) mod 256 = (x mod 4294967296 / 262144) mod 256) as Hd
    by (Z.div_mod_to_equations; lia).
  by rewrite Ha, Hb, Hc, Hd.
Qed.

Lemma seq2_intro (p0 b1 : Z) :
  194 ≤ p0 ≤ 223 → 128 ≤ b1 ≤ 191 → utf8.seq2 p0 b1 = true.
Proof.
  intros H0 H1. unfold utf8.seq2, utf8.cont.
  repeat match goal with
  | |- context [?a <=? ?b] => destruct (Z.leb_spec a b); try lia
  end; try done.
Qed.

Lemma seq3_intro (p0 b1 b2 : Z) :
  224 ≤ p0 ≤ 239 → 128 ≤ b1 ≤ 191 → 128 ≤ b2 ≤ 191 →
  (p0 = 224 → 160 ≤ b1) → (p0 = 237 → b1 ≤ 159) →
  utf8.seq3 p0 b1 b2 = true.
Proof.
  intros H0 H1 H2 Ha Hb. unfold utf8.seq3, utf8.cont.
  repeat match goal with
  | |- context [?a <=? ?b] => destruct (Z.leb_spec a b); try lia
  | |- context [?a =? ?b] => destruct (Z.eqb_spec a b); try lia
  end; done.
Qed.

Lemma seq4_intro (p0 b1 b2 b3 : Z) :
  240 ≤ p0 ≤ 244 → 128 ≤ b1 ≤ 191 → 128 ≤ b2 ≤ 191 → 128 ≤ b3 ≤ 191 →
  (p0 = 240 → 144 ≤ b1) → (p0 = 244 → b1 ≤ 143) →
  utf8.seq4 p0 b1 b2 b3 = true.
Proof.
  intros H0 H1 H2 H3 Ha Hb. unfold utf8.seq4, utf8.cont.
  repeat match goal with
  | |- context [?a <=? ?b] => destruct (Z.leb_spec a b); try lia
  | |- context [?a =? ?b] => destruct (Z.eqb_spec a b); try lia
  end; done.
Qed.

(** Whatever the rune, [EncodeRune] writes well-formed UTF-8. *)
Lemma ValidString_EncodeRune (x : Z) (t : string) :
  utf8.ValidString (utf8.EncodeRune x +:+ t) = utf8.ValidString t.
Proof.
  rewrite EncodeRune_mod. pose proof (Z.mod_pos_bound x (2 ^ 32) ltac:(lia)) as Hi.
  set (i := x mod 2 ^ 32) in *. change (2 ^ 32) with 4294967296 in Hi.
  destruct (Z.le_gt_cases i 127).
  { rewrite EncodeRune_1 by lia. apply ValidString_1. rewrite b2z_z2b; lia. }
  destruct (Z.le_gt_cases i 2047).
  { rewrite EncodeRune_2 by lia. apply ValidString_2.
    rewrite !b2z_z2b by (Z.div_mod_to_equations; lia).
    apply seq2_intro; Z.div_mod_to_equations; lia. }
  destruct (Z.le_gt_cases 1114112 i).
  { rewrite EncodeRune_error by (rewrite Z.mod_small; lia). by apply ValidString_3. }
  destruct (Z.le_gt_cases 55296 i), (Z.le_gt_cases i 57343).
  { rewrite EncodeRune_error by (rewrite Z.mod_small; lia). by apply ValidString_3. }
  all: destruct (Z.le_gt_cases i 65535).
  all: try lia.
  all: try (rewrite EncodeRune_3 by lia; apply ValidString_3;
            rewrite !b2z_z2b by (Z.div_mod_to_equations; lia);
            apply seq3_intro; Z.div_mod_to_equations; lia).
  all: rewrite EncodeRune_4 by lia; apply ValidString_4;
    rewrite !b2z_z2b by (Z.div_mod_to_equations; lia);
    apply seq4_intro; Z.div_mod_to_equations; lia.
Qed.

(** ** JSON strings: what the decoder returns is well-formed UTF-8 *)

Lemma eqc_eq (c d : ascii) : json.eqc c d = true → c = d.
Proof. apply Ascii.eqb_eq. Qed.

Lemma unquoteLoop_valid (fuel : nat) (s t : string) :
  json.unquoteLoop fuel s = Some t → utf8.ValidString t = true.
Proof.
  revert s t. induction fuel as [|fuel IH]; intros s t H.
  { destruct s; [|done]. by injection H as <-. }
  destruct s as [|c s']; [by injection H as <-|].
  cbn [json.unquoteLoop] in H.
  assert (∀ out n,
    match json.unquoteLoop fuel (drop_bytes n (String c s')) with
    | Some t0 => Some (out +:+ t0)
    | None => None
    end = Some t →
    (∀ u, utf8.ValidString (out +:+ u) = utf8.ValidString u) →
    utf8.ValidString t = true) as Hemit.
  { intros out n Hm Hout. revert Hm.
    destruct (json.unquoteLoop fuel (drop_bytes n (String c s'))) as [t0|] eqn:E; [|done].
    intros [= <-]. rewrite Hout. by eapply IH. }
  assert (∀ e u, b2z e < 128 → utf8.ValidString (String e "" +:+ u) = utf8.ValidString u)
    as Hascii by (intros; rewrite append_cons, append_nil_l; by apply ValidString_1).
  destruct (json.eqc c "\") eqn:Ec.
  - destruct s' as [|e s'']; [done|].
    destruct (json.eqc e "034" || json.eqc e "\" || json.eqc e "/" || json.eqc e "'") eqn:E1.
    { eapply Hemit; [exact H|]. intros u. apply Hascii.
      repeat (apply orb_true_iff in E1 as [E1|E1]); apply eqc_eq in E1; by subst e. }
    repeat match type of H with
    | (if json.eqc e ?x then _ else _) = _ =>
      destruct (json.eqc e x) eqn:?;
      [try (eapply Hemit; [exact H|]; intros u; by apply Hascii)|]
    end; [|done].
    destruct (json.getu4 _ <? 0); [done|].
    destruct (utf16.IsSurrogate _).
    + destruct (negb _); (eapply Hemit; [exact H|]); apply ValidString_EncodeRune.
    + eapply Hemit; [exact H|]. apply ValidString_EncodeRune.
  - destruct (json.eqc c "034" || (b2z c <? 32)); [done|].
    destruct (Z.ltb_spec (b2z c) utf8.RuneSelf).
    + eapply Hemit; [exact H|]. intros u. by apply Hascii.
    + destruct (utf8.DecodeRune _) as [rr size].
      eapply Hemit; [exact H|]. apply ValidString_EncodeRune.
Qed.

Lemma unquoteBytes_valid (s t : string) :
  json.unquoteBytes s = Some t → utf8.ValidString t = true.
Proof. apply unquoteLoop_valid. Qed.

(** ** The scanner returns values whose strings are well-formed *)

Lemma forallb_rev {A} (f : A → bool) (l : list A) : forallb f (rev l) = forallb f l.
Proof.
  induction l as [|x l IH]; [done|]. simpl.
  rewrite forallb_app, IH. simpl. rewrite andb_true_r. apply andb_comm.
Qed.

Section scanner_valid.
Variable value : string → option (json.Value * string).
Hypothesis value_valid : ∀ s v rest, value s = Some (v, rest) → json.validStrings v = true.

Lemma elements_valid (fuel : nat) (s : string) (acc : list json.Value)
    (v : json.Value) (rest : string) :
  forallb json.validStrings acc = true →
  json.elements value fuel s acc = Some (v, rest) → json.validStrings v = true.
Proof.
  revert s acc. induction fuel as [|fuel IH]; intros s acc Hacc H; [done|].
  cbn [json.elements] in H.
  destruct (value (json.skipSpace s)) as [[x s1]|] eqn:Ev; [|done].
  apply value_valid in Ev.
  destruct (json.skipSpace s1) as [|c s2]; [done|].
  destruct (json.eqc c ",").
  { apply (IH s2 (x :: acc)); [|done]. simpl. by rewrite Ev, Hacc. }
  destruct (json.eqc c "]"); [|done].
  injection H as <- <-. cbn [json.validStrings].
  rewrite forallb_app, forallb_rev. simpl. by rewrite Ev, Hacc.
Qed.

Lemma members_valid (fuel : nat) (s : string) (acc : list (string * json.Value))
    (v : json.Value) (rest : string) :
  forallb (λ kv, json.validStrings kv.2) acc = true →
  json.members value fuel s acc = Some (v, rest) → json.validStrings v = true.
Proof.
  revert s acc. induction fuel as [|fuel IH]; intros s acc Hacc H; [done|].
  cbn [json.members] in H.
  destruct (json.skipSpace s) as [|q s0]; [done|].
  destruct (negb (json.eqc q "034")); [done|].
  destruct (json.scanString json.InString s0) as [[lit s1]|]; [|done].
  destruct (json.unquoteBytes lit) as [key|]; [|done].
  destruct (json.skipSpace s1) as [|colon s2]; [done|].
  destruct (negb (json.eqc colon ":")); [done|].
  destruct (value (json.skipSpace s2)) as [[x s3]|] eqn:Ev; [|done].
  apply value_valid in Ev.
  destruct (json.skipSpace s3) as [|c s4]; [done|].
  destruct (json.eqc c ",").
  { apply (IH s4 ((key, x) :: acc)); [|done]. simpl. by rewrite Ev, Hacc. }
  destruct (json.eqc c "}"); [|done].
  injection H as <- <-. cbn [json.validStrings].
  rewrite forallb_app, forallb_rev. simpl. by rewrite Ev, Hacc.
Qed.
End scanner_valid.

Lemma scanWord_valid (w : string) (x v : json.Value) (s rest : string) :
  json.validStrings x = true →
  json.scanWord w x s = Some (v, rest) → json.validStrings v = true.
Proof.
  intros Hx. unfold json.scanWord. destruct (String.prefix w s); [|done].
  by intros [= <- _].
Qed.

Lemma scanValue_valid (fuel : nat) (depth : Z) (s : string) (v : json.Value) (rest : string) :
  json.scanValue fuel depth s = Some (v, rest) → json.validStrings v = true.
Proof.
  revert depth s v rest. induction fuel as [|fuel IH]; intros depth s v rest H; [done|].
  destruct s as [|c s']; [done|]. cbn [json.scanValue] in H.
  destruct (json.eqc c "{").
  { destruct (json.maxNestingDepth <? depth + 1); [done|].
    destruct (json.skipSpace s') as [|c1 r1]; [done|].
    destruct (json.eqc c1 "}"); [by injection H as <- _|].
    exact (members_valid _ (IH (depth + 1)) _ _ [] _ _ eq_refl H). }
  destruct (json.eqc c "[").
  { destruct (json.maxNestingDepth <? depth + 1); [done|].
    destruct (json.skipSpace s') as [|c1 r1]; [done|].
    destruct (json.eqc c1 "]"); [by injection H as <- _|].
    exact (elements_valid _ (IH (depth + 1)) _ _ [] _ _ eq_refl H). }
  destruct (json.eqc c "034").
  { destruct (json.scanString json.InString s') as [[lit r]|]; [|done].
    destruct (json.unquoteBytes lit) as [t|] eqn:Eu; [|done].
    injection H as <- _. by apply unquoteBytes_valid in Eu. }
  destruct (json.eqc c "-" || json.isDigit c).
  { destruct (json.scanNumber _) as [[lit r]|]; [|done]. by injection H as <- _. }
  destruct (json.eqc c "t"); [by eapply scanWord_valid; [|exact H]|].
  destruct (json.eqc c "f"); [by eapply scanWord_valid; [|exact H]|].
  destruct (json.eqc c "n"); [by eapply scanWord_valid; [|exact H]|].
  done.
Qed.

Lemma readValue_valid (r : io.Reader) (v : json.Value) :
  json.readValue r = Some v → json.validStrings v = true.
Proof.
  unfold json.readValue, json.scan.
  destruct (json.scanValue _ _ _) as [[x rest]|] eqn:E; [|done].
  apply scanValue_valid in E. intros H.
  assert (x = v) as <-; [|done].
  destruct x; try (by injection H).
  all: destruct rest, (io.failure r); first [done | by injection H].
Qed.

(** ** Decoding keeps strings well-formed *)

Lemma storeString_valid (v : json.Value) (cur : string) :
  json.validStrings v = true → utf8.ValidString cur = true →
  utf8.ValidString (json.storeString v cur).1 = true.
Proof. by destruct v. Qed.

Lemma object_invariant {T} (fields : list (json.Field T)) (I : T → Prop) :
  (∀ f, In f fields → ∀ v cur, json.validStrings v = true → I cur →
        I (json.set f v cur).1) →
  ∀ m cur saved, forallb (λ kv, json.validStrings kv.2) m = true → I cur →
    I (json.object fields m cur saved).1.
Proof.
  intros Hset. induction m as [|[key v] m IH]; intros cur saved Hm Hc; [done|].
  simpl in Hm. apply andb_true_iff in Hm as [Hv Hm]. simpl.
  destruct (json.findField fields key) as [f|] eqn:E; [|by apply IH].
  pose proof (Hset f (findField_In _ _ _ E) v cur Hv Hc) as Hs.
  destruct (json.set f v cur) as [cur' e]. by apply IH.
Qed.

Lemma storeStruct_invariant {T} (fields : list (json.Field T)) (I : T → Prop) :
  (∀ f, In f fields → ∀ v cur, json.validStrings v = true → I cur →
        I (json.set f v cur).1) →
  ∀ v cur, json.validStrings v = true → I cur → I (json.storeStruct fields v cur).1.
Proof.
  intros Hset v cur Hv Hc. destruct v; try done.
  simpl. by apply object_invariant.
Qed.

Lemma ResponseData_set_valid (v : json.Value) (d : api.ResponseData_t) :
  json.validStrings v = true → utf8.ValidString (api.TranslatedText d) = true →
  utf8.ValidString
    (api.TranslatedText (json.storeStruct api.ResponseData_fields v d).1) = true.
Proof.
  apply (storeStruct_invariant api.ResponseData_fields
           (λ d, utf8.ValidString (api.TranslatedText d) = true)).
  intros g [<-|[]] v' d' Hv' Hd'. simpl.
  pose proof (storeString_valid v' (api.TranslatedText d') Hv' Hd').
  by destruct (json.storeString v' (api.TranslatedText d')).
Qed.

Lemma decodeApiResponse_valid (resp : http.Response) (t : string) :
  decodeApiResponse resp = (api.mkApiResponse (api.mkResponseData t), None) →
  utf8.ValidString t = true.
Proof.
  unfold decodeApiResponse, json.Decode.
  destruct (json.readValue _) as [j|] eqn:Er; [|done].
  apply readValue_valid in Er. intros H.
  assert (utf8.ValidString (api.TranslatedText (api.ResponseData
            (json.storeStruct api.apiResponse_fields j api.zero).1)) = true) as Hi.
  { apply (storeStruct_invariant api.apiResponse_fields
             (λ a, utf8.ValidString (api.TranslatedText (api.ResponseData a)) = true));
      [|done..].
    intros f [<-|[]] v cur Hv Hc. simpl.
    pose proof (ResponseData_set_valid v (api.ResponseData cur) Hv Hc).
    by destruct (json.storeStruct api.ResponseData_fields v (api.ResponseData cur)). }
  by rewrite H in Hi.
Qed.

(** ** JSON strings: the decoder reads back what the encoder wrote *)

Lemma eqc_false (c d : ascii) : b2z c ≠ b2z d → json.eqc c d = false.
Proof. intros H. apply Ascii.eqb_neq. by intros ->. Qed.

Lemma appendStringLoop_nil (n : nat) : json.appendStringLoop n "" = "".
Proof. by destruct n. Qed.

Lemma appendStringLoop_1 (n : nat) (c : ascii) (s : string) :
  b2z c < 128 →
  json.appendStringLoop (S n) (String c s) = json.appendByte c +:+ json.appendStringLoop n s.
Proof.
  intros H. cbn [json.appendStringLoop]. unfold utf8.RuneSelf.
  destruct (Z.ltb_spec (b2z c) 128); [done | lia].
Qed.

Lemma appendStringLoop_multi (n : nat) (c0 : ascii) (s1 : string) (r : Z) (size : nat) :
  128 ≤ b2z c0 → utf8.DecodeRune (String c0 s1) = (r, size) → size ≠ 1%nat →
  json.appendStringLoop (S n) (String c0 s1) =
    appendRune r (take_bytes size (String c0 s1))
      +:+ json.appendStringLoop n (drop_bytes size (String c0 s1)).
Proof.
  intros H0 Hd Hs. cbn [json.appendStringLoop]. unfold utf8.RuneSelf.
  destruct (Z.ltb_spec (b2z c0) 128); [lia|]. rewrite Hd.
  destruct (Nat.eqb_spec size 1); [done|]. rewrite andb_false_r.
  unfold appendRune. destruct ((r =? 8232) || (r =? 8233)); [|done].
  by rewrite append_assoc.
Qed.

Lemma appendStringLoop_2 (n : nat) (c0 c1 : ascii) (s : string) :
  utf8.seq2 (b2z c0) (b2z c1) = true →
  json.appendStringLoop (S n) (String c0 (String c1 s)) =
    String c0 (String c1 (json.appendStringLoop n s)).
Proof.
  intros H. rewrite (appendStringLoop_multi n c0 _ _ 2 ltac:(unfold utf8.seq2 in H; split_tests; lia)
                       (DecodeRune_2 c0 c1 s H)) by done.
  unfold appendRune, utf8.seq2, utf8.cont in *. split_tests.
  destruct (Z.eqb_spec ((b2z c0 - 192) * 64 + (b2z c1 - 128)) 8232); [lia|].
  destruct (Z.eqb_spec ((b2z c0 - 192) * 64 + (b2z c1 - 128)) 8233); [lia|].
  reflexivity.
Qed.

Lemma appendStringLoop_3 (n : nat) (c0 c1 c2 : ascii) (s : string) :
  utf8.seq3 (b2z c0) (b2z c1) (b2z c2) = true →
  json.appendStringLoop (S n) (String c0 (String c1 (String c2 s))) =
    appendRune ((b2z c0 - 224) * 4096 + (b2z c1 - 128) * 64 + (b2z c2 - 128))
               (String c0 (String c1 (String c2 "")))
      +:+ json.appendStringLoop n s.
Proof.
  intros H. pose proof (seq3_lead _ _ _ H).
  by rewrite (appendStringLoop_multi n c0 _ _ 3 ltac:(lia) (DecodeRune_3 c0 c1 c2 s H)).
Qed.

Lemma appendStringLoop_4 (n : nat) (c0 c1 c2 c3 : ascii) (s : string) :
  utf8.seq4 (b2z c0) (b2z c1) (b2z c2) (b2z c3) = true →
  json.appendStringLoop (S n) (String c0 (String c1 (String c2 (String c3 s)))) =
    String c0 (String c1 (String c2 (String c3 (json.appendStringLoop n s)))).
Proof.
  intros H. pose proof (seq4_lead _ _ _ _ H).
  rewrite (appendStringLoop_multi n c0 _ _ 4 ltac:(lia) (DecodeRune_4 c0 c1 c2 c3 s H)) by done.
  unfold appendRune, utf8.seq4, utf8.cont in *. split_tests.
  all: match goal with |- context [?r =? 8232] =>
         destruct (Z.eqb_spec r 8232); [lia|]; destruct (Z.eqb_spec r 8233); [lia|]
       end; reflexivity.
Qed.

(** The scanner and [unquoteBytes] over the pieces the encoder writes. *)

Ltac appendByte_case :=
  match goal with
  | |- context [json.appendByte ?c] =>
    let e := eval vm_compute in (json.appendByte c) in
    change (json.appendByte c) with e
  end;
  split;
  [ intros y; rewrite ?append_cons, ?append_nil_l; simpl json.scanString;
    destruct (json.scanString json.InString y) as [[lit rest]|]; reflexivity
  | intros m y; rewrite ?append_cons, ?append_nil_l; reflexivity ].

Lemma appendByte_ok (c : ascii) :
  b2z c < 128 → scanned (json.appendByte c) ∧ unquoted (json.appendByte c) (String c "").
Proof.
  intros H.
  destruct c as [b0 b1 b2 b3 b4 b5 b6 []];
    [exfalso; clear -H; destruct b0, b1, b2, b3, b4, b5, b6; vm_compute in H; done|].
  clear H.
  destruct b0, b1, b2, b3, b4, b5, b6; appendByte_case.
Qed.

Lemma scanned_high (c : ascii) : 128 ≤ b2z c → scanned (String c "").
Proof.
  intros H y. rewrite append_cons, append_nil_l. cbn [json.scanString].
  rewrite (eqc_false c "034"), (eqc_false c "\")
    by (match goal with |- _ ≠ b2z ?d =>
          let n := eval vm_compute in (b2z d) in change (b2z d) with n end; lia).
  destruct (Z.ltb_spec (b2z c) 32); [lia|].
  by destruct (json.scanString json.InString y) as [[lit rest]|].
Qed.

Lemma scanned_app (p q : string) : scanned p → scanned q → scanned (p +:+ q).
Proof.
  intros Hp Hq y. rewrite append_assoc, Hp, Hq.
  destruct (json.scanString json.InString y) as [[lit rest]|]; [|done].
  by rewrite append_assoc.
Qed.

Lemma unquoted_multi (c0 : ascii) (s1 raw : string) (r : Z) (size : nat) :
  128 ≤ b2z c0 →
  (∀ y, utf8.DecodeRune (String c0 s1 +:+ y) = (r, size)) →
  (∀ y, drop_bytes size (String c0 s1 +:+ y) = y) →
  utf8.EncodeRune r = raw →
  unquoted (String c0 s1) raw.
Proof.
  intros H0 Hd Hdrop He m y.
  specialize (Hd y). specialize (Hdrop y).
  rewrite append_cons in *. cbn [json.unquoteLoop].
  rewrite (eqc_false c0 "034"), (eqc_false c0 "\")
    by (match goal with |- _ ≠ b2z ?d =>
          let n := eval vm_compute in (b2z d) in change (b2z d) with n end; lia).
  destruct (Z.ltb_spec (b2z c0) 32); [lia|].
  unfold utf8.RuneSelf. destruct (Z.ltb_spec (b2z c0) 128); [lia|].
  cbn [orb]. rewrite Hd, Hdrop, He. done.
Qed.

Lemma unquoted_2 (c0 c1 : ascii) :
  utf8.seq2 (b2z c0) (b2z c1) = true →
  unquoted (String c0 (String c1 "")) (String c0 (String c1 "")).
Proof.
  intros H. eapply (unquoted_multi c0 _ _ _ 2).
  - unfold utf8.seq2 in H. split_tests. lia.
  - intros y. rewrite !append_cons, append_nil_l. by apply DecodeRune_2.
  - done.
  - by apply EncodeRune_seq2.
Qed.

Lemma unquoted_3 (c0 c1 c2 : ascii) :
  utf8.seq3 (b2z c0) (b2z c1) (b2z c2) = true →
  unquoted (String c0 (String c1 (String c2 ""))) (String c0 (String c1 (String c2 ""))).
Proof.
  intros H. pose proof (seq3_lead _ _ _ H). eapply (unquoted_multi c0 _ _ _ 3).
  - lia.
  - intros y. rewrite !append_cons, append_nil_l. by apply DecodeRune_3.
  - done.
  - by apply EncodeRune_seq3.
Qed.

Lemma unquoted_4 (c0 c1 c2 c3 : ascii) :
  utf8.seq4 (b2z c0) (b2z c1) (b2z c2) (b2z c3) = true →
  unquoted (String c0 (String c1 (String c2 (String c3 ""))))
           (String c0 (String c1 (String c2 (String c3 "")))).
Proof.
  intros H. pose proof (seq4_lead _ _ _ _ H). eapply (unquoted_multi c0 _ _ _ 4).
  - lia.
  - intros y. rewrite !append_cons, append_nil_l. by apply DecodeRune_4.
  - done.
  - by apply EncodeRune_seq4.
Qed.

(** The escapes of U+2028 and U+2029. *)
Lemma separator_ok (r : Z) :
  r = 0x2028 ∨ r = 0x2029 →
  scanned ("\u202" +:+ json.hexDigit json.hex (Z.land r 0xF)) ∧
  unquoted ("\u202" +:+ json.hexDigit json.hex (Z.land r 0xF)) (utf8.EncodeRune r).
Proof.
  intros [-> | ->];
    match goal with
    | |- context [json.hexDigit ?h ?x] =>
      let e := eval vm_compute in (json.hexDigit h x) in
      change (json.hexDigit h x) with e
    end;
    (split;
     [ intros y; repeat first [rewrite append_cons | rewrite append_nil_l];
       simpl json.scanString;
       destruct (json.scanString json.InString y) as [[lit rest]|]; reflexivity
     | intros m y; reflexivity ]).
Qed.

Lemma scanned_nil : scanned "".
Proof. intros y. rewrite append_nil_l. by destruct (json.scanString _ y) as [[lit rest]|]. Qed.

Lemma cont_high (b : Z) : utf8.cont b = true → 128 ≤ b.
Proof. unfold utf8.cont. intros H. split_tests. lia. Qed.

Lemma seq3_conts (p0 b1 b2 : Z) : utf8.seq3 p0 b1 b2 = true → 128 ≤ b1 ∧ 128 ≤ b2.
Proof. unfold utf8.seq3, utf8.cont. intros H. split_tests; lia. Qed.

Lemma seq4_conts (p0 b1 b2 b3 : Z) :
  utf8.seq4 p0 b1 b2 b3 = true → 128 ≤ b1 ∧ 128 ≤ b2 ∧ 128 ≤ b3.
Proof. unfold utf8.seq4, utf8.cont. intros H. split_tests; lia. Qed.

Lemma scanned_raw3 (c0 c1 c2 : ascii) :
  utf8.seq3 (b2z c0) (b2z c1) (b2z c2) = true →
  scanned (String c0 (String c1 (String c2 ""))).
Proof.
  intros H. pose proof (seq3_lead _ _ _ H). pose proof (seq3_conts _ _ _ H) as [? ?].
  apply (scanned_app (String c0 "")); [apply scanned_high; lia|].
  apply (scanned_app (String c1 "")); apply scanned_high; lia.
Qed.

Lemma appendRune_ok (c0 c1 c2 : ascii) :
  utf8.seq3 (b2z c0) (b2z c1) (b2z c2) = true →
  let r := (b2z c0 - 224) * 4096 + (b2z c1 - 128) * 64 + (b2z c2 - 128) in
  let raw := String c0 (String c1 (String c2 "")) in
  scanned (appendRune r raw) ∧ unquoted (appendRune r raw) raw.
Proof.
  intros H r raw. unfold appendRune.
  destruct (Z.eqb_spec r 8232) as [E|_]; [|destruct (Z.eqb_spec r 8233) as [E|_]].
  1, 2: cbn [orb]; subst raw; rewrite <- (EncodeRune_seq3 c0 c1 c2 H); fold r;
    apply separator_ok; auto.
  cbn [orb]. split; [by apply scanned_raw3 | by apply unquoted_3].
Qed.

Lemma appendStringLoop_scanned (t : string) :
  utf8.ValidString t = true →
  ∀ n, (String.length t ≤ n)%nat → scanned (json.appendStringLoop n t).
Proof.
  revert t. apply (ValidString_induction
    (λ t, ∀ n, (String.length t ≤ n)%nat → scanned (json.appendStringLoop n t))).
  - intros n _. rewrite appendStringLoop_nil. apply scanned_nil.
  - intros c s Hc _ IH [|n] Hn; simpl in Hn; [lia|].
    rewrite appendStringLoop_1 by done.
    apply scanned_app; [by apply appendByte_ok | apply IH; lia].
  - intros c0 c1 s H _ IH [|n] Hn; simpl in Hn; [lia|].
    rewrite appendStringLoop_2 by done.
    unfold utf8.seq2 in H. apply andb_true_iff in H as [H Hb]. apply cont_high in Hb.
    split_tests.
    apply (scanned_app (String c0 "")); [apply scanned_high; lia|].
    apply (scanned_app (String c1 "")); [apply scanned_high; lia|]. apply IH. lia.
  - intros c0 c1 c2 s H _ IH [|n] Hn; simpl in Hn; [lia|].
    rewrite appendStringLoop_3 by done.
    apply scanned_app; [by apply appendRune_ok | apply IH; lia].
  - intros c0 c1 c2 c3 s H _ IH [|n] Hn; simpl in Hn; [lia|].
    rewrite appendStringLoop_4 by done.
    pose proof (seq4_lead _ _ _ _ H). pose proof (seq4_conts _ _ _ _ H) as (? & ? & ?).
    apply (scanned_app (String c0 "")); [apply scanned_high; lia|].
    apply (scanned_app (String c1 "")); [apply scanned_high; lia|].
    apply (scanned_app (String c2 "")); [apply scanned_high; lia|].
    apply (scanned_app (String c3 "")); [apply scanned_high; lia|]. apply IH. lia.
Qed.

Lemma appendByte_length (c : ascii) : (1 ≤ String.length (json.appendByte c))%nat.
Proof.
  unfold json.appendByte.
  repeat match goal with
  | |- context [if ?b then _ else _] => destruct b; [simpl; lia|]
  end.
  rewrite append_cons. simpl. lia.
Qed.

Lemma appendRune_length (r : Z) (raw : string) :
  (1 ≤ String.length raw)%nat → (1 ≤ String.length (appendRune r raw))%nat.
Proof.
  intros H. unfold appendRune. destruct (_ || _); [|done].
  rewrite append_cons. simpl. lia.
Qed.

Lemma unquoteLoop_nil (m : nat) : json.unquoteLoop m "" = Some "".
Proof. by destruct m. Qed.

(** One step of the read-back: a piece, then the rest by induction. *)
Lemma unquote_piece (piece out loop s : string) (m : nat) :
  unquoted piece out → (1 ≤ String.length piece)%nat →
  (String.length (piece +:+ loop) ≤ m)%nat →
  (∀ m', (String.length loop ≤ m')%nat → json.unquoteLoop m' loop = Some s) →
  json.unquoteLoop m (piece +:+ loop) = Some (out +:+ s).
Proof.
  intros Hu Hp Hm IH. rewrite length_append in Hm.
  destruct m as [|m]; [lia|]. rewrite Hu, IH by lia. done.
Qed.

Lemma appendStringLoop_unquote (t : string) :
  utf8.ValidString t = true →
  ∀ n m, (String.length t ≤ n)%nat →
    (String.length (json.appendStringLoop n t) ≤ m)%nat →
    json.unquoteLoop m (json.appendStringLoop n t) = Some t.
Proof.
  revert t. apply (ValidString_induction
    (λ t, ∀ n m, (String.length t ≤ n)%nat →
      (String.length (json.appendStringLoop n t) ≤ m)%nat →
      json.unquoteLoop m (json.appendStringLoop n t) = Some t)).
  - intros n m _ _. rewrite appendStringLoop_nil. apply unquoteLoop_nil.
  - intros c s Hc _ IH [|n] m Hn; simpl in Hn; [lia|].
    rewrite appendStringLoop_1 by done. intros Hm.
    apply (unquote_piece _ (String c "")); [by apply appendByte_ok | | done |].
    + apply appendByte_length.
    + intros m' ?. apply IH; lia.
  - intros c0 c1 s H _ IH [|n] m Hn; simpl in Hn; [lia|].
    rewrite appendStringLoop_2 by done. intros Hm.
    apply (unquote_piece (String c0 (String c1 "")) (String c0 (String c1 "")));
      [by apply unquoted_2 | simpl; lia | done |].
    intros m' ?. apply IH; lia.
  - intros c0 c1 c2 s H _ IH [|n] m Hn; simpl in Hn; [lia|].
    rewrite appendStringLoop_3 by done. intros Hm.
    apply (unquote_piece _ (String c0 (String c1 (String c2 ""))));
      [by apply appendRune_ok | apply appendRune_length; simpl; lia | done |].
    intros m' ?. apply IH; lia.
  - intros c0 c1 c2 c3 s H _ IH [|n] m Hn; simpl in Hn; [lia|].
    rewrite appendStringLoop_4 by done. intros Hm.
    apply (unquote_piece (String c0 (String c1 (String c2 (String c3 ""))))
             (String c0 (String c1 (String c2 (String c3 "")))));
      [by apply unquoted_4 | simpl; lia | done |].
    intros m' ?. apply IH; lia.
Qed.

(** A quoted string, as the encoder writes it, scans back to its content. *)
Lemma scanValue_appendString (t rest : string) (fuel : nat) (depth : Z) :
  utf8.ValidString t = true →
  json.scanValue (S fuel) depth (json.appendString t +:+ rest) = Some (json.Str t, rest).
Proof.
  intros Hv. unfold json.appendString.
  rewrite append_assoc, append_cons. cbn [json.scanValue].
  change (json.eqc "034" "{") with false. change (json.eqc "034" "[") with false.
  change (json.eqc "034" "034") with true. cbv iota.
  rewrite (appendStringLoop_scanned t Hv _ (le_n _)).
  change (json.scanString json.InString (String "034" "" +:+ rest)) with (Some ("", rest)).
  cbv iota. rewrite append_nil_r. unfold json.unquoteBytes.
  by rewrite (appendStringLoop_unquote t Hv _ _ (le_n _) (le_n _)).
Qed.

(** The body the handler writes on success, byte by byte. *)
Lemma encodeTranslateResponse_eq (t : string) :
  encodeTranslateResponse (mkTranslateResponse t) =
  js "{'translatedText':" +:+ json.appendString t +:+ "}" +:+ "
".
Proof.
  unfold encodeTranslateResponse, json.Encode, json.encodeFields.
  cbn [map String.concat fst snd TranslatedText].
  rewrite !append_assoc.
  repeat first [rewrite append_cons | rewrite append_nil_l].
  reflexivity.
Qed.

Lemma scanValue_object (fuel : nat) (depth : Z) (s : string) :
  json.scanValue (S fuel) depth (String "{" s) =
  if json.maxNestingDepth <? depth + 1 then None else
  match json.skipSpace s with
  | String c1 rest =>
    if json.eqc c1 "}" then Some (json.Object [], rest)
    else json.members (json.scanValue fuel (depth + 1)) (String.length s) (String c1 rest) []
  | EmptyString => None
  end.
Proof. reflexivity. Qed.

Lemma members_cons (value : string → option (json.Value * string)) (fuel : nat)
    (s : string) (acc : list (string * json.Value)) :
  json.members value (S fuel) s acc =
  match json.skipSpace s with
  | String q s0 =>
    if negb (json.eqc q "034") then None else
    match json.scanString json.InString s0 with
    | Some (lit, s1) =>
      match json.unquoteBytes lit, json.skipSpace s1 with
      | Some key, String colon s2 =>
        if negb (json.eqc colon ":") then None else
        match value (json.skipSpace s2) with
        | Some (v, s3) =>
          match json.skipSpace s3 with
          | String c s4 =>
            if json.eqc c "," then json.members value fuel s4 ((key, v) :: acc)
            else if json.eqc c "}" then Some (json.Object (rev ((key, v) :: acc)), s4)
            else None
          | EmptyString => None
          end
        | None => None
        end
      | _, _ => None
      end
    | None => None
    end
  | EmptyString => None
  end.
Proof. reflexivity. Qed.

(** An object of one member, written without spaces, scans to that member. *)
Lemma scanValue_member (fuel : nat) (depth : Z) (lit key tail rest : string)
    (v : json.Value) :
  (json.maxNestingDepth <? depth + 1) = false →
  scanned lit → json.unquoteBytes lit = Some key →
  json.skipSpace tail = tail →
  json.scanValue fuel (depth + 1) tail = Some (v, String "}" rest) →
  json.scanValue (S fuel) depth
    (String "{" (String "034" (lit +:+ String "034" (String ":" tail))))
  = Some (json.Object [(key, v)], rest).
Proof.
  intros Hd Hs Hu Ht Hv.
  rewrite scanValue_object, Hd.
  change (json.skipSpace (String "034" ?x)) with (String "034" x).
  cbv beta match.
  change (json.eqc "034" "}") with false. cbv beta match.
  change (String.length (String "034" ?x)) with (S (String.length x)).
  rewrite members_cons.
  change (json.skipSpace (String "034" ?x)) with (String "034" x).
  cbv beta match.
  change (negb (json.eqc "034" "034")) with false. cbv beta match.
  rewrite Hs.
  change (json.scanString json.InString (String "034" ?x)) with (Some ("", x)).
  cbv beta match. rewrite append_nil_r, Hu.
  change (json.skipSpace (String ":" ?x)) with (String ":" x).
  cbv beta match.
  change (negb (json.eqc ":" ":")) with false. cbv beta match.
  rewrite Ht, Hv.
  change (json.skipSpace (String "}" ?x)) with (String "}" x).
  cbv beta match.
  change (json.eqc "}" ",") with false. change (json.eqc "}" "}") with true.
  cbv beta match. reflexivity.
Qed.

Lemma translatedText_scanned : scanned "translatedText".
Proof.
  exact (appendStringLoop_scanned "translatedText" eq_refl 14%nat (le_n _)).
Qed.

(** The JSON value of the success body: the object whose only member is
    [translatedText] with the text that was encoded. *)
Lemma readValue_encode (t : string) (failure : option string) :
  utf8.ValidString t = true →
  json.readValue (io.mkReader (encodeTranslateResponse (mkTranslateResponse t)) failure)
  = Some (json.Object [("translatedText", json.Str t)]).
Proof.
  intros Hv. rewrite encodeTranslateResponse_eq.
  unfold json.readValue, json.scan.
  cbn [io.data io.failure].
  change (js "{'translatedText':" +:+ ?x)
    with (String "{" (String "034" ("translatedText" +:+ String "034" (String ":" x)))).
  change (json.skipSpace (String "{" ?x)) with (String "{" x).
  change (String.length (String "{" (String "034" ?x)))
    with (S (S (String.length x))).
  rewrite (scanValue_member _ 0 "translatedText" "translatedText" _ "
" (json.Str t)).
  - reflexivity.
  - reflexivity.
  - apply translatedText_scanned.
  - reflexivity.
  - unfold json.appendString. rewrite append_cons. reflexivity.
  - change ("}" +:+ "
") with (String "}" "
").
    by apply scanValue_appendString.
Qed.

(** Reading the success body back gives the text that was encoded. *)
Lemma decodeTranslateResponse_encode (t : string) :
  utf8.ValidString t = true →
  decodeTranslateResponse (encodeTranslateResponse (mkTranslateResponse t))
  = (mkTranslateResponse t, None).
Proof.
  intros Hv. unfold decodeTranslateResponse, json.Decode.
  by rewrite (readValue_encode t None Hv).
Qed.

(** ** getTranslate: success *)

(** C1. For a validated request, when the upstream answers with status 200
    and its body decodes into the nested shape with [translatedText] [t],
    [getTranslate] answers status 200 with [Content-Type: application/json]
    and a body that is JSON whose [translatedText] is [t]: the JSON value
    read from the body is the object with the single member
    [translatedText], a string with content [t], and decoding the body into
    a [TranslateResponse] gives [t] without error.  Byte for byte, the body
    is that object with the string as Go's encoder escapes it, followed by
    a newline. *)
Theorem getTranslate_success (client : string → http.GetResult) (r : http.Request)
    (req : TranslateRequest) (resp : http.Response) (t : string) :
  validated r req →
  client (apiURL req) = http.GetOk resp →
  http.StatusCode resp = 200 →
  decodeApiResponse resp = (api.mkApiResponse (api.mkResponseData t), None) →
  http.status (response (getTranslate client r)) = 200 ∧
  http.sentHeader (response (getTranslate client r)) "Content-Type"
    = Some "application/json" ∧
  json.readValue (io.mkReader (http.body (response (getTranslate client r))) None)
    = Some (json.Object [("translatedText", json.Str t)]) ∧
  decodeTranslateResponse (http.body (response (getTranslate client r)))
    = (mkTranslateResponse t, None) ∧
  http.body (response (getTranslate client r)) =
    js "{'translatedText':" +:+ json.appendString t +:+ "}" +:+ "
".
Proof.
  intros Hv Hc Hs Hd.
  destruct (getTranslate_relays client r req resp _ Hv Hc Hs Hd) as (H1 & H2 & H3).
  pose proof (decodeApiResponse_valid resp t Hd) as Ht.
  cbn [api.TranslatedText api.ResponseData] in H3.
  repeat split; [done..| | |]; rewrite H3.
  - by apply readValue_encode.
  - by apply decodeTranslateResponse_encode.
  - apply encodeTranslateResponse_eq.
Qed.

Lemma getTranslate_success_witness :
  http.status (response (getTranslate
    (upstream "200 OK" 200 (js "{'responseData':{'translatedText':'a\'b <c>'}}"))
    (post (js "{'text':'Hello','source':'en','target':'es'}")))) = 200 ∧
  http.sentHeader (response (getTranslate
    (upstream "200 OK" 200 (js "{'responseData':{'translatedText':'a\'b <c>'}}"))
    (post (js "{'text':'Hello','source':'en','target':'es'}")))) "Content-Type"
    = Some "application/json" ∧
  json.readValue (io.mkReader (http.body (response (getTranslate
    (upstream "200 OK" 200 (js "{'responseData':{'translatedText':'a\'b <c>'}}"))
    (post (js "{'text':'Hello','source':'en','target':'es'}"))))) None)
    = Some (json.Object [("translatedText", json.Str (String "a" (String "034" "b <c>")))]) ∧
  decodeTranslateResponse (http.body (response (getTranslate
    (upstream "200 OK" 200 (js "{'responseData':{'translatedText':'a\'b <c>'}}"))
    (post (js "{'text':'Hello','source':'en','target':'es'}")))))
    = (mkTranslateResponse (String "a" (String "034" "b <c>")), None) ∧
  http.body (response (getTranslate
    (upstream "200 OK" 200 (js "{'responseData':{'translatedText':'a\'b <c>'}}"))
    (post (js "{'text':'Hello','source':'en','target':'es'}")))) =
    js "{'translatedText':'a\'b \u003cc\u003e'}" +:+ "
".
Proof.
  apply (getTranslate_success
           (upstream "200 OK" 200 (js "{'responseData':{'translatedText':'a\'b <c>'}}"))
           (post (js "{'text':'Hello','source':'en','target':'es'}"))
           (mkTranslateRequest "Hello" "es" "en")
           (http.mkResponse "200 OK" 200
              (io.mkReader (js "{'responseData':{'translatedText':'a\'b <c>'}}") None))
           (String "a" (String "034" "b <c>"))).
  - split; [vm_compute; reflexivity | repeat split; discriminate].
  - reflexivity.
  - reflexivity.
  - vm_compute. reflexivity.
Defined.

(** ** getTranslate: the success body read back *)

(** X1. For a validated request answered by the upstream with status 200 and
    a body that decodes, a client that decodes the response body of
    [getTranslate] into a [TranslateResponse] gets, without error, exactly
    the translation the handler decoded from the upstream. *)
Theorem getTranslate_body_roundtrip (client : string → http.GetResult)
    (r : http.Request) (req : TranslateRequest) (resp : http.Response)
    (a : api.apiResponse_t) :
  validated r req →
  client (apiURL req) = http.GetOk resp →
  http.StatusCode resp = 200 →
  decodeApiResponse resp = (a, None) →
  decodeTranslateResponse (http.body (response (getTranslate client r)))
  = (mkTranslateResponse (api.TranslatedText (api.ResponseData a)), None).
Proof.
  intros Hv Hc Hs Hd.
  destruct (getTranslate_relays client r req resp a Hv Hc Hs Hd) as (_ & _ & ->).
  apply decodeTranslateResponse_encode.
  destruct a as [[t]]. by apply (decodeApiResponse_valid resp).
Qed.

Lemma getTranslate_body_roundtrip_witness :
  decodeTranslateResponse (http.body (response (getTranslate
    (upstream "200 OK" 200 (js "{'responseData':{'translatedText':'<Hola>\n¡'}}"))
    (post (js "{'text':'Hello','source':'en','target':'es'}")))))
  = (mkTranslateResponse (String "<" ("Hola>" +:+ String "010" (String "194" (String "161" "")))),
     None).
Proof.
  apply (getTranslate_body_roundtrip
           (upstream "200 OK" 200 (js "{'responseData':{'translatedText':'<Hola>\n¡'}}"))
           (post (js "{'text':'Hello','source':'en','target':'es'}"))
           (mkTranslateRequest "Hello" "es" "en")
           (http.mkResponse "200 OK" 200
              (io.mkReader (js "{'responseData':{'translatedText':'<Hola>\n¡'}}") None))
           (api.mkApiResponse (api.mkResponseData
              (String "<" ("Hola>" +:+ String "010" (String "194" (String "161" ""))))))).
  - split; [vm_compute; reflexivity | repeat split; discriminate].
  - reflexivity.
  - reflexivity.
  - vm_compute. reflexivity.
Defined.

(** ** getTranslate: every outcome *)

Lemma http_Error_reply (error : string) (code : Z) (so : string) (ob : list string) :
  let e' := (http_Error error code (mkEnv http.newResponseWriter so ob)).2 in
  errorReply error code (rw e') ∧ stdout e' = so ∧ outbound e' = ob.
Proof. by vm_compute. Qed.

Lemma validated_or_not (r : http.Request) :
  validated r (decodeTranslate r).1 ∨
  ((decodeTranslate r).2 ≠ None ∨
   Text (decodeTranslate r).1 = "" ∨ Source (decodeTranslate r).1 = "" ∨
   Target (decodeTranslate r).1 = "").
Proof.
  unfold validated. destruct (decodeTranslate r) as [req [e|]]; simpl.
  { right. by left. }
  destruct (decide (Text req = "")); [by right; right; left|].
  destruct (decide (Source req = "")); [by right; right; right; left|].
  destruct (decide (Target req = "")); [by right; right; right; right|].
  by left.
Qed.

Lemma getTranslate_outcome (client : string → http.GetResult) (r : http.Request) :
  outcome client r (serve (getTranslate client r)).
Proof.
  destruct (validated_or_not r) as [Hv|Hn].
  - rewrite (getTranslate_validated client r _ Hv).
    set (req := (decodeTranslate r).1) in *.
    destruct (client (apiURL req)) as [resp|err] eqn:Hc.
    + destruct (Z.eqb_spec (http.StatusCode resp) 200) as [Hs|Hs]; cbn [negb].
      * destruct (decodeApiResponse resp) as [a [e|]] eqn:Hd.
        -- destruct (http_Error_reply "Internal Server Error: failed to parse response" 500
                       (stdout (sent req)) (outbound (sent req))) as (? & ? & ?).
           eapply parse_failed; eauto. by rewrite Hd.
        -- eapply relayed; eauto.
      * destruct (http_Error_reply ("External API error: " +:+ http.Status resp) 500
                       (stdout (sent req)) (outbound (sent req))) as (? & ? & ?).
        eapply upstream_status; eauto.
    + destruct (http_Error_reply "Internal Server Error: failed to make request" 500
                       (stdout (sent req)) (outbound (sent req))) as (? & ? & ?).
      eapply request_failed; eauto.
  - unfold serve, getTranslate. fold (decodeTranslate r).
    destruct (decodeTranslate r) as [req [e|]] eqn:Hd; simpl in Hn.
    + destruct (http_Error_reply "Bad Request: invalid JSON" 400 "" []) as (? & ? & ?).
      apply invalid_json; rewrite ?Hd; done.
    + destruct Hn as [?|Hn]; [done|].
      assert (String.eqb (Text req) "" || String.eqb (Source req) ""
              || String.eqb (Target req) "" = true) as ->.
      { destruct Hn as [-> | [-> | ->]]; simpl; rewrite ?orb_true_r; done. }
      destruct (http_Error_reply "Bad Request: missing required fields" 400 "" [])
        as (? & ? & ?).
      apply missing_fields; rewrite ?Hd; done.
Qed.

Lemma validated_decoded (r : http.Request) (req : TranslateRequest) :
  validated r req → (decodeTranslate r).2 = None ∧ (decodeTranslate r).1 = req.
Proof. intros [H _]. by rewrite H. Qed.

Lemma validated_unique (r : http.Request) (req req' : TranslateRequest) :
  validated r req → validated r req' → req = req'.
Proof. intros [H _] [H' _]. congruence. Qed.

(** X2. Whatever the request and the upstream do, [getTranslate] answers
    200, 400 or 500; a 200 reply is sent as [application/json], every other
    reply as [text/plain; charset=utf-8] with [X-Content-Type-Options:
    nosniff]. *)
Theorem getTranslate_status_and_type (client : string → http.GetResult) (r : http.Request) :
  (http.status (response (getTranslate client r)) = 200 ∧
   http.sentHeader (response (getTranslate client r)) "Content-Type"
     = Some "application/json" ∧
   http.sentHeader (response (getTranslate client r)) "X-Content-Type-Options" = None) ∨
  ((http.status (response (getTranslate client r)) = 400 ∨
    http.status (response (getTranslate client r)) = 500) ∧
   http.sentHeader (response (getTranslate client r)) "Content-Type"
     = Some "text/plain; charset=utf-8" ∧
   http.sentHeader (response (getTranslate client r)) "X-Content-Type-Options"
     = Some "nosniff").
Proof.
  unfold response.
  destruct (getTranslate_outcome client r) as
    [e ? H|e ? ? H|e req err ? ? H|e req resp ? ? ? H|e req resp ? ? ? ? H|e];
    try (destruct H as (Ha & _ & Hb & Hc); right; rewrite Ha, Hb, Hc;
         split; [(by left) || (by right) | done]).
  left. done.
Qed.


(** X4. The error replies of [getTranslate] name the check that failed: a
    body that does not decode gets ["Bad Request: invalid JSON"], a decoded
    body with an empty [text], [source] or [target] gets ["Bad Request:
    missing required fields"], and a failed GET gets ["Internal Server
    Error: failed to make request"], whatever the transport error was. *)
Theorem getTranslate_error_bodies (client : string → http.GetResult) (r : http.Request) :
  ((decodeTranslate r).2 ≠ None →
     http.body (response (getTranslate client r)) = "Bad Request: invalid JSON
") ∧
  ((decodeTranslate r).2 = None →
   Text (decodeTranslate r).1 = "" ∨ Source (decodeTranslate r).1 = "" ∨
     Target (decodeTranslate r).1 = "" →
     http.body (response (getTranslate client r)) = "Bad Request: missing required fields
") ∧
  (∀ req err, validated r req → client (apiURL req) = http.GetErr err →
     http.body (response (getTranslate client r)) =
       "Internal Server Error: failed to make request
").
Proof.
  unfold response.
  destruct (getTranslate_outcome client r) as
    [e Hd H _ _|e Hd He H _ _|e req err Hv Hc H _ _|e req resp Hv Hc ? H _ _
    |e req resp Hv Hc ? ? H _ _|e req resp a Hv Hc ? ? _ Hb _ _ _ _];
    try destruct H as (_ & Hb & _);
    try match goal with
        | Hv : validated r ?q |- _ =>
          destruct (validated_decoded r q Hv) as [Hn Hq];
          pose proof Hv as (_ & ? & ? & ?)
        end;
    (split; [intros Hx|split; [intros Hx Hy|intros req' err' Hv' Hc']]);
    try done; try congruence.
  all: try (rewrite Hq in Hy; by destruct Hy as [?|[?|?]]).
  all: try match goal with
    | Hv' : validated ?rr ?q', He : _ ∨ _ |- _ =>
      pose proof (validated_decoded rr q' Hv') as [_ Hq'];
      destruct Hv' as (_ & ? & ? & ?); rewrite Hq' in He; by destruct He as [?|[?|?]]
    end.
  all: try match goal with
    | Hv' : validated ?rr ?q', Hd : _ ≠ None |- _ =>
      by destruct (validated_decoded rr q' Hv')
    end.
  all: match goal with
    | Hv : validated ?rr ?q, Hv' : validated ?rr ?q' |- _ =>
      rewrite <- (validated_unique rr q q' Hv Hv') in *
    end; first [exact Hb | congruence].
Qed.

Lemma getTranslate_error_bodies_witness :
  http.body (response (getTranslate (upstream "200 OK" 200 "{}") (post "{"))) =
    "Bad Request: invalid JSON
" ∧
  http.body (response (getTranslate (upstream "200 OK" 200 "{}")
      (post (js "{'text':'Hello','source':'en'}")))) =
    "Bad Request: missing required fields
" ∧
  http.body (response (getTranslate (λ _, http.GetErr "dial tcp: i/o timeout")
      (post (js "{'text':'Hello','source':'en','target':'es'}")))) =
    "Internal Server Error: failed to make request
".
Proof.
  split; [|split].
  - apply (getTranslate_error_bodies (upstream "200 OK" 200 "{}") (post "{")).
    vm_compute. discriminate.
  - apply (getTranslate_error_bodies (upstream "200 OK" 200 "{}")
             (post (js "{'text':'Hello','source':'en'}"))).
    + vm_compute. reflexivity.
    + right. right. vm_compute. reflexivity.
  - apply (getTranslate_error_bodies (λ _, http.GetErr "dial tcp: i/o timeout")
             (post (js "{'text':'Hello','source':'en','target':'es'}")))
      with (req := mkTranslateRequest "Hello" "es" "en") (err := "dial tcp: i/o timeout").
    + split; [vm_compute; reflexivity | repeat split; discriminate].
    + reflexivity.
Defined.

(** ** getHello: error replies and the log *)

(** X5. The two 400 replies of [getHello] are [http.Error] replies
    ([text/plain; charset=utf-8], [nosniff]) whose body names the failed
    check: ["Bad Request: invalid JSON"] when the body does not decode,
    ["Bad Request: Age must be a positive number"] when it decodes with
    [Age <= 0]; in both cases nothing is logged. *)
Theorem getHello_error_replies (r : http.Request) :
  ((decodeHello r).2 ≠ None →
     errorReply "Bad Request: invalid JSON" 400 (response (getHello r)) ∧
     stdout (serve (getHello r)) = "") ∧
  ((decodeHello r).2 = None → Age (decodeHello r).1 ≤ 0 →
     errorReply "Bad Request: Age must be a positive number" 400 (response (getHello r)) ∧
     stdout (serve (getHello r)) = "").
Proof.
  pose proof (getHello_cases r) as H. unfold response.
  destruct (decodeHello r) as [req [e|]]; cbn [fst snd]; rewrite H.
  - split; [intros _|done].
    destruct (http_Error_reply "Bad Request: invalid JSON" 400 "" []) as (? & ? & _). done.
  - split; [done|intros _ Ha]. destruct (Z.leb_spec (Age req) 0); [|lia].
    destruct (http_Error_reply "Bad Request: Age must be a positive number" 400 "" [])
      as (? & ? & _). done.
Qed.

Lemma getHello_error_replies_witness :
  (errorReply "Bad Request: invalid JSON" 400
     (response (getHello (post (js "{'Name':'Ada','Age':'36'}")))) ∧
   stdout (serve (getHello (post (js "{'Name':'Ada','Age':'36'}")))) = "") ∧
  (errorReply "Bad Request: Age must be a positive number" 400
     (response (getHello (post (js "{'Name':'Ada','Age':-1}")))) ∧
   stdout (serve (getHello (post (js "{'Name':'Ada','Age':-1}")))) = "").
Proof.
  split.
  - apply (getHello_error_replies (post (js "{'Name':'Ada','Age':'36'}"))).
    vm_compute. discriminate.
  - apply (getHello_error_replies (post (js "{'Name':'Ada','Age':-1}"))).
    + vm_compute. reflexivity.
    + vm_compute. discriminate.
Defined.



(** ** getRoot: the log *)

(** X7. [getRoot] logs one record per request: the server address, whether
    the query has [first] and [second] and their first values, and the body
    as read; when reading the body fails, the read error is logged on a line
    before it and the bytes read so far stand for the body. *)
Theorem getRoot_log (r : http.Request) :
  stdout (serve (getRoot r)) =
    match io.failure (http.Body r) with
    | Some e => "could not read body: " +:+ e +:+ "
"
    | None => ""
    end +:+
    logged (http.serverAddr r) +:+ ": got / request. first("
      +:+ fmt.boolean (http.Values_Has (http.Query r) "first") +:+ ")="
      +:+ http.Values_Get (http.Query r) "first" +:+ ", second("
      +:+ fmt.boolean (http.Values_Has (http.Query r) "second") +:+ ")="
      +:+ http.Values_Get (http.Query r) "second" +:+ ", body:
" +:+ io.data (http.Body r) +:+ "
".
Proof.
  unfold serve, getRoot, io.ReadAll.
  set (f := http.Values_Get (http.Query r) "first").
  set (s := http.Values_Get (http.Query r) "second").
  set (hf := http.Values_Has (http.Query r) "first").
  set (hs := http.Values_Has (http.Query r) "second").
  unfold mbind, M_bind, mret, M_ret, print, io_WriteString, modify_rw, initEnv.
  destruct (io.failure (http.Body r)) as [e|], (http.serverAddr r) as [a|];
    cbn [fst snd stdout rw outbound logged fmt.any];
    cbv [fmt.Sprintf fmt.verb fmt.bad json.eqc Ascii.eqb Bool.eqb];
    repeat first [rewrite append_cons | rewrite append_nil_l | rewrite append_nil_r
                 | rewrite append_assoc]; reflexivity.
Qed.

(** ** Well-formed UTF-8 in the replies *)

Lemma all_append (p : byte → bool) (s t : string) : all p (s +:+ t) = all p s && all p t.
Proof. unfold all. by rewrite list_ascii_append, forallb_app. Qed.

Lemma all_cons (p : byte → bool) (c : ascii) (s : string) :
  all p (String c s) = p c && all p s.
Proof. reflexivity. Qed.

Lemma ValidString_append (s t : string) :
  utf8.ValidString s = true → utf8.ValidString (s +:+ t) = utf8.ValidString t.
Proof.
  revert s. apply (ValidString_induction
    (λ s, utf8.ValidString (s +:+ t) = utf8.ValidString t)).
  - done.
  - intros c s Hc _ IH. rewrite append_cons. by rewrite ValidString_1.
  - intros c0 c1 s H _ IH. rewrite !append_cons. by rewrite ValidString_2.
  - intros c0 c1 c2 s H _ IH. rewrite !append_cons. by rewrite ValidString_3.
  - intros c0 c1 c2 c3 s H _ IH. rewrite !append_cons. by rewrite ValidString_4.
Qed.

Lemma ValidString_ascii (s : string) :
  all (λ c, b2z c <? 128) s = true → utf8.ValidString s = true.
Proof.
  induction s as [|c s IH]; [done|]. rewrite all_cons. intros [Hc Hs]%andb_true_iff.
  apply Z.ltb_lt in Hc. rewrite ValidString_1 by done. by apply IH.
Qed.

Lemma string_of_uint_ascii (d : Decimal.uint) :
  all (λ c, b2z c <? 128) (NilEmpty.string_of_uint d) = true.
Proof. induction d; [done|exact IHd..]. Qed.

Lemma decimal_valid (n : Z) : utf8.ValidString (fmt.decimal n) = true.
Proof.
  apply ValidString_ascii. unfold fmt.decimal, NilZero.string_of_int, NilZero.string_of_uint.
  destruct (Z.to_int n) as [d|d]; [|rewrite all_cons; apply andb_true_iff; split; [done|]];
    (destruct d; [done|apply (string_of_uint_ascii (_ d))..]).
Qed.

Lemma decodeHello_valid (r : http.Request) :
  utf8.ValidString (Name (decodeHello r).1) = true ∧
  utf8.ValidString (Hobby (decodeHello r).1) = true.
Proof.
  unfold decodeHello, json.Decode.
  destruct (json.readValue _) as [j|] eqn:Er; [|done].
  apply readValue_valid in Er.
  apply (storeStruct_invariant HelloRequest_fields
           (λ q, utf8.ValidString (Name q) = true ∧ utf8.ValidString (Hobby q) = true));
    [|done..].
  intros f [<-|[<-|[<-|[]]]] v cur Hv [Hn Hh]; cbn [json.set].
  - pose proof (storeString_valid v (Name cur) Hv Hn).
    by destruct (json.storeString v (Name cur)).
  - by destruct (json.storeInt v (Age cur)).
  - pose proof (storeString_valid v (Hobby cur) Hv Hh).
    by destruct (json.storeString v (Hobby cur)).
Qed.

(** X8. Every body [getHello] writes is well-formed UTF-8, whatever bytes
    the request carries: the decoder has replaced ill-formed sequences in
    [Name] and [Hobby] before they reach the greeting. *)
Theorem getHello_body_utf8 (r : http.Request) :
  utf8.ValidString (http.body (response (getHello r))) = true.
Proof.
  pose proof (getHello_cases r) as H. pose proof (decodeHello_valid r) as [Hn Hh].
  unfold response. destruct (decodeHello r) as [req [e|]]; rewrite H; [done|].
  destruct (Age req <=? 0); [done|]. cbn [fst] in Hn, Hh.
  unfold serve, mbind, M_bind, print, io_WriteString, modify_rw, initEnv.
  cbn [fst snd stdout rw outbound]. unfold http.Write, http.body. cbn [http.written http.WriteHeader
    http.wroteHeader http.newResponseWriter http.Header].
  rewrite append_nil_l.
  rewrite (ValidString_append "Hello, ") by done.
  rewrite (ValidString_append (Name req)) by done.
  rewrite (ValidString_append "! You are ") by done.
  rewrite (ValidString_append (fmt.decimal (Age req))) by apply decimal_valid.
  rewrite (ValidString_append " years old and enjoy ") by done.
  rewrite (ValidString_append (Hobby req)) by done.
  done.
Qed.

(** ** getTranslate: the success body is one HTML-safe line *)

Lemma clean_append (s t : string) : clean s → clean t → clean (s +:+ t).
Proof.
  intros [Hs Hs'] [Ht Ht']. split.
  - by rewrite ValidString_append.
  - rewrite all_append. by rewrite Hs', Ht'.
Qed.

Lemma rawSafe_high (c : ascii) : 128 ≤ b2z c → rawSafe c = true.
Proof.
  intros H. unfold rawSafe.
  destruct (Z.leb_spec 32 (b2z c)); [|lia].
  destruct (Z.eqb_spec (b2z c) 60); [lia|].
  destruct (Z.eqb_spec (b2z c) 62); [lia|].
  destruct (Z.eqb_spec (b2z c) 38); [lia|]. done.
Qed.

Lemma appendByte_clean (c : ascii) : b2z c < 128 → clean (json.appendByte c).
Proof.
  intros H.
  destruct c as [b0 b1 b2 b3 b4 b5 b6 []];
    [exfalso; clear -H; destruct b0, b1, b2, b3, b4, b5, b6; vm_compute in H; done|].
  clear H.
  destruct b0, b1, b2, b3, b4, b5, b6; by vm_compute.
Qed.

Lemma appendRune_clean (c0 c1 c2 : ascii) :
  utf8.seq3 (b2z c0) (b2z c1) (b2z c2) = true →
  clean (appendRune ((b2z c0 - 224) * 4096 + (b2z c1 - 128) * 64 + (b2z c2 - 128))
           (String c0 (String c1 (String c2 "")))).
Proof.
  intros H. unfold appendRune.
  set (r := (b2z c0 - 224) * 4096 + (b2z c1 - 128) * 64 + (b2z c2 - 128)).
  destruct (Z.eqb_spec r 8232) as [->|_]; [by vm_compute|].
  destruct (Z.eqb_spec r 8233) as [->|_]; [by vm_compute|].
  cbn [orb]. split.
  - by rewrite ValidString_3.
  - pose proof (seq3_lead _ _ _ H). pose proof (seq3_conts _ _ _ H) as [? ?].
    rewrite !all_cons, !rawSafe_high by lia. done.
Qed.

Lemma appendStringLoop_clean (t : string) :
  utf8.ValidString t = true →
  ∀ n, (String.length t ≤ n)%nat → clean (json.appendStringLoop n t).
Proof.
  revert t. apply (ValidString_induction
    (λ t, ∀ n, (String.length t ≤ n)%nat → clean (json.appendStringLoop n t))).
  - intros n _. by rewrite appendStringLoop_nil.
  - intros c s Hc _ IH [|n] Hn; simpl in Hn; [lia|].
    rewrite appendStringLoop_1 by done.
    apply clean_append; [by apply appendByte_clean | apply IH; lia].
  - intros c0 c1 s H _ IH [|n] Hn; simpl in Hn; [lia|].
    rewrite appendStringLoop_2 by done.
    apply (clean_append (String c0 (String c1 ""))); [|apply IH; lia].
    split; [by rewrite ValidString_2|].
    unfold utf8.seq2, utf8.cont in H. split_tests.
    rewrite !all_cons, !rawSafe_high by lia. done.
  - intros c0 c1 c2 s H _ IH [|n] Hn; simpl in Hn; [lia|].
    rewrite appendStringLoop_3 by done.
    apply clean_append; [by apply appendRune_clean | apply IH; lia].
  - intros c0 c1 c2 c3 s H _ IH [|n] Hn; simpl in Hn; [lia|].
    rewrite appendStringLoop_4 by done.
    apply (clean_append (String c0 (String c1 (String c2 (String c3 ""))))); [|apply IH; lia].
    split; [by rewrite ValidString_4|].
    pose proof (seq4_lead _ _ _ _ H). pose proof (seq4_conts _ _ _ _ H) as (? & ? & ?).
    rewrite !all_cons, !rawSafe_high by lia. done.
Qed.

Lemma appendString_clean (t : string) : utf8.ValidString t = true → clean (json.appendString t).
Proof.
  intros H. unfold json.appendString.
  apply (clean_append (String "034" _) (String "034" "")); [|by vm_compute].
  apply (clean_append (String "034" "")); [by vm_compute|].
  by apply appendStringLoop_clean.
Qed.

(** X9. A 200 reply of [getTranslate] is one line of HTML-safe JSON: the
    body ends with a newline, and what precedes it is well-formed UTF-8 with
    no byte below 0x20 (so no other newline, no tab, no ASCII control
    character before the space) and no raw [<], [>] or [&], whatever the
    upstream put in the translation: the encoder escapes these.  DEL and
    the non-ASCII control characters are not escaped and may occur. *)
Theorem getTranslate_success_line (client : string → http.GetResult) (r : http.Request) :
  http.status (response (getTranslate client r)) = 200 →
  ∃ line, http.body (response (getTranslate client r)) = line +:+ "
" ∧ utf8.ValidString line = true ∧ all rawSafe line = true.
Proof.
  unfold response.
  destruct (getTranslate_outcome client r) as
    [e ? H|e ? ? H|e req err ? ? H|e req resp ? ? ? H|e req resp ? ? ? ? H
    |e req resp a Hv Hc Hs Hd _ Hb];
    try (destruct H as (-> & _); discriminate).
  intros _. rewrite Hb, encodeTranslateResponse_eq.
  destruct a as [[t]]. cbn [api.TranslatedText api.ResponseData TranslatedText].
  exists (js "{'translatedText':" +:+ json.appendString t +:+ "}").
  split; [by rewrite !append_assoc|].
  apply clean_append; [by vm_compute|].
  apply clean_append; [|by vm_compute].
  apply appendString_clean. by apply (decodeApiResponse_valid resp).
Qed.

Lemma getTranslate_success_line_witness :
  ∃ line, http.body (response (getTranslate
    (upstream "200 OK" 200 (js "{'responseData':{'translatedText':'<b>Hola</b>'}}"))
    (post (js "{'text':'Hello','source':'en','target':'es'}")))) = line +:+ "
" ∧ utf8.ValidString line = true ∧ all rawSafe line = true.
Proof.
  apply (getTranslate_success_line
    (upstream "200 OK" 200 (js "{'responseData':{'translatedText':'<b>Hola</b>'}}"))
    (post (js "{'text':'Hello','source':'en','target':'es'}"))).
  reflexivity.
Defined.

(** ** The decoder reads one value and leaves the rest *)

Lemma skipSpace_append (s x : string) :
  json.skipSpace s ≠ "" → json.skipSpace (s +:+ x) = json.skipSpace s +:+ x.
Proof.
  induction s as [|c s IH]; [done|]. rewrite append_cons. cbn [json.skipSpace].
  destruct (json.isSpace c); [done|]. by rewrite append_cons.
Qed.

Lemma skipSpace_cons_append (s x : string) (c : ascii) (s' : string) :
  json.skipSpace s = String c s' → json.skipSpace (s +:+ x) = String c (s' +:+ x).
Proof. intros H. rewrite skipSpace_append by (by rewrite H). by rewrite H. Qed.

Lemma skipSpace_nonempty (s : string) : json.skipSpace s ≠ "" → s ≠ "".
Proof. by destruct s. Qed.

Lemma scanString_append (x : string) (st : json.stringState) (s lit rest : string) :
  json.scanString st s = Some (lit, rest) →
  json.scanString st (s +:+ x) = Some (lit, rest +:+ x).
Proof.
  revert st lit rest. induction s as [|c s IH]; intros st lit rest H; [done|].
  rewrite append_cons. cbn [json.scanString] in *.
  assert (∀ st', match json.scanString st' s with
                 | Some (l, r) => Some (String c l, r) | None => None end = Some (lit, rest) →
                 match json.scanString st' (s +:+ x) with
                 | Some (l, r) => Some (String c l, r) | None => None end
                 = Some (lit, rest +:+ x)) as Hc.
  { intros st' H'. destruct (json.scanString st' s) as [[l r]|] eqn:E; [|done].
    injection H' as <- <-. by rewrite (IH _ _ _ E). }
  destruct st.
  - destruct (json.eqc c "034"); [by injection H as <- <-|].
    destruct (json.eqc c "\"); [by apply Hc|].
    destruct (b2z c <? 32); [done|]. by apply Hc.
  - destruct (_ || _); [by apply Hc|]. destruct (json.eqc c "u"); [by apply Hc|done].
  - destruct (json.isHex c); [by apply Hc|done].
  - destruct (json.isHex c); [by apply Hc|done].
  - destruct (json.isHex c); [by apply Hc|done].
  - destruct (json.isHex c); [by apply Hc|done].
Qed.

Lemma digits_append (x s d rest : string) :
  json.digits s = (d, rest) → rest ≠ "" → json.digits (s +:+ x) = (d, rest +:+ x).
Proof.
  revert d rest. induction s as [|c s IH]; intros d rest H Hr.
  { injection H as <- <-. done. }
  rewrite append_cons. cbn [json.digits] in *.
  destruct (json.isDigit c).
  - destruct (json.digits s) as [d' r'] eqn:E. injection H as <- <-.
    by rewrite (IH _ _ eq_refl Hr).
  - injection H as <- <-. by rewrite append_cons.
Qed.

Lemma stateE_append (x s e rest : string) :
  json.stateE s = Some (e, rest) → rest ≠ "" → json.stateE (s +:+ x) = Some (e, rest +:+ x).
Proof.
  unfold json.stateE. intros H Hr.
  assert (∀ sign s1, match json.digits s1 with
                     | ("", _) => None
                     | (d, r) => Some (sign +:+ d, r) end = Some (e, rest) →
                     match json.digits (s1 +:+ x) with
                     | ("", _) => None
                     | (d, r) => Some (sign +:+ d, r) end = Some (e, rest +:+ x)) as Hd.
  { intros sign s1 H'. destruct (json.digits s1) as [d r] eqn:E.
    destruct d as [|c d]; [done|]. injection H' as <- <-.
    by rewrite (digits_append x _ _ _ E Hr). }
  destruct s as [|c s]; [done|].
  rewrite append_cons. destruct (_ || _); [by apply Hd|].
  rewrite <- append_cons. by apply Hd.
Qed.

Lemma exponent_append (x s e rest : string) :
  json.exponent s = Some (e, rest) → rest ≠ "" →
  json.exponent (s +:+ x) = Some (e, rest +:+ x).
Proof.
  unfold json.exponent. intros H Hr. destruct s as [|c s].
  { by injection H as <- <-. }
  rewrite append_cons. destruct (_ || _).
  - destruct (json.stateE s) as [[e' r']|] eqn:E; [|done]. injection H as <- <-.
    by rewrite (stateE_append x _ _ _ E Hr).
  - injection H as <- <-. by rewrite append_cons.
Qed.

Lemma exponent_nonempty (s e rest : string) :
  json.exponent s = Some (e, rest) → rest ≠ "" → s ≠ "".
Proof. destruct s; [|done]. by intros [= <- <-]. Qed.

Lemma state0_append (x s f rest : string) :
  json.state0 s = Some (f, rest) → rest ≠ "" → json.state0 (s +:+ x) = Some (f, rest +:+ x).
Proof.
  intros H Hr. destruct s as [|c s]; [by injection H as <- <-|].
  rewrite append_cons. unfold json.state0 in *.
  destruct (Ascii.eqb_spec c ".") as [->|Hn].
  - destruct (json.digits s) as [d s1] eqn:E. destruct d as [|c' d]; [done|].
    destruct (json.exponent s1) as [[e r]|] eqn:Ee; [|done]. injection H as <- <-.
    pose proof (exponent_nonempty _ _ _ Ee Hr).
    by rewrite (digits_append x _ _ _ E), (exponent_append x _ _ _ Ee Hr).
  - assert (∀ t, match c with
                 | "."%char => match json.digits t with
                               | ("", _) => None
                               | (d, s1) => match json.exponent s1 with
                                            | Some (e, rest) => Some ("." +:+ d +:+ e, rest)
                                            | None => None end end
                 | _ => json.exponent (String c t) end = json.exponent (String c t)) as Hc.
    { intros t. destruct c as [[] [] [] [] [] [] [] []]; done. }
    rewrite Hc in *. rewrite <- append_cons. by apply exponent_append.
Qed.

Lemma state0_nonempty (s f rest : string) :
  json.state0 s = Some (f, rest) → rest ≠ "" → s ≠ "".
Proof. destruct s; [|done]. by intros [= <- <-]. Qed.

Lemma intPart_append (x s i rest : string) :
  json.intPart s = Some (i, rest) → rest ≠ "" → json.intPart (s +:+ x) = Some (i, rest +:+ x).
Proof.
  unfold json.intPart. intros H Hr. destruct s as [|c s]; [done|].
  rewrite append_cons. destruct (json.eqc c "0"); [by injection H as <- <-|].
  destruct (json.isDigit c); [|done].
  destruct (json.digits s) as [d r] eqn:E. injection H as <- <-.
  by rewrite (digits_append x _ _ _ E Hr).
Qed.

Lemma scanNumber_append (x s lit rest : string) :
  json.scanNumber s = Some (lit, rest) → rest ≠ "" →
  json.scanNumber (s +:+ x) = Some (lit, rest +:+ x).
Proof.
  unfold json.scanNumber. intros H Hr.
  assert (∀ sign s1, match json.intPart s1 with
                     | Some (i, s2) => match json.state0 s2 with
                                       | Some (f, r) => Some (sign +:+ i +:+ f, r)
                                       | None => None end
                     | None => None end = Some (lit, rest) →
                     match json.intPart (s1 +:+ x) with
                     | Some (i, s2) => match json.state0 s2 with
                                       | Some (f, r) => Some (sign +:+ i +:+ f, r)
                                       | None => None end
                     | None => None end = Some (lit, rest +:+ x)) as Hi.
  { intros sign s1 H'. destruct (json.intPart s1) as [[i s2]|] eqn:E; [|done].
    destruct (json.state0 s2) as [[f r]|] eqn:E0; [|done]. injection H' as <- <-.
    pose proof (state0_nonempty _ _ _ E0 Hr).
    by rewrite (intPart_append x _ _ _ E), (state0_append x _ _ _ E0 Hr). }
  destruct s as [|c s]; [done|].
  rewrite append_cons.
  destruct (Ascii.eqb_spec c "-") as [->|Hn]; [by apply Hi|].
  assert (∀ t, match c with "-"%char => ("-", t) | _ => ("", String c t) end
               = ("", String c t)) as Hc.
  { intros t. destruct c as [[] [] [] [] [] [] [] []]; done. }
  rewrite Hc in *. rewrite <- append_cons. by apply Hi.
Qed.

Lemma prefix_append_l (w s x : string) :
  String.prefix w s = true → String.prefix w (s +:+ x) = true.
Proof.
  revert s. induction w as [|a w IH]; intros s H; [by destruct (s +:+ x)|].
  destruct s as [|c s]; [by simpl in H|]. rewrite append_cons. simpl in *.
  destruct (ascii_dec a c); [by apply IH|done].
Qed.

Lemma drop_bytes_append (w s x : string) :
  String.prefix w s = true →
  drop_bytes (String.length w) (s +:+ x) = drop_bytes (String.length w) s +:+ x.
Proof.
  revert s. induction w as [|a w IH]; intros s H; [done|].
  destruct s as [|c s]; [by simpl in H|]. rewrite append_cons. simpl in *.
  destruct (ascii_dec a c); [by apply IH|done].
Qed.

Lemma scanWord_append (x w : string) (v0 : json.Value) (s : string) (v : json.Value)
    (rest : string) :
  json.scanWord w v0 s = Some (v, rest) →
  json.scanWord w v0 (s +:+ x) = Some (v, rest +:+ x).
Proof.
  unfold json.scanWord. destruct (String.prefix w s) eqn:E; [|done].
  intros [= <- <-]. by rewrite prefix_append_l, drop_bytes_append.
Qed.

Section scanner_append.
Variable x : string.
Variables value value' : string → option (json.Value * string).
Hypothesis value_nil : value "" = None.
Hypothesis value_append : ∀ s v rest,
  value s = Some (v, rest) → rest ≠ "" → value' (s +:+ x) = Some (v, rest +:+ x).

Lemma value_skipSpace_append (s : string) (v : json.Value) (s1 : string) (c : ascii)
    (s2 : string) :
  value (json.skipSpace s) = Some (v, s1) → json.skipSpace s1 = String c s2 →
  value' (json.skipSpace (s +:+ x)) = Some (v, s1 +:+ x) ∧
  json.skipSpace (s1 +:+ x) = String c (s2 +:+ x).
Proof.
  intros Hv Hs. split; [|by apply skipSpace_cons_append].
  rewrite skipSpace_append.
  - apply value_append; [done|]. apply skipSpace_nonempty. by rewrite Hs.
  - intros E. by rewrite E, value_nil in Hv.
Qed.

Lemma elements_append (fuel : nat) (s : string) (acc : list json.Value)
    (v : json.Value) (rest : string) (fuel' : nat) :
  json.elements value fuel s acc = Some (v, rest) → (fuel ≤ fuel')%nat →
  json.elements value' fuel' (s +:+ x) acc = Some (v, rest +:+ x).
Proof.
  revert s acc fuel'. induction fuel as [|fuel IH]; intros s acc fuel' H Hf; [done|].
  destruct fuel' as [|fuel']; [lia|]. cbn [json.elements] in *.
  destruct (value (json.skipSpace s)) as [[y s1]|] eqn:Ev; [|done].
  destruct (json.skipSpace s1) as [|c s2] eqn:Es; [done|].
  destruct (value_skipSpace_append _ _ _ _ _ Ev Es) as [-> ->].
  destruct (json.eqc c ","); [apply IH; [done|lia]|].
  destruct (json.eqc c "]"); [|done]. by injection H as <- <-.
Qed.

Lemma members_append (fuel : nat) (s : string) (acc : list (string * json.Value))
    (v : json.Value) (rest : string) (fuel' : nat) :
  json.members value fuel s acc = Some (v, rest) → (fuel ≤ fuel')%nat →
  json.members value' fuel' (s +:+ x) acc = Some (v, rest +:+ x).
Proof.
  revert s acc fuel'. induction fuel as [|fuel IH]; intros s acc fuel' H Hf; [done|].
  destruct fuel' as [|fuel']; [lia|]. cbn [json.members] in *.
  destruct (json.skipSpace s) as [|q s0] eqn:E0; [done|].
  rewrite (skipSpace_cons_append _ x _ _ E0).
  destruct (negb (json.eqc q "034")); [done|].
  destruct (json.scanString json.InString s0) as [[lit s1]|] eqn:El; [|done].
  rewrite (scanString_append x _ _ _ _ El).
  destruct (json.unquoteBytes lit) as [key|]; [|done].
  destruct (json.skipSpace s1) as [|colon s2] eqn:E1; [done|].
  rewrite (skipSpace_cons_append _ x _ _ E1).
  destruct (negb (json.eqc colon ":")); [done|].
  destruct (value (json.skipSpace s2)) as [[y s3]|] eqn:Ev; [|done].
  destruct (json.skipSpace s3) as [|c s4] eqn:E3; [done|].
  destruct (value_skipSpace_append _ _ _ _ _ Ev E3) as [-> ->].
  destruct (json.eqc c ","); [apply IH; [done|lia]|].
  destruct (json.eqc c "}"); [|done]. by injection H as <- <-.
Qed.
End scanner_append.

(** A value that ends by itself: anything but a number, whose literal
    would go on with the digits that follow. *)
Lemma scanValue_append (x : string) (fuel : nat) (depth : Z) (s : string) (v : json.Value)
    (rest : string) (fuel' : nat) :
  json.scanValue fuel depth s = Some (v, rest) →
  rest ≠ "" ∨ (∀ lit, v ≠ json.Number lit) →
  (fuel ≤ fuel')%nat →
  json.scanValue fuel' depth (s +:+ x) = Some (v, rest +:+ x).
Proof.
  revert depth s v rest fuel'.
  induction fuel as [|fuel IH]; intros depth s v rest fuel' H Hr Hf; [done|].
  destruct fuel' as [|fuel']; [lia|].
  destruct s as [|c s']; [done|]. rewrite append_cons. cbn [json.scanValue] in *.
  assert (∀ d, ∀ s v rest, json.scanValue fuel d s = Some (v, rest) → rest ≠ "" →
            json.scanValue fuel' d (s +:+ x) = Some (v, rest +:+ x)) as Hval.
  { intros d s0 v0 r0 H0 Hr0. apply IH; [done|by left|lia]. }
  assert (∀ d, json.scanValue fuel d "" = None) as Hnil by (by destruct fuel).
  assert (String.length s' ≤ String.length (s' +:+ x))%nat as Hl
    by (rewrite length_append; lia).
  destruct (json.eqc c "{").
  { destruct (json.maxNestingDepth <? depth + 1); [done|].
    destruct (json.skipSpace s') as [|c1 r1] eqn:E; [done|].
    rewrite (skipSpace_cons_append _ x _ _ E).
    destruct (json.eqc c1 "}"); [by injection H as <- <-|].
    rewrite <- append_cons.
    by apply (members_append x _ _ (Hnil _) (Hval _) (String.length s')). }
  destruct (json.eqc c "[").
  { destruct (json.maxNestingDepth <? depth + 1); [done|].
    destruct (json.skipSpace s') as [|c1 r1] eqn:E; [done|].
    rewrite (skipSpace_cons_append _ x _ _ E).
    destruct (json.eqc c1 "]"); [by injection H as <- <-|].
    rewrite <- append_cons.
    by apply (elements_append x _ _ (Hnil _) (Hval _) (String.length s')). }
  destruct (json.eqc c "034").
  { destruct (json.scanString json.InString s') as [[lit r]|] eqn:E; [|done].
    rewrite (scanString_append x _ _ _ _ E).
    destruct (json.unquoteBytes lit) as [t|]; [|done]. by injection H as <- <-. }
  destruct (json.eqc c "-" || json.isDigit c).
  { destruct (json.scanNumber _) as [[lit r]|] eqn:E; [|done]. injection H as <- <-.
    rewrite <- append_cons, (scanNumber_append x _ _ _ E); [done|].
    destruct Hr as [?|Hr]; [done|]. by destruct (Hr lit). }
  rewrite <- append_cons.
  destruct (json.eqc c "t"); [by apply scanWord_append|].
  destruct (json.eqc c "f"); [by apply scanWord_append|].
  destruct (json.eqc c "n"); [by apply scanWord_append|].
  done.
Qed.

Lemma readValue_append (x : string) (rd : io.Reader) (v : json.Value) :
  json.readValue rd = Some v → (∀ lit, v ≠ json.Number lit) →
  json.readValue (io.mkReader (io.data rd +:+ x) (io.failure rd)) = Some v.
Proof.
  unfold json.readValue, json.scan. cbn [io.data io.failure]. intros H Hn.
  destruct (json.scanValue _ _ _) as [[y rest]|] eqn:E; [|done].
  assert (y = v) as ->.
  { destruct y; try (by injection H).
    all: destruct rest, (io.failure rd); first [done | by injection H]. }
  assert (json.skipSpace (io.data rd) ≠ "") as Hs.
  { intros Hs. rewrite Hs in E. done. }
  rewrite (skipSpace_append _ x Hs).
  rewrite (scanValue_append x _ _ _ _ _ _ E); [|by right|rewrite length_append; lia].
  destruct v; try done.
  all: destruct rest as [|c rest]; [|by rewrite append_cons].
  all: destruct (io.failure rd); [done|]; by destruct ("" +:+ x).
Qed.

Lemma Decode_append {T} (x : string) (fields : list (json.Field T)) (rd : io.Reader) (v0 : T) :
  (json.Decode fields rd v0).2 = None →
  json.Decode fields (io.mkReader (io.data rd +:+ x) (io.failure rd)) v0
  = json.Decode fields rd v0.
Proof.
  unfold json.Decode. intros H.
  destruct (json.readValue rd) as [v|] eqn:E; [|done].
  rewrite (readValue_append x rd v E); [done|].
  intros lit ->. done.
Qed.

(** ** The handlers read one JSON value *)

(** X10. The handlers read only the first JSON value of the body: when the
    body decodes, bytes added after it (valid JSON or not) change nothing in
    what [getHello] and [getTranslate] answer, log and send upstream. *)
Theorem handlers_ignore_trailing_bytes (x : string) (r : http.Request) :
  ((decodeHello r).2 = None →
     serve (getHello (withTrailing x r)) = serve (getHello r)) ∧
  ((decodeTranslate r).2 = None →
     ∀ client, serve (getTranslate client (withTrailing x r))
               = serve (getTranslate client r)).
Proof.
  split; intros H.
  - unfold serve, getHello. cbn [withTrailing http.Body http.serverAddr].
    by rewrite (Decode_append x HelloRequest_fields (http.Body r) _ H).
  - intros client. unfold serve, getTranslate. cbn [withTrailing http.Body].
    by rewrite (Decode_append x TranslateRequest_fields (http.Body r) _ H).
Qed.

Lemma handlers_ignore_trailing_bytes_witness :
  serve (getHello (post (js "{'Name':'Ada','Age':36,'Hobby':'chess'}} trailing")))
  = serve (getHello (post (js "{'Name':'Ada','Age':36,'Hobby':'chess'}"))) ∧
  serve (getTranslate (upstream "200 OK" 200 "{}")
           (post (js "{'text':'Hello','source':'en','target':'es'}} trailing")))
  = serve (getTranslate (upstream "200 OK" 200 "{}")
           (post (js "{'text':'Hello','source':'en','target':'es'}"))).
Proof.
  split.
  - apply (handlers_ignore_trailing_bytes "} trailing"
             (post (js "{'Name':'Ada','Age':36,'Hobby':'chess'}"))).
    vm_compute. reflexivity.
  - apply (handlers_ignore_trailing_bytes "} trailing"
             (post (js "{'text':'Hello','source':'en','target':'es'}"))).
    vm_compute. reflexivity.
Defined.

(** ** Which bodies are invalid JSON for a handler *)

Lemma object_saved {T} (fields : list (json.Field T)) (m : list (string * json.Value))
    (cur : T) (e : json.error) :
  (json.object fields m cur (Some e)).2 = Some e.
Proof.
  revert cur. induction m as [|[k v] m IH]; intros cur; [done|]. simpl.
  destruct (json.findField fields k) as [f|]; [|done].
  by destruct (json.set f v cur) as [cur' e'].
Qed.

Lemma object_error_iff {T} (fields : list (json.Field T)) (fit : string * json.Value → bool) :
  (∀ k v f cur, json.findField fields k = Some f →
     ((json.set f v cur).2 = None ↔ fit (k, v) = true)) →
  (∀ k v, json.findField fields k = None → fit (k, v) = true) →
  ∀ m cur, (json.object fields m cur None).2 = None ↔ forallb fit m = true.
Proof.
  intros Hset Hskip. induction m as [|[k v] m IH]; intros cur; [done|]. simpl.
  destruct (json.findField fields k) as [f|] eqn:E.
  - pose proof (Hset k v f cur E) as Hf.
    destruct (json.set f v cur) as [cur' [e|]]; simpl in Hf.
    + rewrite object_saved. split; [done|]. intros [Hk _]%andb_true_iff.
      apply Hf in Hk. done.
    + simpl. rewrite (proj1 Hf eq_refl). apply IH.
  - rewrite (Hskip k v E). apply IH.
Qed.

Lemma Decode_accepted {T} (fields : list (json.Field T)) (fit : string * json.Value → bool)
    (rd : io.Reader) (v0 : T) :
  (∀ k v f cur, json.findField fields k = Some f →
     ((json.set f v cur).2 = None ↔ fit (k, v) = true)) →
  (∀ k v, json.findField fields k = None → fit (k, v) = true) →
  (json.Decode fields rd v0).2 = None ↔ acceptedBy fit rd.
Proof.
  intros Hset Hskip. unfold json.Decode, acceptedBy.
  destruct (json.readValue rd) as [v|]; [|split; [done|by intros [?|(? & ? & _)]]].
  destruct v as [|b|lit|s|l|m]; simpl.
  1: split; [by left|done].
  5: { rewrite (object_error_iff fields fit Hset Hskip). split.
       - intros H. right. by exists m.
       - intros [?|(m' & [= <-] & H)]; done. }
  all: split; [done|by intros [?|(? & ? & _)]].
Qed.

Lemma storeString_fits (v : json.Value) (cur : string) :
  (json.storeString v cur).2 = None ↔ fitsString v = true.
Proof. by destruct v. Qed.

Lemma storeInt_fits (v : json.Value) (cur : Z) :
  (json.storeInt v cur).2 = None ↔ fitsInt v = true.
Proof. destruct v; try done. simpl. by destruct (json.ParseInt lit). Qed.

Lemma decodeHello_accepted (r : http.Request) :
  (decodeHello r).2 = None ↔ acceptedBy helloFits (http.Body r).
Proof.
  apply Decode_accepted.
  - intros k v f cur E. unfold helloFits. cbn [fst snd]. rewrite E.
    destruct (findField_In _ _ _ E) as [<-|[<-|[<-|[]]]]; cbn [json.set json.name String.eqb].
    + rewrite <- (storeString_fits v (Name cur)). by destruct (json.storeString v (Name cur)).
    + rewrite <- (storeInt_fits v (Age cur)). by destruct (json.storeInt v (Age cur)).
    + rewrite <- (storeString_fits v (Hobby cur)). by destruct (json.storeString v (Hobby cur)).
  - intros k v E. unfold helloFits. cbn [fst]. by rewrite E.
Qed.

Lemma decodeTranslate_accepted (r : http.Request) :
  (decodeTranslate r).2 = None ↔ acceptedBy translateFits (http.Body r).
Proof.
  apply Decode_accepted.
  - intros k v f cur E. unfold translateFits. cbn [fst snd]. rewrite E.
    destruct (findField_In _ _ _ E) as [<-|[<-|[<-|[]]]]; cbn [json.set].
    + rewrite <- (storeString_fits v (Text cur)). by destruct (json.storeString v (Text cur)).
    + rewrite <- (storeString_fits v (Target cur)). by destruct (json.storeString v (Target cur)).
    + rewrite <- (storeString_fits v (Source cur)). by destruct (json.storeString v (Source cur)).
  - intros k v E. unfold translateFits. cbn [fst]. by rewrite E.
Qed.

(** X11. [getHello] answers ["Bad Request: invalid JSON"] exactly when the
    body is not accepted: its first JSON value cannot be read, or is neither
    [null] nor an object, or is an object with a member that selects a
    field and does not fit it ([Name] and [Hobby] take a string or [null],
    [Age] takes [null] or an integer literal within 64 bits).  Members that
    select no field never matter. *)
Theorem getHello_invalid_json_iff (r : http.Request) :
  http.body (response (getHello r)) = "Bad Request: invalid JSON
" ↔ ¬ acceptedBy helloFits (http.Body r).
Proof.
  rewrite <- decodeHello_accepted.
  pose proof (getHello_cases r) as H. unfold response.
  destruct (decodeHello r) as [req [e|]]; rewrite H; cbn [snd].
  - split; [done|]. intros _. reflexivity.
  - split; [|done]. intros Hb. exfalso.
    destruct (Age req <=? 0); [by vm_compute in Hb|].
    unfold serve, mbind, M_bind, print, io_WriteString, modify_rw, initEnv, http.Write in Hb.
    cbn in Hb. discriminate Hb.
Qed.

(** X12. [getTranslate] answers ["Bad Request: invalid JSON"] exactly when
    the body is not accepted: its first JSON value cannot be read, or is
    neither [null] nor an object, or is an object in which a member that
    selects [text], [source] or [target] is neither a string nor [null]. *)
Theorem getTranslate_invalid_json_iff (client : string → http.GetResult) (r : http.Request) :
  http.body (response (getTranslate client r)) = "Bad Request: invalid JSON
" ↔ ¬ acceptedBy translateFits (http.Body r).
Proof.
  rewrite <- decodeTranslate_accepted. unfold response.
  destruct (getTranslate_outcome client r) as
    [e Hd H _ _|e Hd He H _ _|e req err Hv Hc H _ _|e req resp Hv Hc ? H _ _
    |e req resp Hv Hc ? ? H _ _|e req resp a Hv Hc ? ? _ Hb _ _ _ _];
    try destruct H as (_ & Hb & _); rewrite Hb;
    try match goal with
        | Hv : validated ?rr ?q |- _ => destruct (validated_decoded rr q Hv) as [Hd _]
        end.
  1: by split.
  all: split; [intros Hx; exfalso|by intros []].
  5: { rewrite encodeTranslateResponse_eq, !append_cons in Hx. discriminate Hx. }
  all: rewrite ?append_cons in Hx; try discriminate Hx.
  all: by vm_compute in Hx.
Qed.

(** ** Keys are matched without regard to letter case *)

Lemma foldNameLoop_ascii (s : string) (n : nat) :
  all (λ c, b2z c <? 128) s = true → (String.length s ≤ n)%nat →
  json.foldNameLoop n s = upper s.
Proof.
  revert n. induction s as [|c s IH]; intros n Ha Hn; [by destruct n|].
  destruct n as [|n]; [simpl in Hn; lia|].
  rewrite all_cons in Ha. apply andb_true_iff in Ha as [Hc Hs].
  cbn [json.foldNameLoop upper]. unfold utf8.RuneSelf. rewrite Hc.
  rewrite IH; [done|done|simpl in Hn; lia].
Qed.

Lemma foldName_ascii (s : string) :
  all (λ c, b2z c <? 128) s = true → json.foldName s = upper s.
Proof. intros H. by apply foldNameLoop_ascii. Qed.

Lemma eqb_upper (n key : string) : String.eqb n key = true → upper n = upper key.
Proof. by intros ->%String.eqb_eq. Qed.

Ltac by_name key :=
  repeat match goal with
  | |- context [String.eqb ?n key] =>
    let E := fresh "E" in
    destruct (String.eqb n key) eqn:E;
    [apply eqb_upper in E;
     lazymatch type of E with
     | upper ?a = _ => let u := eval vm_compute in (upper a) in change (upper a) with u in E
     end|clear E]
  | |- context [String.eqb ?u (upper key)] =>
    let E := fresh "E" in
    destruct (String.eqb_spec u (upper key)) as [E|E]
  end.

(** X13. For a key made of ASCII bytes, the decoder selects a field of
    [HelloRequest] or of [TranslateRequest] exactly when the key equals the
    field's JSON name up to letter case: ["age"] and ["AGE"] select [Age],
    ["TEXT"] selects [text]. *)
Theorem keys_ignore_case (key n : string) :
  all (λ c, b2z c <? 128) key = true →
  (In n ["Name"; "Age"; "Hobby"] →
     (selects HelloRequest_fields key n = true ↔ upper key = upper n)) ∧
  (In n ["text"; "target"; "source"] →
     (selects TranslateRequest_fields key n = true ↔ upper key = upper n)).
Proof.
  intros Ha. unfold selects, json.findField.
  cbn [find HelloRequest_fields TranslateRequest_fields json.name].
  rewrite (foldName_ascii key Ha).
  repeat match goal with
  | |- context [json.foldName ?s] =>
    let u := eval vm_compute in (json.foldName s) in change (json.foldName s) with u
  end.
  split; intros Hn; simpl in Hn.
  - destruct Hn as [<-|[<-|[<-|[]]]];
      (let u := eval vm_compute in (upper "Name") in change (upper "Name") with u);
      (let u := eval vm_compute in (upper "Age") in change (upper "Age") with u);
      (let u := eval vm_compute in (upper "Hobby") in change (upper "Hobby") with u);
      by_name key; cbn [json.name String.eqb Ascii.eqb Bool.eqb];
      split; intros H; try done; try congruence.
  - destruct Hn as [<-|[<-|[<-|[]]]];
      (let u := eval vm_compute in (upper "text") in change (upper "text") with u);
      (let u := eval vm_compute in (upper "target") in change (upper "target") with u);
      (let u := eval vm_compute in (upper "source") in change (upper "source") with u);
      by_name key; cbn [json.name String.eqb Ascii.eqb Bool.eqb];
      split; intros H; try done; try congruence.
Qed.

Lemma keys_ignore_case_witness :
  selects HelloRequest_fields "AGE" "Age" = true ∧
  selects TranslateRequest_fields "Text" "text" = true.
Proof.
  split.
  - apply (keys_ignore_case "AGE" "Age"); [reflexivity|simpl; tauto|reflexivity].
  - apply (keys_ignore_case "Text" "text"); [reflexivity|simpl; tauto|reflexivity].
Defined.

(** ** Repeated and null members *)

Lemma object_app {T} (fields : list (json.Field T)) (m1 m2 : list (string * json.Value))
    (cur : T) (saved : option json.error) :
  json.object fields (m1 ++ m2) cur saved =
    json.object fields m2 (json.object fields m1 cur saved).1
      (json.object fields m1 cur saved).2.
Proof.
  revert cur saved. induction m1 as [|[k v] m1 IH]; intros cur saved; [done|]. simpl.
  destruct (json.findField fields k) as [f|]; [|apply IH].
  destruct (json.set f v cur) as [cur' e]. apply IH.
Qed.

Lemma translateField_set (n k : string) (s : string) (cur : TranslateRequest)
    (f : json.Field TranslateRequest) :
  json.findField TranslateRequest_fields k = Some f → String.eqb (json.name f) n = true →
  translateField n (json.set f (json.Str s) cur).1 = s.
Proof.
  intros E Hn. apply String.eqb_eq in Hn as <-.
  by destruct (findField_In _ _ _ E) as [<-|[<-|[<-|[]]]].
Qed.

Lemma translateField_absent (n : string) (m : list (string * json.Value))
    (cur : TranslateRequest) (saved : option json.error) :
  In n ["text"; "target"; "source"] →
  absent TranslateRequest_fields n m = true →
  translateField n (json.object TranslateRequest_fields m cur saved).1 = translateField n cur.
Proof.
  intros Hin. apply (object_preserves TranslateRequest_fields (translateField n)).
  simpl in Hin. intros f [<-|[<-|[<-|[]]]] Hn v c; cbn [json.set json.name] in *; unfold translateField;
    apply String.eqb_neq in Hn;
    [destruct (json.storeString v (Text c))|destruct (json.storeString v (Target c))
    |destruct (json.storeString v (Source c))];
    cbn [fst Text Source Target];
    destruct (String.eqb_spec n "text"); destruct (String.eqb_spec n "source");
    first [congruence | by destruct Hin as [?|[?|[?|[]]]]].
Qed.

(** X14. When a request object names a field of [TranslateRequest] more
    than once (under any spelling that selects it), [getTranslate] uses the
    last string given: the decoded [text], [source] or [target] is the value
    of the last member that selects it. *)
Theorem last_member_wins (r : http.Request) (m1 m2 : list (string * json.Value))
    (k n s : string) :
  json.readValue (http.Body r) = Some (json.Object (m1 ++ (k, json.Str s) :: m2)) →
  selects TranslateRequest_fields k n = true →
  absent TranslateRequest_fields n m2 = true →
  translateField n (decodeTranslate r).1 = s.
Proof.
  intros Hr Hs Ha. unfold decodeTranslate, json.Decode. rewrite Hr.
  cbn [json.storeStruct]. rewrite object_app. cbn [json.object].
  unfold selects in Hs.
  destruct (json.findField TranslateRequest_fields k) as [f|] eqn:E; [|done].
  pose proof (translateField_set n k s
                (json.object TranslateRequest_fields m1 (mkTranslateRequest "" "" "") None).1
                f E Hs) as Hset.
  assert (In n ["text"; "target"; "source"]) as Hin.
  { apply String.eqb_eq in Hs as <-.
    destruct (findField_In _ _ _ E) as [<-|[<-|[<-|[]]]]; simpl; tauto. }
  destruct (json.set f _ _) as [cur' e]. rewrite translateField_absent by done. exact Hset.
Qed.

Lemma last_member_wins_witness :
  translateField "text"
    (decodeTranslate (post (js "{'text':'one','TEXT':'two','source':'en'}"))).1 = "two".
Proof.
  apply (last_member_wins (post (js "{'text':'one','TEXT':'two','source':'en'}"))
           [("text", json.Str "one")] [("source", json.Str "en")] "TEXT" "text" "two");
    vm_compute; reflexivity.
Defined.

Lemma object_null {T} (fields : list (json.Field T)) :
  (∀ f, In f fields → ∀ cur, json.set f json.Null cur = (cur, None)) →
  ∀ m1 m2 k cur saved,
    json.object fields (m1 ++ (k, json.Null) :: m2) cur saved
    = json.object fields (m1 ++ m2) cur saved.
Proof.
  intros Hnull m1 m2 k cur saved. rewrite !object_app. cbn [json.object].
  destruct (json.findField fields k) as [f|] eqn:E; [|done].
  rewrite (Hnull f (findField_In _ _ _ E)). by rewrite saveError_None.
Qed.

(** X15. A member whose value is [null] counts as no member at all: the
    field it selects keeps what it had, so [getHello] and [getTranslate]
    answer a body with such a member as they answer the body without it. *)
Theorem null_member_ignored (r r' : http.Request) (m1 m2 : list (string * json.Value))
    (k : string) :
  json.readValue (http.Body r) = Some (json.Object (m1 ++ (k, json.Null) :: m2)) →
  json.readValue (http.Body r') = Some (json.Object (m1 ++ m2)) →
  response (getHello r) = response (getHello r') ∧
  ∀ client, serve (getTranslate client r) = serve (getTranslate client r').
Proof.
  intros Hr Hr'. split.
  - assert (decodeHello r = decodeHello r') as Hd.
    { unfold decodeHello, json.Decode. rewrite Hr, Hr'. cbn [json.storeStruct].
      apply object_null. intros f [<-|[<-|[<-|[]]]] [a b c]; reflexivity. }
    pose proof (getHello_cases r) as H. pose proof (getHello_cases r') as H'.
    rewrite Hd in H. unfold response.
    destruct (decodeHello r') as [req [e|]]; rewrite H, H'; [done|].
    by destruct (Age req <=? 0).
  - intros client. unfold serve, getTranslate.
    assert (json.Decode TranslateRequest_fields (http.Body r) (mkTranslateRequest "" "" "")
            = json.Decode TranslateRequest_fields (http.Body r') (mkTranslateRequest "" "" ""))
      as ->; [|done].
    unfold json.Decode. rewrite Hr, Hr'. cbn [json.storeStruct].
    apply object_null. intros f [<-|[<-|[<-|[]]]] [a b c]; reflexivity.
Qed.

Lemma null_member_ignored_witness :
  response (getHello (post (js "{'Age':36,'Hobby':null}")))
  = response (getHello (post (js "{'Age':36}"))) ∧
  ∀ client, serve (getTranslate client (post (js "{'Age':36,'Hobby':null}")))
            = serve (getTranslate client (post (js "{'Age':36}"))).
Proof.
  apply (null_member_ignored (post (js "{'Age':36,'Hobby':null}")) (post (js "{'Age':36}"))
           [("Age", json.Number "36")] [] "Hobby"); vm_compute; reflexivity.
Defined.

Lemma ResponseData_fits (v : json.Value) (cur : api.ResponseData_t) :
  (json.storeStruct api.ResponseData_fields v cur).2 = None ↔
  match v with
  | json.Null => true
  | json.Object m => forallb dataFits m
  | _ => false
  end = true.
Proof.
  destruct v as [|b|lit|s|l|m]; try done. cbn [json.storeStruct].
  apply object_error_iff.
  - intros k v f c E. unfold dataFits. cbn [fst snd]. rewrite E.
    destruct (findField_In _ _ _ E) as [<-|[]]; cbn [json.set].
    rewrite <- (storeString_fits v (api.TranslatedText c)).
    by destruct (json.storeString v (api.TranslatedText c)).
  - intros k v E. unfold dataFits. cbn [fst]. by rewrite E.
Qed.

Lemma decodeApiResponse_accepted (resp : http.Response) :
  (decodeApiResponse resp).2 = None ↔ acceptedBy apiFits (http.RespBody resp).
Proof.
  apply Decode_accepted.
  - intros k v f cur E. unfold apiFits. cbn [fst snd]. rewrite E.
    destruct (findField_In _ _ _ E) as [<-|[]]; cbn [json.set].
    rewrite <- (ResponseData_fits v (api.ResponseData cur)).
    by destruct (json.storeStruct api.ResponseData_fields v (api.ResponseData cur)).
  - intros k v E. unfold apiFits. cbn [fst]. by rewrite E.
Qed.

(** X16. For a validated request answered by the upstream with status 200,
    [getTranslate] answers ["Internal Server Error: failed to parse
    response"] exactly when the upstream body is not accepted: its first
    JSON value cannot be read, or is neither [null] nor an object, or has a
    member selecting [responseData] that is neither [null] nor an object
    whose members selecting [translatedText] are strings or [null]. *)
Theorem getTranslate_parse_failure_iff (client : string → http.GetResult)
    (r : http.Request) (req : TranslateRequest) (resp : http.Response) :
  validated r req →
  client (apiURL req) = http.GetOk resp →
  http.StatusCode resp = 200 →
  http.body (response (getTranslate client r)) =
    "Internal Server Error: failed to parse response
" ↔ ¬ acceptedBy apiFits (http.RespBody resp).
Proof.
  intros Hv Hc Hs. rewrite <- decodeApiResponse_accepted. unfold response.
  rewrite (getTranslate_validated client r req Hv), Hc, Hs. cbn [Z.eqb Pos.eqb negb].
  destruct (decodeApiResponse resp) as [a [e|]]; cbn [snd].
  - split; [done|]. intros _. reflexivity.
  - split; [|done]. intros Hb. exfalso. cbn [rw http.body http.Write http.written] in Hb.
    rewrite encodeTranslateResponse_eq in Hb. discriminate Hb.
Qed.

Lemma getTranslate_parse_failure_iff_witness :
  http.body (response (getTranslate
    (upstream "200 OK" 200 (js "{'responseData':{'translatedText':42}}"))
    (post (js "{'text':'Hello','source':'en','target':'es'}")))) =
    "Internal Server Error: failed to parse response
" ↔ ¬ acceptedBy apiFits (io.mkReader (js "{'responseData':{'translatedText':42}}") None).
Proof.
  apply (getTranslate_parse_failure_iff
           (upstream "200 OK" 200 (js "{'responseData':{'translatedText':42}}"))
           (post (js "{'text':'Hello','source':'en','target':'es'}"))
           (mkTranslateRequest "Hello" "es" "en")
           (http.mkResponse "200 OK" 200
              (io.mkReader (js "{'responseData':{'translatedText':42}}") None))).
  - split; [vm_compute; reflexivity | repeat split; discriminate].
  - reflexivity.
  - reflexivity.
Defined.

(** ** The decoded Age and its decimal text *)

Lemma parseDigits_acc (d : Decimal.uint) (acc : positive) :
  json.parseDigits (Z.pos acc) (NilEmpty.string_of_uint d)
  = Some (Z.pos (Pos.of_uint_acc d acc)).
Proof.
  revert acc. induction d; intros acc; [done|..];
    cbn [NilEmpty.string_of_uint json.parseDigits Pos.of_uint_acc];
    match goal with
    | |- (if json.isDigit ?c then _ else _) = _ => change (json.isDigit c) with true
    end; cbv iota;
    match goal with
    | |- json.parseDigits ?a _ = _ =>
      match goal with
      | |- _ = Some (Z.pos (Pos.of_uint_acc _ ?p)) =>
        replace a with (Z.pos p) by (vm_compute b2z; lia)
      end
    end; apply IHd.
Qed.

Lemma parseDigits_uint (d : Decimal.uint) :
  json.parseDigits 0 (NilEmpty.string_of_uint d) = Some (Z.of_N (Pos.of_uint d)).
Proof.
  induction d; [done|exact IHd|..];
    cbn [NilEmpty.string_of_uint json.parseDigits Pos.of_uint];
    match goal with
    | |- (if json.isDigit ?c then _ else _) = _ => change (json.isDigit c) with true
    end; cbv iota;
    match goal with
    | |- json.parseDigits ?a _ = _ =>
      let v := eval vm_compute in a in change a with v
    end; apply parseDigits_acc.
Qed.

Lemma string_of_uint_head (p : positive) :
  ∃ c s, NilEmpty.string_of_uint (Pos.to_uint p) = String c s ∧ json.isDigit c = true.
Proof.
  pose proof (DecimalPos.Unsigned.to_uint_nonnil p) as H.
  destruct (Pos.to_uint p); [done|..]; by eexists _, _.
Qed.

Lemma ParseInt_decimal (n : Z) :
  - 2 ^ 63 ≤ n < 2 ^ 63 → json.ParseInt (fmt.decimal n) = Some n.
Proof.
  intros Hn. unfold fmt.decimal. destruct n as [|p|p]; [done|..];
    cbn [Z.to_int NilZero.string_of_int].
  - assert (NilZero.string_of_uint (Pos.to_uint p) = NilEmpty.string_of_uint (Pos.to_uint p))
      as ->.
    { pose proof (DecimalPos.Unsigned.to_uint_nonnil p). by destruct (Pos.to_uint p). }
    pose proof (parseDigits_uint (Pos.to_uint p)) as Hp. rewrite DecimalPos.Unsigned.of_to in Hp.
    destruct (string_of_uint_head p) as (c & s & E & Hc). rewrite E in *.
    unfold json.ParseInt.
    assert (match c with "-"%char => (true, s) | _ => (false, String c s) end
            = (false, String c s)) as ->.
    { destruct c as [[] [] [] [] [] [] [] []]; done. }
    rewrite Hp. cbn [Z.of_N].
    destruct (Z.leb_spec (- 2 ^ 63) (Z.pos p)); [|lia].
    destruct (Z.ltb_spec (Z.pos p) (2 ^ 63)); [done|lia].
  - assert (NilZero.string_of_uint (Pos.to_uint p) = NilEmpty.string_of_uint (Pos.to_uint p))
      as ->.
    { pose proof (DecimalPos.Unsigned.to_uint_nonnil p). by destruct (Pos.to_uint p). }
    pose proof (parseDigits_uint (Pos.to_uint p)) as Hp. rewrite DecimalPos.Unsigned.of_to in Hp.
    destruct (string_of_uint_head p) as (c & s & E & Hc). rewrite E in *.
    unfold json.ParseInt. rewrite Hp. cbn [Z.of_N].
    change (- Z.pos p) with (Z.neg p).
    destruct (Z.leb_spec (- 2 ^ 63) (Z.neg p)); [|lia].
    destruct (Z.ltb_spec (Z.neg p) (2 ^ 63)); [done|lia].
Qed.

Lemma storeInt_range (v : json.Value) (cur : Z) :
  - 2 ^ 63 ≤ cur < 2 ^ 63 → - 2 ^ 63 ≤ (json.storeInt v cur).1 < 2 ^ 63.
Proof.
  intros Hc. destruct v; try done. cbn [json.storeInt].
  destruct (json.ParseInt lit) as [n|] eqn:E; [|done]. cbn [fst].
  unfold json.ParseInt in E.
  destruct (match lit with String "-" s' => (true, s') | _ => (false, lit) end) as [neg ds].
  destruct ds; [done|]. destruct (json.parseDigits 0 _) as [k|]; [|done].
  destruct (Z.leb_spec (- 2 ^ 63) (if neg then - k else k)); [|done].
  destruct (Z.ltb_spec (if neg then - k else k) (2 ^ 63)); [|done].
  injection E as <-. lia.
Qed.

(** X17. The [Age] that [getHello] decodes always fits in 64 bits, and the
    decimal text that the greeting and the log show for it is a literal the
    decoder reads back as the same number. *)
Theorem getHello_age_reads_back (r : http.Request) :
  - 2 ^ 63 ≤ Age (decodeHello r).1 < 2 ^ 63 ∧
  json.ParseInt (fmt.decimal (Age (decodeHello r).1)) = Some (Age (decodeHello r).1).
Proof.
  assert (- 2 ^ 63 ≤ Age (decodeHello r).1 < 2 ^ 63) as H.
  { unfold decodeHello, json.Decode.
    destruct (json.readValue _) as [j|] eqn:Er; [|done].
    apply readValue_valid in Er.
    apply (storeStruct_invariant HelloRequest_fields (λ q, - 2 ^ 63 ≤ Age q < 2 ^ 63));
      [|done..].
    intros f [<-|[<-|[<-|[]]]] v cur Hv Hc; cbn [json.set].
    - by destruct (json.storeString v (Name cur)).
    - pose proof (storeInt_range v (Age cur) Hc). by destruct (json.storeInt v (Age cur)).
    - by destruct (json.storeString v (Hobby cur)). }
  split; [done|]. by apply ParseInt_decimal.
Qed.

(** ** The upstream body is read like the request body *)

(** X18. [getTranslate] reads only the first JSON value of the upstream
    body: when a validated request is answered with a body that decodes,
    the same answer with bytes added after that body gets the same reply. *)
Theorem upstream_trailing_bytes_ignored (client client' : string → http.GetResult)
    (r : http.Request) (req : TranslateRequest) (resp : http.Response) (x : string) :
  validated r req →
  client (apiURL req) = http.GetOk resp →
  client' (apiURL req) = http.GetOk (respWithTrailing x resp) →
  (decodeApiResponse resp).2 = None →
  serve (getTranslate client' r) = serve (getTranslate client r).
Proof.
  intros Hv Hc Hc' Hd.
  rewrite (getTranslate_validated client r req Hv), (getTranslate_validated client' r req Hv).
  rewrite Hc, Hc'. cbn [respWithTrailing http.StatusCode http.Status].
  destruct (negb (http.StatusCode resp =? 200)); [done|].
  assert (decodeApiResponse (respWithTrailing x resp) = decodeApiResponse resp) as Ha.
  { unfold decodeApiResponse. cbn [respWithTrailing http.RespBody].
    by apply Decode_append. }
  by rewrite Ha.
Qed.

Lemma upstream_trailing_bytes_ignored_witness :
  serve (getTranslate
    (upstream "200 OK" 200 (js "{'responseData':{'translatedText':'Hola'}} and more"))
    (post (js "{'text':'Hello','source':'en','target':'es'}")))
  = serve (getTranslate
    (upstream "200 OK" 200 (js "{'responseData':{'translatedText':'Hola'}}"))
    (post (js "{'text':'Hello','source':'en','target':'es'}"))).
Proof.
  apply (upstream_trailing_bytes_ignored
    (upstream "200 OK" 200 (js "{'responseData':{'translatedText':'Hola'}}"))
    (upstream "200 OK" 200 (js "{'responseData':{'translatedText':'Hola'}} and more"))
    (post (js "{'text':'Hello','source':'en','target':'es'}"))
    (mkTranslateRequest "Hello" "es" "en")
    (http.mkResponse "200 OK" 200
       (io.mkReader (js "{'responseData':{'translatedText':'Hola'}}") None))
    " and more").
  - split; [vm_compute; reflexivity | repeat split; discriminate].
  - reflexivity.
  - reflexivity.
  - vm_compute. reflexivity.
Defined.

(** ** The nesting limit *)

Lemma elements_cons (value : string → option (json.Value * string)) (fuel : nat)
    (s : string) (acc : list json.Value) :
  json.elements value (S fuel) s acc =
  match value (json.skipSpace s) with
  | Some (v, s1) =>
    match json.skipSpace s1 with
    | String c s2 =>
      if json.eqc c "," then json.elements value fuel s2 (v :: acc)
      else if json.eqc c "]" then Some (json.Array (rev (v :: acc)), s2)
      else None
    | EmptyString => None
    end
  | None => None
  end.
Proof. reflexivity. Qed.

Lemma scanValue_array (fuel : nat) (depth : Z) (s : string) :
  json.scanValue (S fuel) depth (String "[" s) =
  if json.maxNestingDepth <? depth + 1 then None else
  match json.skipSpace s with
  | String c1 rest =>
    if json.eqc c1 "]" then Some (json.Array [], rest)
    else json.elements (json.scanValue fuel (depth + 1)) (String.length s) (String c1 rest) []
  | EmptyString => None
  end.
Proof. reflexivity. Qed.

Lemma scanValue_too_deep (k fuel : nat) (depth : Z) (rest : string) :
  json.maxNestingDepth < depth + Z.of_nat k →
  (1 ≤ k)%nat →
  json.scanValue fuel depth (brackets k +:+ rest) = None.
Proof.
  revert fuel depth. induction k as [|k IH]; intros fuel depth Hd Hk; [lia|].
  destruct fuel as [|fuel]; [done|].
  cbn [brackets]. rewrite append_cons, scanValue_array.
  destruct (Z.ltb_spec json.maxNestingDepth (depth + 1)); [done|].
  destruct k as [|k]; [lia|].
  cbn [brackets]. rewrite append_cons.
  change (json.skipSpace (String "[" ?x)) with (String "[" x). cbv beta match.
  change (json.eqc "[" "]") with false. cbv beta match.
  change (String.length (String "[" ?x)) with (S (String.length x)).
  rewrite elements_cons.
  change (json.skipSpace (String "[" ?x)) with (String "[" x).
  rewrite <- append_cons. change (String "[" (brackets k)) with (brackets (S k)).
  rewrite IH; [done|lia|lia].
Qed.

Lemma scanValue_nested (k fuel : nat) (depth : Z) (c : ascii) (rest : string) :
  (1 ≤ k ≤ fuel)%nat →
  depth + Z.of_nat k ≤ json.maxNestingDepth →
  json.isSpace c = false →
  json.scanValue fuel depth (brackets k +:+ closers k +:+ String c rest)
  = Some (nested k, String c rest).
Proof.
  revert fuel depth c rest. induction k as [|k IH]; intros fuel depth c rest Hk Hd Hc; [lia|].
  destruct fuel as [|fuel]; [lia|].
  cbn [brackets]. rewrite append_cons, scanValue_array.
  destruct (Z.ltb_spec json.maxNestingDepth (depth + 1)); [lia|].
  destruct k as [|k].
  - cbn [brackets closers]. rewrite append_nil_l, append_cons, append_nil_l.
    change (json.skipSpace (String "]" ?x)) with (String "]" x). cbv beta match.
    change (json.eqc "]" "]") with true. done.
  - cbn [brackets]. rewrite append_cons.
    change (json.skipSpace (String "[" ?x)) with (String "[" x). cbv beta match.
    change (json.eqc "[" "]") with false. cbv beta match.
    change (String.length (String "[" ?x)) with (S (String.length x)).
    rewrite elements_cons.
    change (json.skipSpace (String "[" ?x)) with (String "[" x).
    rewrite <- append_cons. change (String "[" (brackets k)) with (brackets (S k)).
    assert (closers (S (S k)) +:+ String c rest
            = closers (S k) +:+ String "]" (String c rest)) as ->.
    { clear. induction (S k) as [|n IHn]; [done|].
      change (closers (S (S n))) with (String "]" (closers (S n))).
      rewrite append_cons, IHn. done. }
    rewrite (IH fuel (depth + 1) "]"%char (String c rest)); [|lia|lia|done].
    cbv beta match.
    change (json.skipSpace (String "]" ?x)) with (String "]" x). cbv beta match.
    change (json.eqc "]" ",") with false. change (json.eqc "]" "]") with true.
    cbv beta match. done.
Qed.

Lemma length_brackets (k : nat) : String.length (brackets k) = k.
Proof. induction k as [|k IH]; [done|]. simpl. by rewrite IH. Qed.

(** The member [x] of the request [{"x":[[...]],"Age":7}] is read, or
    not, according to the depth of its value. *)
Lemma readValue_nesting (rd : io.Reader) (k : nat) :
  io.data rd = js "{'x':" +:+ brackets k +:+ closers k +:+ js ",'Age':7}" →
  (1 ≤ k)%nat →
  json.readValue rd =
    if Z.of_nat k <? 10000
    then Some (json.Object [("x", nested k); ("Age", json.Number "7")])
    else None.
Proof.
  intros Hdata Hk. unfold json.readValue, json.scan. rewrite Hdata.
  set (T := brackets k +:+ closers k +:+ js ",'Age':7}").
  change (js "{'x':" +:+ T)
    with (String "{" (String "034" (String "x" (String "034" (String ":" T))))).
  change (json.skipSpace (String "{" ?x)) with (String "{" x).
  change (String.length (String "{" (String "034" (String "x" (String "034" (String ":" T))))))
    with (S (S (S (S (S (String.length T)))))).
  rewrite scanValue_object.
  change (json.maxNestingDepth <? 0 + 1) with false. cbv beta match.
  change (json.skipSpace (String "034" ?x)) with (String "034" x). cbv beta match.
  change (json.eqc "034" "}") with false. cbv beta match.
  change (String.length (String "034" (String "x" (String "034" (String ":" T)))))
    with (S (S (S (S (String.length T))))).
  rewrite members_cons.
  change (json.skipSpace (String "034" ?x)) with (String "034" x). cbv beta match.
  change (negb (json.eqc "034" "034")) with false. cbv beta match.
  change (json.scanString json.InString (String "x" (String "034" ?t))) with (Some ("x", t)).
  cbv beta match.
  change (json.unquoteBytes "x") with (Some "x").
  change (json.skipSpace (String ":" ?x)) with (String ":" x). cbv beta match.
  change (negb (json.eqc ":" ":")) with false. cbv beta match.
  assert (json.skipSpace T = T) as ->.
  { unfold T. destruct k as [|k']; [lia|]. cbn [brackets]. by rewrite append_cons. }
  destruct (Z.ltb_spec (Z.of_nat k) 10000) as [Hlt|Hge].
  - unfold T.
    change (js ",'Age':7}") with (String "," (js "'Age':7}")).
    rewrite scanValue_nested; [|split; [done|]|unfold json.maxNestingDepth; lia|done].
    2: { rewrite !length_append, length_brackets. lia. }
    cbv beta match.
    change (json.skipSpace (String "," ?x)) with (String "," x). cbv beta match.
    change (json.eqc "," ",") with true. cbv beta match.
    rewrite members_cons.
    reflexivity.
  - unfold T. rewrite scanValue_too_deep; [done| |done].
    unfold json.maxNestingDepth. lia.
Qed.

(** X19. JSON nested deeper than 10000 levels is not read, even in a member
    the handler ignores: for the body [{"x":[[...]],"Age":7}] with [k >= 1]
    arrays nested in one another, [getHello] greets when [k < 10000] (the
    object is one level, the arrays [k] more) and answers ["Bad Request:
    invalid JSON"] when [k >= 10000]. *)
Theorem nesting_limit (r : http.Request) (k : nat) :
  io.data (http.Body r) = js "{'x':" +:+ brackets k +:+ closers k +:+ js ",'Age':7}" →
  (1 ≤ k)%nat →
  http.body (response (getHello r)) =
    if Z.of_nat k <? 10000 then "Hello, ! You are 7 years old and enjoy .
" else "Bad Request: invalid JSON
".
Proof.
  intros Hdata Hk. pose proof (readValue_nesting _ k Hdata Hk) as Hr.
  pose proof (getHello_cases r) as H. unfold response.
  unfold decodeHello, json.Decode in H. rewrite Hr in H.
  destruct (Z.of_nat k <? 10000); cbn in H; rewrite H; reflexivity.
Qed.

Lemma nesting_limit_witness :
  http.body (response (getHello (post (js "{'x':[[[]]],'Age':7}")))) =
    "Hello, ! You are 7 years old and enjoy .
" ∧
  http.body (response (getHello (post
    (js "{'x':" +:+ brackets (Z.to_nat 10000) +:+ closers (Z.to_nat 10000)
       +:+ js ",'Age':7}")))) = "Bad Request: invalid JSON
".
Proof.
  split.
  - apply (nesting_limit (post (js "{'x':[[[]]],'Age':7}")) 3); [reflexivity|lia].
  - apply (nesting_limit (post
      (js "{'x':" +:+ brackets (Z.to_nat 10000) +:+ closers (Z.to_nat 10000)
         +:+ js ",'Age':7}")) (Z.to_nat 10000)); [reflexivity|lia].
Defined.

(** ** getTranslate: an upstream answer without a translation *)

Lemma acceptedBy_accepts (fit : string * json.Value → bool) (rd : io.Reader)
    (v : json.Value) :
  json.readValue rd = Some v → (acceptedBy fit rd ↔ accepts fit v = true).
Proof.
  intros Hr. unfold acceptedBy. rewrite Hr. split.
  - intros [[= ->]|(m & [= ->] & Hm)]; done.
  - destruct v as [| | | | |m]; try done; intros H; [by left|right; by exists m].
Qed.







(** ** getHello: absent fields *)

Lemma forallb_helloFits (r : http.Request) (m : list (string * json.Value)) :
  json.readValue (http.Body r) = Some (json.Object m) →
  (decodeHello r).2 = None ↔ forallb helloFits m = true.
Proof.
  intros Hr. rewrite decodeHello_accepted. by rewrite (acceptedBy_accepts _ _ _ Hr).
Qed.

(** C10. When the body's first JSON value is an object, a field that no
    member selects (keys are matched without regard to letter case) keeps
    its zero value.  So a body in which no member selects [Age], and any
    body decoded with [Age] 0, is rejected with status 400.  A body with a
    member that does not fit the field it selects (as [Hobby] 7) is rejected
    with status 400 as invalid JSON, whatever its [Age].  And a body whose
    members all fit, with [Age > 0] and no member selecting [Name] (or
    [Hobby]), gets status 200 and the greeting with the empty string in the
    place of the missing field. *)
Theorem getHello_absent_fields (r : http.Request) (m : list (string * json.Value)) :
  json.readValue (http.Body r) = Some (json.Object m) →
  (absent HelloRequest_fields "Name" m = true → Name (decodeHello r).1 = "") ∧
  (absent HelloRequest_fields "Age" m = true → Age (decodeHello r).1 = 0) ∧
  (absent HelloRequest_fields "Hobby" m = true → Hobby (decodeHello r).1 = "") ∧
  (absent HelloRequest_fields "Age" m = true ∨ Age (decodeHello r).1 = 0 →
     http.status (response (getHello r)) = 400) ∧
  (forallb helloFits m = false →
     http.status (response (getHello r)) = 400 ∧
     http.body (response (getHello r)) = "Bad Request: invalid JSON
") ∧
  (forallb helloFits m = true → 0 < Age (decodeHello r).1 →
     (absent HelloRequest_fields "Name" m = true →
        http.status (response (getHello r)) = 200 ∧
        http.body (response (getHello r)) =
          "Hello, ! You are " +:+ fmt.decimal (Age (decodeHello r).1)
            +:+ " years old and enjoy " +:+ Hobby (decodeHello r).1 +:+ ".
") ∧
     (absent HelloRequest_fields "Hobby" m = true →
        http.status (response (getHello r)) = 200 ∧
        http.body (response (getHello r)) =
          "Hello, " +:+ Name (decodeHello r).1 +:+ "! You are "
            +:+ fmt.decimal (Age (decodeHello r).1) +:+ " years old and enjoy .
")).
Proof.
  intros Hr. pose proof (decodeHello_object r m Hr) as Hd.
  pose proof (forallb_helloFits r m Hr) as Hfit.
  assert (absent HelloRequest_fields "Name" m = true → Name (decodeHello r).1 = "") as HN.
  { intros Ha. rewrite Hd. by rewrite HelloRequest_absent_Name. }
  assert (absent HelloRequest_fields "Age" m = true → Age (decodeHello r).1 = 0) as HA.
  { intros Ha. rewrite Hd. by rewrite HelloRequest_absent_Age. }
  assert (absent HelloRequest_fields "Hobby" m = true → Hobby (decodeHello r).1 = "") as HH.
  { intros Ha. rewrite Hd. by rewrite HelloRequest_absent_Hobby. }
  pose proof (getHello_cases r) as Hc. unfold response.
  destruct (decodeHello r) as [req err]. cbn [fst snd] in *.
  split; [done|]. split; [done|]. split; [done|]. split; [|split].
  - intros H. rewrite Hc. destruct err; [done|].
    assert ((Age req <=? 0) = true) as ->; [|done].
    apply Z.leb_le. destruct H as [Ha|H0]; [rewrite (HA Ha) | rewrite H0]; lia.
  - intros Hf. rewrite Hc. destruct err; [done|].
    rewrite (proj1 Hfit eq_refl) in Hf. done.
  - intros Hf Hage. rewrite (proj2 Hfit Hf) in Hc. rewrite Hc.
    destruct (Z.leb_spec (Age req) 0); [lia|].
    split; intros Ha; (split; [done|]).
    + simpl. by rewrite (HN Ha).
    + simpl. by rewrite (HH Ha).
Qed.

Lemma getHello_absent_fields_witness :
  http.status (response (getHello (post (js "{'Name':'Ada','Hobby':'chess'}")))) = 400 ∧
  Name (decodeHello (post (js "{'Age':36,'Hobby':'chess'}"))).1 = "" ∧
  http.status (response (getHello (post (js "{'Age':36,'Hobby':'chess'}")))) = 200 ∧
  http.body (response (getHello (post (js "{'Age':36,'Hobby':'chess'}")))) =
    "Hello, ! You are 36 years old and enjoy chess.
" ∧
  http.body (response (getHello (post (js "{'Name':'Ada','Age':36}")))) =
    "Hello, Ada! You are 36 years old and enjoy .
" ∧
  http.body (response (getHello (post (js "{'Age':5,'Hobby':7}")))) =
    "Bad Request: invalid JSON
".
Proof.
  assert (json.readValue (http.Body (post (js "{'Name':'Ada','Hobby':'chess'}"))) =
          Some (json.Object [("Name", json.Str "Ada"); ("Hobby", json.Str "chess")])) as H1
    by (vm_compute; reflexivity).
  assert (json.readValue (http.Body (post (js "{'Age':36,'Hobby':'chess'}"))) =
          Some (json.Object [("Age", json.Number "36"); ("Hobby", json.Str "chess")])) as H2
    by (vm_compute; reflexivity).
  assert (json.readValue (http.Body (post (js "{'Name':'Ada','Age':36}"))) =
          Some (json.Object [("Name", json.Str "Ada"); ("Age", json.Number "36")])) as H3
    by (vm_compute; reflexivity).
  assert (json.readValue (http.Body (post (js "{'Age':5,'Hobby':7}"))) =
          Some (json.Object [("Age", json.Number "5"); ("Hobby", json.Number "7")])) as H4
    by (vm_compute; reflexivity).
  destruct (getHello_absent_fields _ _ H1) as (_ & _ & _ & A400 & _).
  destruct (getHello_absent_fields _ _ H2) as (AName & _ & _ & _ & _ & A200).
  destruct (getHello_absent_fields _ _ H3) as (_ & _ & _ & _ & _ & B200).
  destruct (getHello_absent_fields _ _ H4) as (_ & _ & _ & _ & C400 & _).
  destruct (A200 ltac:(vm_compute; reflexivity) ltac:(vm_compute; reflexivity))
    as [AN _].
  destruct (B200 ltac:(vm_compute; reflexivity) ltac:(vm_compute; reflexivity))
    as [_ BH].
  destruct (AN ltac:(vm_compute; reflexivity)) as [S200 Body200].
  destruct (BH ltac:(vm_compute; reflexivity)) as [_ BodyH].
  destruct (C400 ltac:(vm_compute; reflexivity)) as [_ BodyC].
  repeat apply conj.
  - apply A400. left. vm_compute. reflexivity.
  - apply AName. vm_compute. reflexivity.
  - exact S200.
  - exact Body200.
  - exact BodyH.
  - exact BodyC.
Defined.

(** The claim as worded fails on a member of the wrong type and on keys in
    another letter case: [{"Age":5,"Hobby":7}] is a valid JSON object that
    omits [Name] and decodes with [Age] 5, and it is rejected with status
    400; [{"age":5,"NAME":"Ada"}] has neither the key [Age] nor the key
    [Name], and it is greeted as Ada, aged 5. *)
Lemma getHello_absent_fields_counterexample :
  json.readValue (http.Body (post (js "{'Age':5,'Hobby':7}")))
    = Some (json.Object [("Age", json.Number "5"); ("Hobby", json.Number "7")]) ∧
  Age (decodeHello (post (js "{'Age':5,'Hobby':7}"))).1 = 5 ∧
  http.status (response (getHello (post (js "{'Age':5,'Hobby':7}")))) = 400 ∧
  json.readValue (http.Body (post (js "{'age':5,'NAME':'Ada'}")))
    = Some (json.Object [("age", json.Number "5"); ("NAME", json.Str "Ada")]) ∧
  http.status (response (getHello (post (js "{'age':5,'NAME':'Ada'}")))) = 200 ∧
  http.body (response (getHello (post (js "{'age':5,'NAME':'Ada'}")))) =
    "Hello, Ada! You are 5 years old and enjoy .
".
Proof. vm_compute. repeat split. Qed.
